(** * meme-sniper: a shallow embedding of the detection / dedup / dispatch pipeline

    The development follows the JavaScript sources:
    - [AddressDetector]  (addressDetector.js): regular-expression based
      classifier of tweet text, as the values its methods compute, and
      [DetectorObject], the same methods on the detector's [RegExp]
      objects with their [lastIndex];
    - [BSCTokenBuyer] / [SolanaTokenBuyer] (bscTokenBuyer.js,
      solanaTokenBuyer.js): the venue routers, with [Viem] for what the
      BSC buyer's own ABIs and the wei it reads decide of the library's
      answers;
    - [TwitterMonitor]   (twitterMonitor.js): the polling scheduler and its
      set of processed tweet identifiers;
    - [ProfitTracker]    (profitTracker.js): periodic revaluation of the
      purchased tokens, and [Tracker], the list of positions and its timer;
    - [Config]           (config.js): the configuration read from the
      environment and its validation, and [Startup], the constructor of
      the monitor;
    - [TwitterFeed], [TrackedMonitor]: signing in and fetching, and the
      revision of the monitor that records purchases and sells;
    - [SolanaSeller] / [BSCSeller]: the sell methods of the buyers.

    Modelling choices:
    - JavaScript numbers are IEEE-754 binary64 values: Rocq's primitive
      floats, whose operations are the hardware's.
    - A text is a [string], a list of 8-bit characters.  The regular
      expressions of the sources only name ASCII characters, have no [u]
      flag and no dot, so a character outside ASCII is, however it is
      encoded, a character that is in no class and is no word character.
    - The [Set] of processed identifiers is a [gset string].
    - An [async] function is run to completion: calls to the outside world
      (RPC nodes, HTTP APIs, the clock) are answered by an explicit [world]
      record, a call that may throw answers with an [outcome], and the
      calls a function makes are recorded in the trace it returns, or in
      the log of the monitor's state. *)

From Stdlib Require Import ZArith PrimFloat FloatOps SpecFloat FloatAxioms FloatLemmas Uint63
  Ascii String.
From stdpp Require Import gmap strings list pretty.

#[local] Set Warnings "-inexact-float".
#[local] Open Scope string_scope.
#[local] Open Scope list_scope.

(* ===================================================================== *)
(** ** JavaScript numbers *)
(* ===================================================================== *)

Module JS.

(** The integer [z] as a binary64 number (exact for |z| < 2^53). *)
Definition Z2float (z : Z) : float :=
  if (z <? 0)%Z
  then PrimFloat.opp (PrimFloat.of_uint63 (Uint63.of_Z (- z)))
  else PrimFloat.of_uint63 (Uint63.of_Z z).

(** [Math.floor]: NaN, the infinities and the zeros are returned as they
    are; a finite number with a non-negative exponent is already an
    integer; otherwise the mantissa is divided (rounding down) by the
    power of two of its exponent. *)
Definition Math_floor (x : float) : float :=
  match Prim2SF x with
  | S754_finite s m e =>
      if (0 <=? e)%Z then x
      else Z2float ((if s then Z.neg m else Z.pos m) / 2 ^ (- e))
  | _ => x
  end.

(** Truthiness of a number in [if (x)]: false for 0, -0 and NaN. *)
Definition truthy (x : float) : bool :=
  negb (PrimFloat.eqb x 0 || negb (PrimFloat.eqb x x)).

(** Truthiness of a nullable number. *)
Definition truthy_opt (x : option float) : bool :=
  match x with
  | Some v => truthy v
  | None => false
  end.

End JS.

(* ===================================================================== *)
(** ** Regular expressions with the backtracking semantics of JavaScript *)
(* ===================================================================== *)

Module Regex.

(** One item of a character class: a range [lo-hi] or a single character. *)
Inductive citem :=
| CRange (lo hi : ascii)
| COne (c : ascii).

Inductive regex :=
| Eps
| Lit (c : ascii)
| Class (cs : list citem)
| Seq (r1 r2 : regex)
| Alt (r1 r2 : regex)
| Rep (min : nat) (max : option nat) (r : regex)   (* greedy {min,max} *)
| WordB                                            (* \b *)
| Bol                                              (* ^  *)
| Eol.                                             (* $  *)

Definition Opt (r : regex) : regex := Rep 0 (Some 1) r.
Definition Star (r : regex) : regex := Rep 0 None r.
Definition Plus (r : regex) : regex := Rep 1 None r.

(** A literal string: the sequence of its characters. *)
Fixpoint Str (s : string) : regex :=
  match s with
  | EmptyString => Eps
  | String c s' => Seq (Lit c) (Str s')
  end.

Fixpoint Seqs (rs : list regex) : regex :=
  match rs with
  | [] => Eps
  | r :: rs' => Seq r (Seqs rs')
  end.

Definition code (c : ascii) : nat := nat_of_ascii c.

Definition in_range (lo hi c : ascii) : bool :=
  (code lo <=? code c)%nat && (code c <=? code hi)%nat.

Definition in_item (i : citem) (c : ascii) : bool :=
  match i with
  | CRange lo hi => in_range lo hi c
  | COne x => Ascii.eqb x c
  end.

Definition in_class (cs : list citem) (c : ascii) : bool :=
  existsb (fun i => in_item i c) cs.

Definition is_upper (c : ascii) : bool := in_range "A" "Z" c.
Definition is_lower (c : ascii) : bool := in_range "a" "z" c.
Definition is_digit (c : ascii) : bool := in_range "0" "9" c.

Definition to_upper (c : ascii) : ascii :=
  if is_lower c then ascii_of_nat (code c - 32) else c.
Definition to_lower (c : ascii) : ascii :=
  if is_upper c then ascii_of_nat (code c + 32) else c.

(** Word characters of [\b] and [\w]: letters, digits and underscore. *)
Definition is_word (c : ascii) : bool :=
  is_upper c || is_lower c || is_digit c || Ascii.eqb c "_".

Definition is_word_opt (c : option ascii) : bool :=
  match c with
  | Some x => is_word x
  | None => false
  end.

(** Matching one character; [ci] is the [i] flag (canonicalisation by
    upper-casing, which only relates ASCII letters to each other). *)
Definition lit_match (ci : bool) (c x : ascii) : bool :=
  if ci then Ascii.eqb (to_upper c) (to_upper x) else Ascii.eqb c x.

Definition class_match (ci : bool) (cs : list citem) (x : ascii) : bool :=
  in_class cs x || (ci && (in_class cs (to_upper x) || in_class cs (to_lower x))).

(** A continuation receives the character before the current position
    and the rest of the input, and answers with the input left after the
    whole match. *)
Definition Cont := option ascii -> list ascii -> option (list ascii).
Definition Matcher := option ascii -> list ascii -> Cont -> option (list ascii).

(** Greedy repetition: one more iteration is tried first, the
    continuation only if that fails.  An iteration that consumes nothing
    is refused once the minimum has been reached. *)
Fixpoint repeat_m (step : Matcher) (min max : nat)
         (prev : option ascii) (s : list ascii) (k : Cont)
  : option (list ascii) :=
  match max with
  | O => if (min =? 0)%nat then k prev s else None
  | S max' =>
      match step prev s
              (fun p' s' =>
                 if (length s' <? length s)%nat || (0 <? min)%nat
                 then repeat_m step (pred min) max' p' s' k
                 else None)
      with
      | Some r => Some r
      | None => if (min =? 0)%nat then k prev s else None
      end
  end.

Fixpoint m (ci : bool) (r : regex) : Matcher :=
  fun prev s k =>
    match r with
    | Eps => k prev s
    | Lit c =>
        match s with
        | x :: s' => if lit_match ci c x then k (Some x) s' else None
        | [] => None
        end
    | Class cs =>
        match s with
        | x :: s' => if class_match ci cs x then k (Some x) s' else None
        | [] => None
        end
    | Seq r1 r2 => m ci r1 prev s (fun p' s' => m ci r2 p' s' k)
    | Alt r1 r2 =>
        match m ci r1 prev s k with
        | Some res => Some res
        | None => m ci r2 prev s k
        end
    | Rep min max r' =>
        repeat_m (m ci r') min
                 (match max with Some n => n | None => min + length s end)
                 prev s k
    | WordB =>
        if xorb (is_word_opt prev) (is_word_opt (head s)) then k prev s else None
    | Bol => match prev with None => k prev s | Some _ => None end
    | Eol => match s with [] => k prev s | _ :: _ => None end
    end.

(** One attempt at the current position: the number of characters matched. *)
Definition exec_at (ci : bool) (r : regex) (prev : option ascii) (s : list ascii)
  : option nat :=
  match m ci r prev s (fun _ rest => Some rest) with
  | Some rest => Some (length s - length rest)
  | None => None
  end.

(** [String.prototype.match] with a global regex: all matches, left to
    right, the search resuming where the previous match ended (one
    character further after an empty match).  [skip] counts the
    characters still covered by the previous match. *)
Fixpoint match_all_from (ci : bool) (r : regex) (skip : nat)
         (prev : option ascii) (s : list ascii) : list (list ascii) :=
  match s with
  | [] =>
      match skip, exec_at ci r prev [] with
      | O, Some _ => [[]]
      | _, _ => []
      end
  | c :: s' =>
      match skip with
      | S n => match_all_from ci r n (Some c) s'
      | O =>
          match exec_at ci r prev s with
          | Some len => take len s :: match_all_from ci r (len - 1) (Some c) s'
          | None => match_all_from ci r 0 (Some c) s'
          end
      end
  end.

(** [text.match(re) || []] for a regex with the [g] flag. *)
Definition match_all (ci : bool) (r : regex) (text : string) : list string :=
  string_of_list_ascii <$> match_all_from ci r 0 None (list_ascii_of_string text).

(** The first position at which the regex matches, if any. *)
Fixpoint search_from (ci : bool) (r : regex) (prev : option ascii) (s : list ascii)
  : bool :=
  match exec_at ci r prev s with
  | Some _ => true
  | None =>
      match s with
      | [] => false
      | c :: s' => search_from ci r (Some c) s'
      end
  end.

(** Truthiness of [text.match(re)] for a regex without the [g] flag. *)
Definition matches (ci : bool) (r : regex) (text : string) : bool :=
  search_from ci r None (list_ascii_of_string text).

End Regex.

(* ===================================================================== *)
(** ** Base58 (the [bs58] package used by the address detector) *)
(* ===================================================================== *)

Module Base58.

Definition ALPHABET : string :=
  "123456789ABCDEFGHJKLMNPQRSTUVWXYZabcdefghijkmnopqrstuvwxyz".

Fixpoint index_of (c : ascii) (l : list ascii) : option nat :=
  match l with
  | [] => None
  | x :: l' => if Ascii.eqb x c then Some O else S <$> index_of c l'
  end.

(** The value of a character in the alphabet, if it has one. *)
Definition digit (c : ascii) : option Z :=
  Z.of_nat <$> index_of c (list_ascii_of_string ALPHABET).

(** The base-58 number written by the characters, most significant
    first, on top of [acc]; [None] on a character outside the alphabet. *)
Fixpoint value_from (acc : Z) (s : list ascii) : option Z :=
  match s with
  | [] => Some acc
  | c :: s' =>
      match digit c with
      | Some d => value_from (acc * 58 + d) s'
      | None => None
      end
  end.

(** The number of leading ['1'] characters and what follows them. *)
Fixpoint leading_ones (s : list ascii) : nat * list ascii :=
  match s with
  | c :: s' =>
      if Ascii.eqb c "1"
      then let '(n, r) := leading_ones s' in (S n, r)
      else (O, s)
  | [] => (O, [])
  end.

(** Number of bytes of the shortest big-endian writing of [v >= 0]. *)
Definition byte_length (v : Z) : nat :=
  if (v <=? 0)%Z then O else Z.to_nat (Z.log2 v / 8 + 1).

(** Shortest big-endian base-256 writing of [v] (empty for 0). *)
Definition be_bytes (v : Z) : list Z :=
  (fun i => (v / 256 ^ Z.of_nat i) mod 256)%Z <$> rev (seq 0 (byte_length v)).

(** Modelled from the spec: [bs58.decode] of the external [bs58] package,
    which is not among the sources.  It is the checksum-free structural
    decode of the specification: every leading ['1'] stands for one zero
    byte, the remaining characters are a base-58 number written out in
    big-endian bytes, and a character outside the alphabet is an error
    (the JavaScript function throws). *)
Definition decode (s : string) : option (list Z) :=
  let '(zeroes, body) := leading_ones (list_ascii_of_string s) in
  match value_from 0 body with
  | Some v => Some (replicate zeroes 0%Z ++ be_bytes v)
  | None => None
  end.

End Base58.

(* ===================================================================== *)
(** ** AddressDetector (addressDetector.js) *)
(* ===================================================================== *)

(** The methods of the class as functions of their arguments: what a
    call returns.  The [RegExp] objects the detector keeps between calls,
    and what a call does to them, are followed in [DetectorObject] below. *)
Module AddressDetector.
Import Regex.

(** The character class [[1-9A-HJ-NP-Za-km-z]]. *)
Definition base58_class : list citem :=
  [CRange "1" "9"; CRange "A" "H"; CRange "J" "N"; CRange "P" "Z";
   CRange "a" "k"; CRange "m" "z"].

(** The character class [[a-fA-F0-9]]. *)
Definition hex_class : list citem :=
  [CRange "a" "f"; CRange "A" "F"; CRange "0" "9"].

(** [/\b[1-9A-HJ-NP-Za-km-z]{32,44}\b/g] *)
Definition solanaRegex : regex :=
  Seqs [WordB; Rep 32 (Some 44) (Class base58_class); WordB].

(** [/\b0x[a-fA-F0-9]{40}\b/g] *)
Definition bscRegex : regex :=
  Seqs [WordB; Str "0x"; Rep 40 (Some 40) (Class hex_class); WordB].

(** [/^0x[a-fA-F0-9]{40}$/] *)
Definition bscExactRegex : regex :=
  Seqs [Bol; Str "0x"; Rep 40 (Some 40) (Class hex_class); Eol].

(** [(?:ing|ed)?] *)
Definition ing_ed : regex := Opt (Alt (Str "ing") (Str "ed")).

(** The keyword patterns with their [i] flag, in the order of the source.
    The second one is written [/\launch\b/gi] there: [\l] is an identity
    escape, so the pattern has no word boundary in front. *)
Definition keywordPatterns : list (bool * regex) :=
  [ (true,  Seqs [WordB; Str "pump"; WordB]);
    (true,  Seqs [Str "launch"; WordB]);
    (true,  Seqs [WordB; Str "token"; WordB]);
    (true,  Seqs [WordB; Str "contract"; WordB]);
    (true,  Seqs [WordB; Str "mint"; ing_ed; WordB]);
    (true,  Seqs [WordB; Str "deploy"; ing_ed; WordB]);
    (true,  Seqs [WordB; Str "live"; WordB]);
    (false, Seqs [WordB; Str "CA"; WordB]);
    (false, Seqs [WordB; Str "SOL"; WordB]);
    (false, Seqs [WordB; Str "BSC"; WordB]);
    (true,  Seqs [WordB; Str "airdrop"; WordB]);
    (true,  Seqs [WordB; Str "presale"; WordB]);
    (true,  Seqs [WordB; Str "liquidity"; WordB]);
    (false, Seqs [WordB; Str "DEX"; WordB]) ].

Definition alnum : list citem := [CRange "a" "z"; CRange "A" "Z"; CRange "0" "9"].

(** [[-a-zA-Z0-9@:%._\+~#=]] *)
Definition url_host_class : list citem :=
  COne "-" :: alnum ++
  [COne "@"; COne ":"; COne "%"; COne "."; COne "_"; COne "+"; COne "~";
   COne "#"; COne "="].

(** [[a-zA-Z0-9()]] *)
Definition url_tld_class : list citem := alnum ++ [COne "("; COne ")"].

(** [[-a-zA-Z0-9()@:%_\+.~#?&//=]] *)
Definition url_path_class : list citem :=
  COne "-" :: alnum ++
  [COne "("; COne ")"; COne "@"; COne ":"; COne "%"; COne "_"; COne "+";
   COne "."; COne "~"; COne "#"; COne "?"; COne "&"; COne "/"; COne "/";
   COne "="].

(** The http(s) pattern of [extractUrls]: scheme, optional [www.], 1 to 256
    host characters, a dot, 1 to 6 characters of the top-level class, a
    word boundary and any number of path characters (flag [g]). *)
Definition urlRegex : regex :=
  Seqs [Str "http"; Opt (Lit "s"); Str "://"; Opt (Str "www.");
        Rep 1 (Some 256) (Class url_host_class); Lit ".";
        Rep 1 (Some 6) (Class url_tld_class); WordB;
        Star (Class url_path_class)].

(** [/https:\/\/t\.co\/[a-zA-Z0-9]+/g] *)
Definition tcoRegex : regex :=
  Seqs [Str "https://t.co/"; Plus (Class alnum)].

Definition isValidSolanaAddress (address : string) : bool :=
  match Base58.decode address with
  | Some decoded => (length decoded =? 32)%nat
  | None => false                       (* catch { return false } *)
  end.

Definition isValidBSCAddress (address : string) : bool :=
  if negb (matches false bscExactRegex address) then false else true.

Definition extractSolanaAddresses (text : string) : list string :=
  filter (fun a => isValidSolanaAddress a = true) (match_all false solanaRegex text).

Definition extractBSCAddresses (text : string) : list string :=
  filter (fun a => isValidBSCAddress a = true) (match_all false bscRegex text).

(** [[...new Set(l)]]: the first occurrence of every element, in order. *)
Fixpoint uniq_from (seen : list string) (l : list string) : list string :=
  match l with
  | [] => []
  | x :: l' =>
      if bool_decide (x ∈ seen) then uniq_from seen l'
      else x :: uniq_from (x :: seen) l'
  end.

Definition containsCryptoKeywords (text : string) : list string :=
  let foundKeywords :=
    mjoin ((fun p : bool * regex => match_all p.1 p.2 text) <$> keywordPatterns) in
  uniq_from [] foundKeywords.

Definition extractUrls (text : string) : list string :=
  let httpUrls := match_all false urlRegex text in
  let tcoUrls := match_all false tcoRegex text in
  httpUrls ++ tcoUrls.

Record analysis := {
  hasCryptoContent : bool;
  solanaAddresses : list string;
  bscAddresses : list string;
  keywords : list string;
  urls : list string;
  timestamp : string
}.

(** [now] is the value of [new Date().toISOString()] at the call. *)
Definition analyzeTweet (now : string) (tweetText : string) : analysis :=
  let solanaAddresses := extractSolanaAddresses tweetText in
  let bscAddresses := extractBSCAddresses tweetText in
  let keywords := containsCryptoKeywords tweetText in
  let urls := extractUrls tweetText in
  {| hasCryptoContent :=
       (0 <? length solanaAddresses)%nat || (0 <? length bscAddresses)%nat
       || (0 <? length keywords)%nat;
     solanaAddresses := solanaAddresses;
     bscAddresses := bscAddresses;
     keywords := keywords;
     urls := urls;
     timestamp := now |}.

End AddressDetector.

(* ===================================================================== *)
(** ** The detector as an object: RegExp instances and their [lastIndex] *)
(* ===================================================================== *)

(** The address and keyword patterns are [RegExp] objects created once by
    the constructor and kept in the detector; a [RegExp] with the [g] flag
    carries a [lastIndex] that its methods read and write.  This module
    follows [RegExpBuiltinExec] and [RegExp.prototype[Symbol.match]] on
    such objects, and the methods of the detector on top of them. *)
Module DetectorObject.
Import Regex AddressDetector.

Record RegExp := {
  source : regex;
  ignoreCase : bool;
  global : bool;
  lastIndex : nat
}.

Definition set_lastIndex (n : nat) (rx : RegExp) : RegExp :=
  {| source := source rx; ignoreCase := ignoreCase rx; global := global rx;
     lastIndex := n |}.

(** The character before position [i]. *)
Definition char_before (s : list ascii) (i : nat) : option ascii :=
  match i with
  | O => None
  | S j => s !! j
  end.

(** The characters from position [i] up to position [e]. *)
Definition substring (s : list ascii) (i e : nat) : list ascii :=
  take (e - i) (drop i s).

(** The first position from [i] on at which the pattern matches, with the
    position where that match ends; [more] positions after [i] are tried. *)
Fixpoint find_from (ci : bool) (r : regex) (s : list ascii) (i more : nat)
  : option (nat * nat) :=
  match exec_at ci r (char_before s i) (drop i s) with
  | Some len => Some (i, i + len)
  | None =>
      match more with
      | O => None
      | S more' => find_from ci r s (S i) more'
      end
  end.

(** [RegExpBuiltinExec] (no sticky flag): the search starts at [lastIndex]
    for a global regex and at 0 otherwise; a global regex is left with
    [lastIndex] at the end of the match, or at 0 when there is none. *)
Definition exec (rx : RegExp) (s : list ascii) : option (nat * nat) * RegExp :=
  let start := if global rx then lastIndex rx else 0 in
  if (length s <? start)%nat
  then (None, if global rx then set_lastIndex 0 rx else rx)
  else
    match find_from (ignoreCase rx) (source rx) s start (length s - start) with
    | Some (i, e) => (Some (i, e), if global rx then set_lastIndex e rx else rx)
    | None => (None, if global rx then set_lastIndex 0 rx else rx)
    end.

(** The loop of [RegExp.prototype[Symbol.match]] for a global regex: [exec]
    until it finds nothing, stepping over an empty match.  [fuel] bounds
    the number of rounds. *)
Fixpoint match_loop (fuel : nat) (rx : RegExp) (s : list ascii)
  : list (list ascii) * RegExp :=
  match fuel with
  | O => ([], rx)
  | S fuel' =>
      match exec rx s with
      | (None, rx) => ([], rx)
      | (Some (i, e), rx) =>
          let rx := if (e =? i)%nat then set_lastIndex (S (lastIndex rx)) rx else rx in
          let '(rest, rx) := match_loop fuel' rx s in
          (substring s i e :: rest, rx)
      end
  end.

(** [text.match(rx) || []] with the regex it leaves behind.  A global
    regex is first reset to [lastIndex = 0]; every round of the loop moves
    [lastIndex] forward, so [length + 2] rounds are enough. *)
Definition match_or_empty (rx : RegExp) (text : string) : list string * RegExp :=
  let s := list_ascii_of_string text in
  if global rx then
    let '(found, rx) := match_loop (length s + 2) (set_lastIndex 0 rx) s in
    (string_of_list_ascii <$> found, rx)
  else
    match exec rx s with
    | (Some (i, e), rx) => ([string_of_list_ascii (substring s i e)], rx)
    | (None, rx) => ([], rx)
    end.

(** The fields of the detector. *)
Record detector := {
  solanaRegexObj : RegExp;
  bscRegexObj : RegExp;
  keywordPatternObjs : list RegExp
}.

Definition literal (ci g : bool) (r : regex) : RegExp :=
  {| source := r; ignoreCase := ci; global := g; lastIndex := 0 |}.

(** [new AddressDetector()] *)
Definition constructor : detector :=
  {| solanaRegexObj := literal false true solanaRegex;
     bscRegexObj := literal false true bscRegex;
     keywordPatternObjs :=
       (fun p : bool * regex => literal p.1 true p.2) <$> keywordPatterns |}.

Definition extractSolanaAddresses (this : detector) (text : string)
  : list string * detector :=
  let '(found, rx) := match_or_empty (solanaRegexObj this) text in
  (filter (fun a => isValidSolanaAddress a = true) found,
   {| solanaRegexObj := rx; bscRegexObj := bscRegexObj this;
      keywordPatternObjs := keywordPatternObjs this |}).

Definition extractBSCAddresses (this : detector) (text : string)
  : list string * detector :=
  let '(found, rx) := match_or_empty (bscRegexObj this) text in
  (filter (fun a => isValidBSCAddress a = true) found,
   {| solanaRegexObj := solanaRegexObj this; bscRegexObj := rx;
      keywordPatternObjs := keywordPatternObjs this |}).

(** The loop over [this.keywordPatterns]: the matches found and the
    patterns as they are left. *)
Fixpoint matchPatterns (patterns : list RegExp) (text : string)
  : list string * list RegExp :=
  match patterns with
  | [] => ([], [])
  | pattern :: patterns' =>
      let '(found, pattern) := match_or_empty pattern text in
      let '(rest, patterns') := matchPatterns patterns' text in
      (found ++ rest, pattern :: patterns')
  end.

Definition containsCryptoKeywords (this : detector) (text : string)
  : list string * detector :=
  let '(foundKeywords, patterns) := matchPatterns (keywordPatternObjs this) text in
  (uniq_from [] foundKeywords,
   {| solanaRegexObj := solanaRegexObj this; bscRegexObj := bscRegexObj this;
      keywordPatternObjs := patterns |}).

(** The two patterns of [extractUrls] are literals of the method: new
    objects at every call, dropped when it returns. *)
Definition extractUrls (text : string) : list string :=
  let httpUrls := (match_or_empty (literal false true urlRegex) text).1 in
  let tcoUrls := (match_or_empty (literal false true tcoRegex) text).1 in
  httpUrls ++ tcoUrls.

(** [this.analyzeTweet(tweetText)] at time [now]: the record returned and
    the detector as the call leaves it. *)
Definition analyzeTweet (this : detector) (now : string) (tweetText : string)
  : analysis * detector :=
  let '(solanaAddresses, this) := extractSolanaAddresses this tweetText in
  let '(bscAddresses, this) := extractBSCAddresses this tweetText in
  let '(keywords, this) := containsCryptoKeywords this tweetText in
  let urls := extractUrls tweetText in
  ({| hasCryptoContent :=
        (0 <? length solanaAddresses)%nat || (0 <? length bscAddresses)%nat
        || (0 <? length keywords)%nat;
      solanaAddresses := solanaAddresses;
      bscAddresses := bscAddresses;
      keywords := keywords;
      urls := urls;
      timestamp := now |},
   this).

End DetectorObject.

(* ===================================================================== *)
(** ** Venue routers: common vocabulary *)
(* ===================================================================== *)

Module Venue.

Inductive venue := FourMeme | PancakeSwap | PumpFun | Meteora | Raydium.

(** What an awaited external call does: it returns a value or it throws
    an error carrying a message. *)
Inductive outcome (A : Type) :=
| Returns (a : A)
| Throws (message : string).
Arguments Returns {A} a.
Arguments Throws {A} message.

(** The object returned by [buyToken] and by the [buyOn...] adapters:
    [{ success: true, hash | signature, platform, amount, tokenReceived,
    quote }] (the last two where the adapter sets them; [quote] stands for
    [quote.outAmount]) or [{ success: false, error }]. *)
Inductive buyResult :=
| Bought (ref : string) (platform : string) (amount : float)
         (tokenReceived : option string) (quote : option string)
| Failed (error : string).

Definition success (r : buyResult) : bool :=
  match r with
  | Bought _ _ _ _ _ => true
  | Failed _ => false
  end.

(** The calls [buyToken] makes, in the order it makes them. *)
Inductive event :=
| EvGetBalance
| EvGetTokenInfo (address : string)
| EvProbe (v : venue) (address : string)
| EvTrade (v : venue) (address : string) (amount : float).

Definition probed (tr : list event) : list venue :=
  omap (fun e => match e with EvProbe v _ => Some v | _ => None end) tr.
Definition traded (tr : list event) : list (venue * float) :=
  omap (fun e => match e with EvTrade v _ a => Some (v, a) | _ => None end) tr.

End Venue.

(* ===================================================================== *)
(** ** The [viem] functions the BSC buyer calls on its own data *)
(* ===================================================================== *)

Module Viem.

(** What [encodeFunctionData] reads of an entry of an ABI: the name of
    the function and the number of its inputs. *)
Record abiFunction := { abi_name : string; abi_inputs : nat }.

(** The errors of [encodeFunctionData] that the ABI and the number of
    arguments decide. *)
Inductive encodingError :=
| AbiFunctionNotFound (functionName : string)
| AbiEncodingLengthMismatch (expected given : nat).

(** [encodeFunctionData({ abi, functionName, args })] for [args] of the
    given length, as far as the ABI decides it: the function is looked up
    in the ABI by its name (the ABIs of the sources name every function
    once) and the call throws when there is none, and when the number of
    arguments is not the number of inputs.  [None]: neither error. *)
Definition encodeFunctionData (abi : list abiFunction) (functionName : string)
           (args : nat) : option encodingError :=
  match List.find (fun f => String.eqb (abi_name f) functionName) abi with
  | None => Some (AbiFunctionNotFound functionName)
  | Some f =>
      if (abi_inputs f =? args)%nat then None
      else Some (AbiEncodingLengthMismatch (abi_inputs f) args)
  end.

(** The binary64 number nearest to [p / q], ties to even. *)
Definition nearest (p q : positive) : float :=
  SF2Prim (SFdiv prec emax (S754_finite false p 0) (S754_finite false q 0)).

(** [parseFloat(formatEther(wei))]: [formatEther] writes [wei / 10^18] in
    decimal digits, all of them, and [parseFloat] reads the number nearest
    to what is written. *)
Definition parseFloat_formatEther (wei : Z) : float :=
  match wei with
  | Z0 => 0%float
  | Zpos m => nearest m (10 ^ 18)
  | Zneg m => (- nearest m (10 ^ 18))%float
  end.

End Viem.

(* ===================================================================== *)
(** ** BSCTokenBuyer (utils/bscTokenBuyer.js) *)
(* ===================================================================== *)

Module BSCTokenBuyer.
Import Venue.

(** The ABIs written at the top of the source, with the functions in the
    order of the source. *)
Definition PANCAKE_ROUTER_ABI : list Viem.abiFunction :=
  [ {| Viem.abi_name := "swapExactETHForTokens"; Viem.abi_inputs := 5 |};
    {| Viem.abi_name := "getAmountsIn"; Viem.abi_inputs := 2 |} ].

Definition ERC20_ABI : list Viem.abiFunction :=
  [ {| Viem.abi_name := "name"; Viem.abi_inputs := 0 |};
    {| Viem.abi_name := "symbol"; Viem.abi_inputs := 0 |};
    {| Viem.abi_name := "decimals"; Viem.abi_inputs := 0 |};
    {| Viem.abi_name := "balanceOf"; Viem.abi_inputs := 1 |} ].

Definition FOUR_MEME_ABI : list Viem.abiFunction :=
  [ {| Viem.abi_name := "buyToken"; Viem.abi_inputs := 2 |};
    {| Viem.abi_name := "getTokenPrice"; Viem.abi_inputs := 1 |};
    {| Viem.abi_name := "getBuyQuote"; Viem.abi_inputs := 2 |};
    {| Viem.abi_name := "isTokenLive"; Viem.abi_inputs := 1 |} ].

(** Answers of the BSC node, and of [viem] where the sources do not
    decide them, to the calls of the buyer. *)
Record world := {
  (* publicClient.getBalance: the balance of the wallet in wei *)
  publicClient_getBalance : outcome Z;
  (* the three ERC-20 reads name / symbol / decimals of getTokenInfo *)
  readToken : string -> outcome (string * string * Z);
  (* Four.meme exchange reads *)
  isTokenLive : string -> outcome bool;
  getTokenPrice : string -> outcome Z;
  getBuyQuote : string -> outcome Z;
  (* PancakeSwap router read *)
  getAmountsIn : string -> outcome (list Z);
  (* parseEther(amountBNB.toString()) *)
  parseEther : float -> outcome Z;
  (* the message of the error encodeFunctionData throws *)
  encodingMessage : Viem.encodingError -> string;
  (* the rest of a buy once the ABI admits the call (the encoding of the
     argument values, estimateGas, sendTransaction and
     waitForTransactionReceipt): the transaction hash and whether the
     receipt status is 'success' *)
  sendFourMeme : string -> float -> outcome (string * bool);
  sendPancake : string -> float -> outcome (string * bool);
  (* ERC-20 balanceOf of the wallet after the buy *)
  balanceOf : string -> outcome Z
}.

(** [getBalance()]: [parseFloat(formatEther(balance))] *)
Definition getBalance (w : world) : outcome float :=
  match publicClient_getBalance w with
  | Returns wei => Returns (Viem.parseFloat_formatEther wei)
  | Throws message => Throws message
  end.

Record tokenInfo := { exists_ : bool; name : string; symbol : string; decimals : Z }.

Definition getTokenInfo (w : world) (tokenAddress : string) : tokenInfo :=
  match readToken w tokenAddress with
  | Returns (n, s, d) => {| exists_ := true; name := n; symbol := s; decimals := d |}
  | Throws _ => {| exists_ := false; name := ""; symbol := ""; decimals := 0 |}
  end.

(** [checkFourMeme(tokenAddress).isAvailable]: every error is caught and
    answered by [{ isAvailable: false }]. *)
Definition checkFourMeme (w : world) (tokenAddress : string) : bool :=
  match isTokenLive w tokenAddress with
  | Returns true =>
      match getTokenPrice w tokenAddress with
      | Returns _ =>
          match getBuyQuote w tokenAddress with
          | Returns _ => true
          | Throws _ => false
          end
      | Throws _ => false
      end
  | Returns false => false
  | Throws _ => false
  end.

(** [checkPancakeSwapLiquidity(tokenAddress).hasLiquidity]; formatting
    [amounts[1]] throws when the array has a single element. *)
Definition checkPancakeSwapLiquidity (w : world) (tokenAddress : string) : bool :=
  match getAmountsIn w tokenAddress with
  | Returns amounts =>
      if (0 <? length amounts)%nat
      then match amounts !! 1%nat with
           | Some _ => true
           | None => false
           end
      else false
  | Throws _ => false
  end.

(** The body shared by [buyOnFourMeme] and [buyOnPancakeSwap]: the token
    is looked up, the amount is turned into wei, the call of
    [functionName] with [args] arguments is encoded against the ABI, and
    the transaction is sent. *)
Definition buyOn (w : world) (abi : list Viem.abiFunction) (functionName : string)
           (args : nat) (send : string -> float -> outcome (string * bool))
           (platform : string) (tokenAddress : string) (amountBNB : float)
  : buyResult :=
  if negb (exists_ (getTokenInfo w tokenAddress))
  then Failed "Token contract not found or invalid"
  else
    match parseEther w amountBNB with
    | Throws message => Failed message
    | Returns _ =>
        match Viem.encodeFunctionData abi functionName args with
        | Some err => Failed (encodingMessage w err)
        | None =>
            match send tokenAddress amountBNB with
            | Returns (hash, true) =>
                match balanceOf w tokenAddress with
                | Returns tokenBalance =>
                    Bought hash platform amountBNB (Some (pretty tokenBalance)) None
                | Throws message => Failed message
                end
            | Returns (_, false) => Failed "Transaction failed"
            | Throws message => Failed message
            end
        end
    end.

(** [buyOnFourMeme] encodes [buyToken(tokenAddress, minTokensOut)]. *)
Definition buyOnFourMeme (w : world) :=
  buyOn w FOUR_MEME_ABI "buyToken" 2 (sendFourMeme w) "Four.meme".

(** [buyOnPancakeSwap] encodes [swapExactETHForTokens] with the four
    arguments [amountOutMin, path, to, deadline]. *)
Definition buyOnPancakeSwap (w : world) :=
  buyOn w PANCAKE_ROUTER_ABI "swapExactETHForTokens" 4 (sendPancake w) "PancakeSwap".

(** [tokenAddress.match(/^0x[a-fA-F0-9]{40}$/)] *)
Definition validFormat (tokenAddress : string) : bool :=
  Regex.matches false AddressDetector.bscExactRegex tokenAddress.

(** [buyToken(tokenAddress)]: the result and the calls made. *)
Definition buyToken (w : world) (tokenAddress : string) : buyResult * list event :=
  if negb (validFormat tokenAddress)
  then (Failed "Invalid address format", [])
  else
    match getBalance w with
    | Throws message => (Failed message, [EvGetBalance])
    | Returns balance =>
        let buyAmount := JS.Math_floor balance in
        if PrimFloat.ltb buyAmount 1
        then (Failed "Insufficient balance", [EvGetBalance])
        else if negb (exists_ (getTokenInfo w tokenAddress))
        then (Failed "Invalid token contract",
              [EvGetBalance; EvGetTokenInfo tokenAddress])
        else if checkFourMeme w tokenAddress
        then (buyOnFourMeme w tokenAddress buyAmount,
              [EvGetBalance; EvGetTokenInfo tokenAddress;
               EvProbe FourMeme tokenAddress;
               EvTrade FourMeme tokenAddress buyAmount])
        else if checkPancakeSwapLiquidity w tokenAddress
        then (buyOnPancakeSwap w tokenAddress buyAmount,
              [EvGetBalance; EvGetTokenInfo tokenAddress;
               EvProbe FourMeme tokenAddress;
               EvProbe PancakeSwap tokenAddress;
               EvTrade PancakeSwap tokenAddress buyAmount])
        else (Failed "Token not available on supported platforms",
              [EvGetBalance; EvGetTokenInfo tokenAddress;
               EvProbe FourMeme tokenAddress;
               EvProbe PancakeSwap tokenAddress])
    end.

(** The earlier revision of the buyer, which only knows PancakeSwap. *)
Module V1.

Definition buyToken (w : world) (tokenAddress : string) : buyResult * list event :=
  if negb (validFormat tokenAddress)
  then (Failed "Invalid address format", [])
  else
    match getBalance w with
    | Throws message => (Failed message, [EvGetBalance])
    | Returns balance =>
        let buyAmount := JS.Math_floor balance in
        if PrimFloat.ltb buyAmount 1
        then (Failed "Insufficient balance", [EvGetBalance])
        else if negb (exists_ (getTokenInfo w tokenAddress))
        then (Failed "Invalid token contract",
              [EvGetBalance; EvGetTokenInfo tokenAddress])
        else if negb (checkPancakeSwapLiquidity w tokenAddress)
        then (Failed "No liquidity on PancakeSwap",
              [EvGetBalance; EvGetTokenInfo tokenAddress;
               EvProbe PancakeSwap tokenAddress])
        else (buyOnPancakeSwap w tokenAddress buyAmount,
              [EvGetBalance; EvGetTokenInfo tokenAddress;
               EvProbe PancakeSwap tokenAddress;
               EvTrade PancakeSwap tokenAddress buyAmount])
    end.

End V1.

End BSCTokenBuyer.

(* ===================================================================== *)
(** ** SolanaTokenBuyer (utils/solanaTokenBuyer.js) *)
(* ===================================================================== *)

Module SolanaTokenBuyer.
Import Venue.

Inductive poolType := DLMM | DynamicAMM.

Record poolInfo := { pool_type : poolType; poolAddress : string }.

Record raydiumPair := { baseMint : string; quoteMint : string; ammId : string }.

(** Answers of the Solana node and of the venue APIs. *)
Record world := {
  (* getBalance(): lamports / LAMPORTS_PER_SOL *)
  getBalance : outcome float;
  (* new PublicKey(tokenAddress) *)
  publicKey : string -> outcome unit;
  (* fetch of the Pump.fun coin page: [Some name] when response.ok *)
  fetchPumpFun : string -> outcome (option string);
  (* Meteora SDK *)
  getAllLbPairPositionsByUser : outcome unit;
  findLbPair : string -> outcome (option string);
  dlmmCreate : string -> outcome unit;
  ammTargetPool : string -> outcome (option string);
  (* fetch of the Raydium pair list: [Some pairs] when response.ok *)
  fetchRaydiumPairs : outcome (option (list raydiumPair));
  (* building, sending and confirming the buy transaction: the signature
     (and, for Meteora, the quoted amount out) *)
  sendPumpFun : string -> float -> outcome string;
  sendMeteora : string -> float -> poolInfo -> outcome (string * string);
  sendRaydium : string -> float -> outcome string
}.

(** [checkPumpFun(tokenAddress).exists] *)
Definition checkPumpFun (w : world) (tokenAddress : string) : bool :=
  match fetchPumpFun w tokenAddress with
  | Returns (Some _) => true
  | Returns None => false
  | Throws _ => false
  end.

(** [checkMeteora(tokenAddress)]: [Some info] stands for
    [{ exists: true, poolType, data }], [None] for [{ exists: false }]. *)
Definition checkMeteora (w : world) (tokenAddress : string) : option poolInfo :=
  match getAllLbPairPositionsByUser w with
  | Throws _ => None
  | Returns _ =>
      match publicKey w tokenAddress with
      | Throws _ => None
      | Returns _ =>
          let dynamicAmm :=
            match ammTargetPool w tokenAddress with
            | Returns (Some a) => Some {| pool_type := DynamicAMM; poolAddress := a |}
            | Returns None => None
            | Throws _ => None
            end in
          match findLbPair w tokenAddress with
          | Returns (Some a) =>
              match dlmmCreate w a with
              | Returns _ => Some {| pool_type := DLMM; poolAddress := a |}
              | Throws _ => dynamicAmm
              end
          | Returns None => dynamicAmm
          | Throws _ => dynamicAmm
          end
      end
  end.

(** [checkRaydium(tokenAddress).exists] *)
Definition checkRaydium (w : world) (tokenAddress : string) : bool :=
  match fetchRaydiumPairs w with
  | Returns (Some data) =>
      match find (fun p => bool_decide (baseMint p = tokenAddress)
                           || bool_decide (quoteMint p = tokenAddress)) data with
      | Some _ => true
      | None => false
      end
  | Returns None => false
  | Throws _ => false
  end.

Definition buyOnPumpFun (w : world) (tokenAddress : string) (amountSOL : float)
  : buyResult :=
  match publicKey w tokenAddress with
  | Throws message => Failed message
  | Returns _ =>
      match sendPumpFun w tokenAddress amountSOL with
      | Returns signature => Bought signature "Pump.fun" amountSOL None None
      | Throws message => Failed message
      end
  end.

Definition buyOnRaydium (w : world) (tokenAddress : string) (amountSOL : float)
  : buyResult :=
  match publicKey w tokenAddress with
  | Throws message => Failed message
  | Returns _ =>
      match sendRaydium w tokenAddress amountSOL with
      | Returns signature => Bought signature "Raydium" amountSOL None None
      | Throws message => Failed message
      end
  end.

Definition buyOnMeteora (w : world) (tokenAddress : string) (amountSOL : float)
           (info : poolInfo) : buyResult :=
  match publicKey w tokenAddress with
  | Throws message => Failed message
  | Returns _ =>
      match sendMeteora w tokenAddress amountSOL info with
      | Returns (signature, outAmount) =>
          Bought signature
                 (match pool_type info with
                  | DLMM => "Meteora DLMM"
                  | DynamicAMM => "Meteora Dynamic AMM"
                  end)
                 amountSOL None (Some outAmount)
      | Throws message => Failed message
      end
  end.

(** [buyToken(tokenAddress)]: the result and the calls made. *)
Definition buyToken (w : world) (tokenAddress : string) : buyResult * list event :=
  match getBalance w with
  | Throws message => (Failed message, [EvGetBalance])
  | Returns balance =>
      let buyAmount := JS.Math_floor balance in
      if PrimFloat.ltb buyAmount 1
      then (Failed "Insufficient balance", [EvGetBalance])
      else if checkPumpFun w tokenAddress
      then (buyOnPumpFun w tokenAddress buyAmount,
            [EvGetBalance; EvProbe PumpFun tokenAddress;
             EvTrade PumpFun tokenAddress buyAmount])
      else
        match checkMeteora w tokenAddress with
        | Some meteoraCheck =>
            (buyOnMeteora w tokenAddress buyAmount meteoraCheck,
             [EvGetBalance; EvProbe PumpFun tokenAddress;
              EvProbe Meteora tokenAddress;
              EvTrade Meteora tokenAddress buyAmount])
        | None =>
            if checkRaydium w tokenAddress
            then (buyOnRaydium w tokenAddress buyAmount,
                  [EvGetBalance; EvProbe PumpFun tokenAddress;
                   EvProbe Meteora tokenAddress; EvProbe Raydium tokenAddress;
                   EvTrade Raydium tokenAddress buyAmount])
            else (Failed "Token not found on supported DEXs",
                  [EvGetBalance; EvProbe PumpFun tokenAddress;
                   EvProbe Meteora tokenAddress; EvProbe Raydium tokenAddress])
        end
  end.

End SolanaTokenBuyer.

(* ===================================================================== *)
(** ** TwitterMonitor (utils/twitterMonitor.js) *)
(* ===================================================================== *)

Module TwitterMonitor.
Import AddressDetector.

(** A tweet as the scraper yields it; [timeParsed] is a [Date] when set. *)
Record tweet := {
  id : string;
  username : option string;
  text : option string;
  timeParsed : option string
}.

Record config := {
  targetUsername : string;
  autoBuyEnabled : bool;
  webhookUrl : option string;
  solanaMnemonic : option string;
  bscMnemonic : option string
}.

(** Truthiness of a string that may be undefined: the empty string and
    [undefined] are falsy. *)
Definition truthy_str (x : option string) : bool :=
  match x with
  | Some s => negb (bool_decide (s = ""))
  | None => false
  end.

(** [x || d] *)
Definition or_else (x : option string) (d : string) : string :=
  if truthy_str x then default d x else d.

(** The alert record built by [processTweet]. *)
Record alert := {
  alert_id : string;
  alert_username : option string;
  alert_text : option string;
  alert_url : string;
  alert_timestamp : string;
  alert_analysis : analysis
}.

Inductive chain := Solana | BSC.

(** What the monitor does that can be observed from outside. *)
Inductive effect :=
| Analyze (tweet_id : string)            (* detector.analyzeTweet on the tweet *)
| Alert (a : alert)                      (* displayAlert *)
| AutoBuy (c : chain) (address : string) (* buyer.buyToken(address) *)
| Webhook (a : alert)                    (* sendWebhookNotification *)
| Delay (ms : nat).                      (* setTimeout pause *)

(** The fields of the monitor object, the effects so far (oldest first)
    and the number of times the clock has been read. *)
Record state := {
  processedTweets : gset string;
  isRunning : bool;
  intervalId : bool;
  log : list effect;
  clockReads : nat
}.

Definition initial : state :=
  {| processedTweets := ∅; isRunning := false; intervalId := false;
     log := []; clockReads := 0 |}.

Definition emit (es : list effect) (st : state) : state :=
  {| processedTweets := processedTweets st; isRunning := isRunning st;
     intervalId := intervalId st; log := log st ++ es;
     clockReads := clockReads st |}.

Definition add_processed (i : string) (st : state) : state :=
  {| processedTweets := {[ i ]} ∪ processedTweets st; isRunning := isRunning st;
     intervalId := intervalId st; log := log st; clockReads := clockReads st |}.

Definition tick_clock (st : state) : state :=
  {| processedTweets := processedTweets st; isRunning := isRunning st;
     intervalId := intervalId st; log := log st;
     clockReads := S (clockReads st) |}.

Definition set_running (run timer : bool) (st : state) : state :=
  {| processedTweets := processedTweets st; isRunning := run;
     intervalId := timer; log := log st; clockReads := clockReads st |}.

(** [this.solanaBuyer] and [this.bscBuyer] of a monitor whose constructor
    has returned: a buyer is there when auto-buy is enabled and its
    mnemonic is set.  (The constructor of a buyer may throw, and
    [new TwitterMonitor(config)] with it: there is no monitor then; see
    [Startup.newTwitterMonitor].) *)
Definition solanaBuyer (cfg : config) : bool :=
  autoBuyEnabled cfg && truthy_str (solanaMnemonic cfg).
Definition bscBuyer (cfg : config) : bool :=
  autoBuyEnabled cfg && truthy_str (bscMnemonic cfg).

(** [autoBuyTokens(result)]: one [buyToken] per address, the Solana
    addresses first; what the buyer answers is only printed. *)
Definition autoBuyTokens (cfg : config) (a : alert) : list effect :=
  (if (0 <? length (solanaAddresses (alert_analysis a)))%nat && solanaBuyer cfg
   then AutoBuy Solana <$> solanaAddresses (alert_analysis a) else [])
  ++
  (if (0 <? length (bscAddresses (alert_analysis a)))%nat && bscBuyer cfg
   then AutoBuy BSC <$> bscAddresses (alert_analysis a) else []).

Section WithClock.
(** [clock n] is the ISO string of the [n]-th reading of the clock. *)
Variable clock : nat -> string.
Variable cfg : config.

(** [now] reads the clock. *)
Definition now (st : state) : string * state := (clock (clockReads st), tick_clock st).

Definition processTweet (st : state) (tw : tweet) : option alert * state :=
  if bool_decide (id tw ∈ processedTweets st) then (None, st)
  else
    let st := add_processed (id tw) st in
    let '(t, st) := now st in
    let analysis := analyzeTweet t (or_else (text tw) "") in
    let st := emit [Analyze (id tw)] st in
    if hasCryptoContent analysis then
      let user := or_else (username tw) (targetUsername cfg) in
      let '(stamp, st) :=
        match timeParsed tw with
        | Some t' => (t', st)
        | None => now st
        end in
      let result :=
        {| alert_id := id tw;
           alert_username := Some user;
           alert_text := text tw;
           alert_url := "https://twitter.com/" +:+ user +:+ "/status/" +:+ id tw;
           alert_timestamp := stamp;
           alert_analysis := analysis |} in
      let st := emit [Alert result] st in
      let st := if autoBuyEnabled cfg then emit (autoBuyTokens cfg result) st else st in
      (Some result, st)
    else (None, st).

(** The body of the loop of [checkForNewTweets] for one tweet. *)
Definition visit (st : state) (tw : tweet) : state :=
  if negb (bool_decide (id tw ∈ processedTweets st)) then
    match processTweet st tw with
    | (Some result, st) =>
        let st := if truthy_str (webhookUrl cfg)
                  then emit [Webhook result] st else st in
        emit [Delay 1000] st
    | (None, st) => st
    end
  else st.

(** [checkForNewTweets()], given what [fetchLatestTweets()] returned
    (newest first; the empty list also when the fetch failed). *)
Definition checkForNewTweets (st : state) (tweets : list tweet) : state :=
  if (length tweets =? 0)%nat then st
  else foldl visit st (reverse tweets).

Definition startMonitoring (st : state) (tweets : list tweet) : state :=
  if isRunning st then st
  else
    let st := set_running true (intervalId st) st in
    let st := checkForNewTweets st tweets in
    set_running (isRunning st) true st.

(** One firing of the interval timer. *)
Definition onInterval (st : state) (tweets : list tweet) : state :=
  if intervalId st && isRunning st then checkForNewTweets st tweets else st.

Definition stopMonitoring (st : state) : state := set_running false false st.

(** The operations of a monitor during a process lifetime. *)
Inductive operation :=
| OpStart (fetched : list tweet)
| OpInterval (fetched : list tweet)
| OpCheck (fetched : list tweet)
| OpProcess (tw : tweet)
| OpStop.

Definition step (st : state) (o : operation) : state :=
  match o with
  | OpStart fetched => startMonitoring st fetched
  | OpInterval fetched => onInterval st fetched
  | OpCheck fetched => checkForNewTweets st fetched
  | OpProcess tw => (processTweet st tw).2
  | OpStop => stopMonitoring st
  end.

Definition run (st : state) (ops : list operation) : state := foldl step st ops.

(** The earlier revision of the monitor (agent-twitter-client): the alert
    carries the tweet's own user name, and [checkForNewTweets] walks the
    fetched tweets in the order of the feed, without pause. *)
Definition processTweet_v1 (st : state) (tw : tweet) : option alert * state :=
  if bool_decide (id tw ∈ processedTweets st) then (None, st)
  else
    let st := add_processed (id tw) st in
    let '(t, st) := now st in
    let analysis := analyzeTweet t (or_else (text tw) "") in
    let st := emit [Analyze (id tw)] st in
    if hasCryptoContent analysis then
      let '(stamp, st) :=
        match timeParsed tw with
        | Some t' => (t', st)
        | None => now st
        end in
      let result :=
        {| alert_id := id tw;
           alert_username := username tw;
           alert_text := text tw;
           alert_url := "https://twitter.com/" +:+ default "undefined" (username tw)
                          +:+ "/status/" +:+ id tw;
           alert_timestamp := stamp;
           alert_analysis := analysis |} in
      let st := emit [Alert result] st in
      let st := if autoBuyEnabled cfg then emit (autoBuyTokens cfg result) st else st in
      (Some result, st)
    else (None, st).

Definition visit_v1 (st : state) (tw : tweet) : state :=
  if negb (bool_decide (id tw ∈ processedTweets st)) then
    match processTweet_v1 st tw with
    | (Some result, st) =>
        if truthy_str (webhookUrl cfg) then emit [Webhook result] st else st
    | (None, st) => st
    end
  else st.

Definition checkForNewTweets_v1 (st : state) (tweets : list tweet) : state :=
  if (length tweets =? 0)%nat then st
  else foldl visit_v1 st tweets.

End WithClock.

(** The identifiers handed to the detector, in the order of the calls. *)
Definition analyzed (l : list effect) : list string :=
  omap (fun e => match e with Analyze i => Some i | _ => None end) l.

(** The identifiers of the alerts raised, in order. *)
Definition alerted (l : list effect) : list string :=
  omap (fun e => match e with Alert a => Some (alert_id a) | _ => None end) l.

End TwitterMonitor.

(* ===================================================================== *)
(** ** ProfitTracker (utils/profitTracker.js) *)
(* ===================================================================== *)

Module ProfitTracker.
Import Venue.

(** The values a field read off a buy result or off a JSON document can
    hold. *)
Inductive jsval :=
| JUndefined
| JNum (x : float)
| JStr (s : string).

Record purchase := {
  purchase_id : Z;
  chain : string;
  tokenAddress : string;
  platform : string;
  amount : float;
  tokensReceived : jsval;
  purchaseTime : string;
  currentValue : float;
  profitLoss : float;
  profitPercentage : float
}.

Section WithBuiltins.
(** The built-in [parseFloat] on strings. *)
Variable parseFloat : string -> float.

(** [parseFloat(v)]: a number is first written out as a string, which
    reads back as the same number (as +0 for -0, as NaN for NaN);
    [undefined] reads as NaN. *)
Definition parseFloat_val (v : jsval) : float :=
  match v with
  | JUndefined => nan
  | JNum x => if PrimFloat.eqb x 0 then 0%float else x
  | JStr s => parseFloat s
  end.

Definition truthy_val (v : jsval) : bool :=
  match v with
  | JUndefined => false
  | JNum x => JS.truthy x
  | JStr s => negb (bool_decide (s = ""))
  end.

(** [parseFloat(purchase.tokensReceived || 0)] *)
Definition quantityReceived (p : purchase) : float :=
  if truthy_val (tokensReceived p) then parseFloat_val (tokensReceived p)
  else 0%float.

(** The price sources: the Jupiter quote API answers the [n]-th query of
    a tick for a token with [Some outAmount] when the response is ok. *)
Record world := {
  jupiterQuote : nat -> string -> outcome (option jsval)
}.

Definition baseAmount : float := 100000000%float.

(** [getSolanaTokenPrice(tokenAddress)]: [None] stands for [null]. *)
Definition getSolanaTokenPrice (w : world) (n : nat) (tokenAddress : string)
  : option float :=
  match jupiterQuote w n tokenAddress with
  | Returns (Some outAmount) =>
      Some ((baseAmount / parseFloat_val outAmount) * (baseAmount / 100000000))%float
  | Returns None => None
  | Throws _ => None
  end.

(** [getBSCTokenPrice(tokenAddress)]: a fixed mock price. *)
Definition getBSCTokenPrice (tokenAddress : string) : option float :=
  Some 0.001%float.

(** The price looked up for the [n]-th position of the list. *)
Definition currentPrice (w : world) (n : nat) (p : purchase) : option float :=
  if bool_decide (chain p = "solana") then getSolanaTokenPrice w n (tokenAddress p)
  else if bool_decide (chain p = "bsc") then getBSCTokenPrice (tokenAddress p)
  else None.

(** The body of the loop of [updateProfitLoss] for one position. *)
Definition revalue (price : option float) (p : purchase) : purchase :=
  match price with
  | Some currentPrice =>
      if JS.truthy currentPrice then
        let value := (quantityReceived p * currentPrice)%float in
        {| purchase_id := purchase_id p; chain := chain p;
           tokenAddress := tokenAddress p; platform := platform p;
           amount := amount p; tokensReceived := tokensReceived p;
           purchaseTime := purchaseTime p;
           currentValue := value;
           profitLoss := (value - amount p)%float;
           profitPercentage := (((value - amount p) / amount p) * 100)%float |}
      else p
  | None => p
  end.

(** [updateProfitLoss()] on the list of purchased tokens. *)
Definition updateProfitLoss (w : world) (purchasedTokens : list purchase)
  : list purchase :=
  imap (fun n p => revalue (currentPrice w n p) p) purchasedTokens.

End WithBuiltins.

End ProfitTracker.

(** The earlier revision of the Solana buyer, which knows Pump.fun and
    Raydium only; the checks and the trade adapters are those of the
    current revision. *)
Module SolanaTokenBuyerV1.
Import Venue SolanaTokenBuyer.

Definition buyToken (w : world) (tokenAddress : string) : buyResult * list event :=
  match getBalance w with
  | Throws message => (Failed message, [EvGetBalance])
  | Returns balance =>
      let buyAmount := JS.Math_floor balance in
      if PrimFloat.ltb buyAmount 1
      then (Failed "Insufficient balance", [EvGetBalance])
      else if checkPumpFun w tokenAddress
      then (buyOnPumpFun w tokenAddress buyAmount,
            [EvGetBalance; EvProbe PumpFun tokenAddress;
             EvTrade PumpFun tokenAddress buyAmount])
      else if checkRaydium w tokenAddress
      then (buyOnRaydium w tokenAddress buyAmount,
            [EvGetBalance; EvProbe PumpFun tokenAddress;
             EvProbe Raydium tokenAddress;
             EvTrade Raydium tokenAddress buyAmount])
      else (Failed "Token not found on supported DEXs",
            [EvGetBalance; EvProbe PumpFun tokenAddress;
             EvProbe Raydium tokenAddress])
  end.

End SolanaTokenBuyerV1.


(* ===================================================================== *)
(** ** TwitterMonitor: signing in and fetching the tweets *)
(* ===================================================================== *)

Module TwitterFeed.
Import Venue TwitterMonitor.

(** What the async iterator of [scraper.getTweets] does when it is
    drained: it yields tweets, newest first, and then ends or throws. *)
Record feed := { yielded : list tweet; failure : option string }.

(** Answers of the scraper to [login] and [getProfile]. *)
Record twitter := {
  login : outcome unit;
  getProfile : outcome (option string)     (* the profile's name, or a falsy value *)
}.

(** [initialize()] *)
Definition initialize (t : twitter) : bool :=
  match login t with
  | Throws _ => false
  | Returns _ =>
      match getProfile t with
      | Returns (Some _) => true
      | Returns None => false              (* throw new Error(...), caught *)
      | Throws _ => false
      end
  end.

(** The [for await] loop of [fetchLatestTweets]: every tweet is pushed,
    and the loop is left once [limit] tweets are there. *)
Fixpoint collect (limit : nat) (tweets : list tweet) (rest : list tweet)
         (failure : option string) : outcome (list tweet) :=
  match rest with
  | [] =>
      match failure with
      | Some message => Throws message
      | None => Returns tweets
      end
  | tw :: rest' =>
      let tweets := tweets ++ [tw] in
      if (limit <=? length tweets)%nat then Returns tweets
      else collect limit tweets rest' failure
  end.

(** [hay.includes(needle)] *)
Fixpoint includes (needle hay : string) : bool :=
  String.prefix needle hay
  || match hay with
     | EmptyString => false
     | String _ hay' => includes needle hay'
     end.

(** [fetchLatestTweets()] with the limit of the revision: the tweets
    returned and, when the error message asks for it, the outcome of the
    attempt to sign in again. *)
Definition fetch (limit : nat) (t : twitter) (f : feed) : list tweet * option bool :=
  match collect limit [] (yielded f) (failure f) with
  | Returns tweets => (tweets, None)
  | Throws message =>
      ([], if includes "401" message || includes "403" message
           then Some (initialize t) else None)
  end.

Definition fetchLatestTweets := fetch 10.

(** The revision with the profit tracker asks for 5 tweets. *)
Module V3.
Definition fetchLatestTweets := fetch 5.
End V3.

(** One round of the scheduler: [checkForNewTweets()] on what the fetch
    returns. *)
Definition poll (clock : nat -> string) (cfg : config) (t : twitter) (st : state) (f : feed)
  : state :=
  checkForNewTweets clock cfg st (fetchLatestTweets t f).1.

End TwitterFeed.

(* ===================================================================== *)
(** ** Configuration (config.js) *)
(* ===================================================================== *)

(** [config.js] builds the [config] object from [process.env] when the
    module is loaded and exports [validateConfig].  The fields followed
    here are those that [validateConfig] and the monitor read, in the
    revision that derives the wallets from mnemonics. *)
Module Config.
Import Venue.

(** [process.env]: a variable is unset or holds a string. *)
Definition env := string -> option string.

(** [x || d] where [d] may be [null]. *)
Definition or_null (x : option string) : option string :=
  if TwitterMonitor.truthy_str x then x else None.

Section WithBuiltins.
(** The built-ins [parseInt] and [parseFloat] on strings. *)
Variable parseInt : string -> float.
Variable parseFloat : string -> float.

(** [parse(process.env.X) || d]: an unset variable parses to NaN. *)
Definition number_or (parse : string -> float) (x : option string) (d : float) : float :=
  match x with
  | Some s => if JS.truthy (parse s) then parse s else d
  | None => d
  end.

Record config := {
  twitterUsername : option string;
  twitterPassword : option string;
  twitterEmail : option string;
  targetUsername : string;
  checkInterval : float;
  webhookUrl : option string;
  solanaMnemonic : option string;
  bscMnemonic : option string;
  solanaDerivationPath : string;
  bscDerivationPath : string;
  solanaRpcUrl : string;
  bscRpcUrl : string;
  autoBuyEnabled : bool;
  maxBuyAmountSol : float;
  maxBuyAmountBnb : float
}.

Definition load (e : env) : config :=
  {| twitterUsername := e "TWITTER_USERNAME";
     twitterPassword := e "TWITTER_PASSWORD";
     twitterEmail := e "TWITTER_EMAIL";
     targetUsername := TwitterMonitor.or_else (e "TARGET_USERNAME") "elonmusk";
     checkInterval := number_or parseInt (e "CHECK_INTERVAL") 30000;
     webhookUrl := or_null (e "WEBHOOK_URL");
     solanaMnemonic := e "SOLANA_MNEMONIC";
     bscMnemonic := e "BSC_MNEMONIC";
     solanaDerivationPath :=
       TwitterMonitor.or_else (e "SOLANA_DERIVATION_PATH") "m/44'/501'/0'/0'";
     bscDerivationPath :=
       TwitterMonitor.or_else (e "BSC_DERIVATION_PATH") "m/44'/60'/0'/0/0";
     solanaRpcUrl :=
       TwitterMonitor.or_else (e "SOLANA_RPC_URL") "https://api.mainnet-beta.solana.com";
     bscRpcUrl :=
       TwitterMonitor.or_else (e "BSC_RPC_URL") "https://bsc-dataseed.binance.org/";
     autoBuyEnabled := bool_decide (e "AUTO_BUY_ENABLED" = Some "true");
     maxBuyAmountSol := number_or parseFloat (e "MAX_BUY_AMOUNT_SOL") 10;
     maxBuyAmountBnb := number_or parseFloat (e "MAX_BUY_AMOUNT_BNB") 5 |}.

(** The [errors] array of [validateConfig]. *)
Definition errors (c : config) : list string :=
  (if negb (TwitterMonitor.truthy_str (twitterUsername c))
   then ["TWITTER_USERNAME is required"] else [])
  ++ (if negb (TwitterMonitor.truthy_str (twitterPassword c))
      then ["TWITTER_PASSWORD is required"] else [])
  ++ (if negb (TwitterMonitor.truthy_str (Some (targetUsername c)))
      then ["TARGET_USERNAME is required"] else [])
  ++ (if autoBuyEnabled c then
        (if negb (TwitterMonitor.truthy_str (solanaMnemonic c))
         then ["SOLANA_MNEMONIC is required when auto-buy is enabled"] else [])
        ++ (if negb (TwitterMonitor.truthy_str (bscMnemonic c))
            then ["BSC_MNEMONIC is required when auto-buy is enabled"] else [])
      else []).

Definition validateConfig (c : config) : bool :=
  if (0 <? length (errors c))%nat then false else true.

(** What the monitor's constructor and methods read of the configuration. *)
Definition monitor_config (c : config) : TwitterMonitor.config :=
  {| TwitterMonitor.targetUsername := targetUsername c;
     TwitterMonitor.autoBuyEnabled := autoBuyEnabled c;
     TwitterMonitor.webhookUrl := webhookUrl c;
     TwitterMonitor.solanaMnemonic := solanaMnemonic c;
     TwitterMonitor.bscMnemonic := bscMnemonic c |}.

End WithBuiltins.

End Config.

(* ===================================================================== *)
(** ** Building the monitor (the constructor of [TwitterMonitor]) *)
(* ===================================================================== *)

Module Startup.
Import Venue.

(** Answers of the wallet libraries to the constructors of the buyers,
    called with the mnemonic, the derivation path and the RPC URL: the
    constructor returns, or it throws (a mnemonic or a path the library
    refuses, a URL that is none). *)
Record wallets := {
  newSolanaTokenBuyer : string -> string -> string -> outcome unit;
  newBSCTokenBuyer : string -> string -> string -> outcome unit
}.

(** [new TwitterMonitor(config)]: what the methods of the monitor read of
    the configuration and the fields the constructor sets, unless the
    constructor of a buyer throws. *)
Definition newTwitterMonitor (W : wallets) (c : Config.config)
  : outcome (TwitterMonitor.config * TwitterMonitor.state) :=
  let built := Returns (Config.monitor_config c, TwitterMonitor.initial) in
  if Config.autoBuyEnabled c then
    match (if TwitterMonitor.truthy_str (Config.solanaMnemonic c)
           then newSolanaTokenBuyer W (default "" (Config.solanaMnemonic c))
                  (Config.solanaDerivationPath c) (Config.solanaRpcUrl c)
           else Returns ()) with
    | Throws message => Throws message
    | Returns _ =>
        match (if TwitterMonitor.truthy_str (Config.bscMnemonic c)
               then newBSCTokenBuyer W (default "" (Config.bscMnemonic c))
                      (Config.bscDerivationPath c) (Config.bscRpcUrl c)
               else Returns ()) with
        | Throws message => Throws message
        | Returns _ => built
        end
    end
  else built.

End Startup.


(* ===================================================================== *)
(** ** Selling (solanaTokenBuyer.js, bscTokenBuyer.js) *)
(* ===================================================================== *)

Module Selling.
Import Venue.

(** The object returned by the [sell...] methods:
    [{ success: true, signature | hash, platform, solReceived | bnbReceived }]
    or [{ success: false, error }]. *)
Inductive sellResult :=
| Sold (ref : string) (platform : string) (received : float)
| NotSold (error : string).

Definition sold (r : sellResult) : bool :=
  match r with
  | Sold _ _ _ => true
  | NotSold _ => false
  end.

(** [sellResult.received || 0] of a successful sale. *)
Definition received_or_0 (r : sellResult) : float :=
  match r with
  | Sold _ _ x => if JS.truthy x then x else 0%float
  | NotSold _ => 0%float
  end.

(** What a sale does on the chain and the pauses between sales. *)
Inductive event :=
| Approved (spender : string) (token : string) (amount : string)
| Sent (platform : string) (token : string) (amount : string)
| Paused (ms : nat).

(** The object returned by [sellAllTokensTo...]:
    [{ success: true, total...Received, sellResults }] or
    [{ success: false, error }]. *)
Inductive sellAllResult :=
| AllDone (totalReceived : float) (sellResults : list sellResult)
| AllFailed (error : string).

End Selling.

Module SolanaSeller.
Import Venue Selling.

Definition SOL_MINT : string := "So11111111111111111111111111111111111111112".
Definition LAMPORTS_PER_SOL : float := 1000000000%float.

(** An entry of [getParsedTokenAccountsByOwner(...).value]: the mint and
    [tokenAmount.amount]. *)
Record tokenAccount := { mint : string; amount : string }.

(** Answers of the Solana node and of the Meteora SDK. *)
Record world := {
  getParsedTokenAccountsByOwner : outcome (list tokenAccount);
  (* new PublicKey(tokenMint) *)
  publicKey : string -> outcome unit;
  (* DLMM.findLbPair(connection, tokenMint, SOL) *)
  findLbPair : string -> outcome (option string);
  (* DLMM.create, swapQuote and swap on the pool: the quoted outAmount *)
  dlmmSwap : string -> string -> string -> outcome string;
  (* AmmImpl.getPoolList and the search for the token/SOL pool *)
  ammTargetPool : string -> outcome (option string);
  (* AmmImpl.create, getSwapQuote and swap: the quoted outAmount *)
  ammSwap : string -> string -> string -> outcome string;
  (* connection.sendTransaction of the swap on the platform *)
  sendTransaction : string -> string -> outcome string;
  (* connection.confirmTransaction(signature) *)
  confirmTransaction : string -> outcome unit
}.

Section WithBuiltins.
Variable parseFloat : string -> float.

(** [parseFloat(swapQuote.outAmount.toString()) / LAMPORTS_PER_SOL] *)
Definition solReceived (outAmount : string) : float :=
  (parseFloat outAmount / LAMPORTS_PER_SOL)%float.

(** The Dynamic AMM part of [sellOnMeteora]; [done] holds what was sent
    before. *)
Definition sellOnDynamicAmm (w : world) (tokenMint tokenAmount : string)
           (done : list event) : sellResult * list event :=
  match ammTargetPool w tokenMint with
  | Throws message => (NotSold message, done)
  | Returns None => (NotSold "No Meteora pools found", done)
  | Returns (Some pool) =>
      match ammSwap w pool tokenMint tokenAmount with
      | Throws message => (NotSold message, done)
      | Returns outAmount =>
          match sendTransaction w "Meteora Dynamic AMM" tokenMint with
          | Throws message => (NotSold message, done)
          | Returns signature =>
              let done := done ++ [Sent "Meteora Dynamic AMM" tokenMint tokenAmount] in
              match confirmTransaction w signature with
              | Throws message => (NotSold message, done)
              | Returns _ =>
                  (Sold signature "Meteora Dynamic AMM" (solReceived outAmount), done)
              end
          end
      end
  end.

(** [sellOnMeteora(tokenMint, tokenAmount)]: an error in the DLMM part is
    swallowed by the inner [catch] and the Dynamic AMM part follows. *)
Definition sellOnMeteora (w : world) (tokenMint tokenAmount : string)
  : sellResult * list event :=
  match publicKey w tokenMint with
  | Throws message => (NotSold message, [])
  | Returns _ =>
      match findLbPair w tokenMint with
      | Returns (Some pool) =>
          match dlmmSwap w pool tokenMint tokenAmount with
          | Throws _ => sellOnDynamicAmm w tokenMint tokenAmount []
          | Returns outAmount =>
              match sendTransaction w "Meteora DLMM" tokenMint with
              | Throws _ => sellOnDynamicAmm w tokenMint tokenAmount []
              | Returns signature =>
                  let done := [Sent "Meteora DLMM" tokenMint tokenAmount] in
                  match confirmTransaction w signature with
                  | Throws _ => sellOnDynamicAmm w tokenMint tokenAmount done
                  | Returns _ =>
                      (Sold signature "Meteora DLMM" (solReceived outAmount), done)
                  end
              end
          end
      | Returns None => sellOnDynamicAmm w tokenMint tokenAmount []
      | Throws _ => sellOnDynamicAmm w tokenMint tokenAmount []
      end
  end.

Definition sellOnRaydium (tokenMint tokenAmount : string) : sellResult :=
  NotSold "Raydium sell not implemented yet".

Definition sellOnPumpFun (tokenMint tokenAmount : string) : sellResult :=
  NotSold "Pump.fun sell not implemented yet".

(** [sellSingleToken(tokenMint, tokenAmount)] *)
Definition sellSingleToken (w : world) (tokenMint tokenAmount : string)
  : sellResult * list event :=
  match publicKey w tokenMint with
  | Throws message => (NotSold message, [])
  | Returns _ =>
      let '(meteoraResult, done) := sellOnMeteora w tokenMint tokenAmount in
      if sold meteoraResult then (meteoraResult, done)
      else
        let raydiumResult := sellOnRaydium tokenMint tokenAmount in
        if sold raydiumResult then (raydiumResult, done)
        else
          let pumpFunResult := sellOnPumpFun tokenMint tokenAmount in
          if sold pumpFunResult then (pumpFunResult, done)
          else (NotSold "No compatible DEX found for selling", done)
  end.

(** The body of the loop of [sellAllTokensToSOL] for one token account,
    on the results, the total and the events so far. *)
Definition sellAccount (w : world) (acc : list sellResult * float * list event)
           (accountInfo : tokenAccount) : list sellResult * float * list event :=
  let '(sellResults, totalSOLReceived, done) := acc in
  if bool_decide (mint accountInfo = SOL_MINT) then acc
  else if PrimFloat.eqb (parseFloat (amount accountInfo)) 0 then acc
  else
    let '(sellResult, sent) := sellSingleToken w (mint accountInfo) (amount accountInfo) in
    (sellResults ++ [sellResult],
     if sold sellResult then (totalSOLReceived + received_or_0 sellResult)%float
     else totalSOLReceived,
     done ++ sent ++ [Paused 2000]).

(** [sellAllTokensToSOL()] *)
Definition sellAllTokensToSOL (w : world) : sellAllResult * list event :=
  match getParsedTokenAccountsByOwner w with
  | Throws message => (AllFailed message, [])
  | Returns tokenAccounts =>
      let '(sellResults, totalSOLReceived, done) :=
        foldl (sellAccount w) ([], 0%float, []) tokenAccounts in
      (AllDone totalSOLReceived sellResults, done)
  end.

End WithBuiltins.

End SolanaSeller.

Module BSCSeller.
Import Venue Selling.

Definition PANCAKE_ROUTER : string := "0x10ED43C718714eb63d5aA57B78B54704E256024E".
Definition FOUR_MEME_EXCHANGE : string := "0x5c952063c7fc8610FFDB798152D69F0B9550762b".

(** Answers of the BSC node, and of the built-ins and [viem] where the
    sources do not decide them, to the calls of the sell methods. *)
Record world := {
  (* ERC-20 balanceOf of the wallet *)
  balanceOf : string -> outcome Z;
  (* BigInt(tokenAmount) *)
  toBigInt : string -> outcome Z;
  (* the message of the error encodeFunctionData throws *)
  encodingMessage : Viem.encodingError -> string;
  (* the rest of the approval of the amount for the spender once the ABI
     admits the call (the encoding of the argument values and
     sendTransaction): the hash of the transaction *)
  sendApproval : string -> string -> string -> outcome string;
  (* waitForTransactionReceipt of the approval *)
  waitForApproval : string -> outcome unit;
  (* the encoding of the argument values of the sale and estimateGas on
     the exchange *)
  estimateSale : string -> string -> string -> outcome unit;
  (* sendTransaction of the sale: the hash *)
  sendSale : string -> string -> string -> outcome string;
  (* waitForTransactionReceipt: whether the receipt status is 'success' *)
  waitForSale : string -> outcome bool
}.

(** The body shared by [sellOnFourMeme] and [sellOnPancakeSwap]: the
    approval [approve(exchange, BigInt(tokenAmount))] is encoded against
    [ERC20_ABI] and sent, then the call of [functionName] with [args]
    arguments is encoded against the ABI of the exchange and sent; the
    amount received is a fixed value in both. *)
Definition sellOn (w : world) (exchange platform : string)
           (abi : list Viem.abiFunction) (functionName : string) (args : nat)
           (tokenAddress tokenAmount : string) : sellResult * list event :=
  match toBigInt w tokenAmount with
  | Throws message => (NotSold message, [])
  | Returns _ =>
  match Viem.encodeFunctionData BSCTokenBuyer.ERC20_ABI "approve" 2 with
  | Some err => (NotSold (encodingMessage w err), [])
  | None =>
  match sendApproval w exchange tokenAddress tokenAmount with
  | Throws message => (NotSold message, [])
  | Returns approveTx =>
      let done := [Approved exchange tokenAddress tokenAmount] in
      match waitForApproval w approveTx with
      | Throws message => (NotSold message, done)
      | Returns _ =>
          match Viem.encodeFunctionData abi functionName args with
          | Some err => (NotSold (encodingMessage w err), done)
          | None =>
          match estimateSale w exchange tokenAddress tokenAmount with
          | Throws message => (NotSold message, done)
          | Returns _ =>
              match sendSale w exchange tokenAddress tokenAmount with
              | Throws message => (NotSold message, done)
              | Returns hash =>
                  let done := done ++ [Sent platform tokenAddress tokenAmount] in
                  match waitForSale w hash with
                  | Throws message => (NotSold message, done)
                  | Returns true => (Sold hash platform 0.001%float, done)
                  | Returns false => (NotSold "Transaction failed", done)
                  end
              end
          end
          end
      end
  end
  end
  end.

(** [sellOnFourMeme] encodes [sellToken(tokenAddress, amount, minBNBOut)]. *)
Definition sellOnFourMeme (w : world) :=
  sellOn w FOUR_MEME_EXCHANGE "Four.meme" BSCTokenBuyer.FOUR_MEME_ABI "sellToken" 3.

(** [sellOnPancakeSwap] encodes [swapExactTokensForETH] with the five
    arguments [amount, amountOutMin, path, to, deadline]. *)
Definition sellOnPancakeSwap (w : world) :=
  sellOn w PANCAKE_ROUTER "PancakeSwap" BSCTokenBuyer.PANCAKE_ROUTER_ABI
         "swapExactTokensForETH" 5.

(** [sellSingleToken(tokenAddress, tokenAmount)] *)
Definition sellSingleToken (w : world) (tokenAddress tokenAmount : string)
  : sellResult * list event :=
  let '(fourMemeResult, done1) := sellOnFourMeme w tokenAddress tokenAmount in
  if sold fourMemeResult then (fourMemeResult, done1)
  else
    let '(pancakeResult, done2) := sellOnPancakeSwap w tokenAddress tokenAmount in
    if sold pancakeResult then (pancakeResult, done1 ++ done2)
    else (NotSold "No compatible DEX found for selling", done1 ++ done2).

(** [getKnownTokens()]: the list written in the source is empty. *)
Definition getKnownTokens : list string := [].

(** The body of the loop of [sellAllTokensToBNB] for one token; an error
    while the token is processed is caught and the loop goes on.  (The
    token's name and symbol are read in between and only printed.) *)
Definition sellToken (w : world) (acc : list sellResult * float * list event)
           (tokenAddress : string) : list sellResult * float * list event :=
  let '(sellResults, totalBNBReceived, done) := acc in
  match balanceOf w tokenAddress with
  | Throws _ => acc
  | Returns balance =>
      if (balance =? 0)%Z then acc
      else
        let '(sellResult, sent) := sellSingleToken w tokenAddress (pretty balance) in
        (sellResults ++ [sellResult],
         if sold sellResult then (totalBNBReceived + received_or_0 sellResult)%float
         else totalBNBReceived,
         done ++ sent ++ [Paused 2000])
  end.

Definition sellTokens (w : world) (knownTokens : list string)
  : sellAllResult * list event :=
  let '(sellResults, totalBNBReceived, done) :=
    foldl (sellToken w) ([], 0%float, []) knownTokens in
  (AllDone totalBNBReceived sellResults, done).

(** [sellAllTokensToBNB()] *)
Definition sellAllTokensToBNB (w : world) : sellAllResult * list event :=
  sellTokens w getKnownTokens.

End BSCSeller.

(* ===================================================================== *)
(** ** ProfitTracker: the list of positions and its timer *)
(* ===================================================================== *)

Module Tracker.
Import ProfitTracker.

(** The fields of the tracker object; [trackingInterval] tells whether a
    timer is set. *)
Record tracker := {
  purchasedTokens : list purchase;
  isTracking : bool;
  trackingInterval : bool
}.

(** [new ProfitTracker()] *)
Definition constructor : tracker :=
  {| purchasedTokens := []; isTracking := false; trackingInterval := false |}.

Definition startTracking (t : tracker) : tracker :=
  if isTracking t then t
  else {| purchasedTokens := purchasedTokens t; isTracking := true;
          trackingInterval := true |}.

(** The argument of [addPurchase].  (The signature or hash handed over
    with it is stored in the position and never read again.) *)
Record tokenInfo := {
  info_chain : string;
  info_tokenAddress : string;
  info_platform : string;
  info_amount : float;
  info_tokensReceived : jsval
}.

(** [addPurchase(tokenInfo)] at the time [Date.now() = nowMs],
    [new Date() = now]. *)
Definition addPurchase (nowMs : Z) (now : string) (info : tokenInfo) (t : tracker)
  : purchase * tracker :=
  let purchase :=
    {| purchase_id := nowMs;
       chain := info_chain info;
       tokenAddress := info_tokenAddress info;
       platform := info_platform info;
       amount := info_amount info;
       tokensReceived := info_tokensReceived info;
       purchaseTime := now;
       currentValue := 0;
       profitLoss := 0;
       profitPercentage := 0 |} in
  let t := {| purchasedTokens := purchasedTokens t ++ [purchase];
              isTracking := isTracking t;
              trackingInterval := trackingInterval t |} in
  (purchase, if negb (isTracking t) then startTracking t else t).

End Tracker.

(* ===================================================================== *)
(** ** TwitterMonitor with the profit tracker and the sell keys *)
(* ===================================================================== *)

(** The revision of the monitor that records every successful purchase in
    a [ProfitTracker] and sells on a key press. *)
Module TrackedMonitor.
Import Venue TwitterMonitor Selling.

(** [buyResult.quote?.outAmount || buyResult.tokenReceived]; the quoted
    amount is a big-number object, which is truthy whatever its value. *)
Definition solanaTokensReceived (r : buyResult) : ProfitTracker.jsval :=
  match r with
  | Bought _ _ _ tokenReceived quote =>
      match quote, tokenReceived with
      | Some outAmount, _ => ProfitTracker.JStr outAmount
      | None, Some received => ProfitTracker.JStr received
      | None, None => ProfitTracker.JUndefined
      end
  | Failed _ => ProfitTracker.JUndefined
  end.

(** [buyResult.tokenReceived] *)
Definition bscTokensReceived (r : buyResult) : ProfitTracker.jsval :=
  match r with
  | Bought _ _ _ (Some received) _ => ProfitTracker.JStr received
  | _ => ProfitTracker.JUndefined
  end.

(** The part of the monitor that trades: the tracker and the answers of
    the purchases attempted so far, oldest first. *)
Record trading := {
  profitTracker : Tracker.tracker;
  attempts : list (chain * string * buyResult)
}.

Definition opened : trading :=
  {| profitTracker := Tracker.constructor; attempts := [] |}.

Section WithWorlds.
(** The chains as they answer at the [n]-th purchase attempt, and the
    clock at that moment ([Date.now()] and [new Date()]). *)
Variable solana : nat -> SolanaTokenBuyer.world.
Variable bsc : nat -> BSCTokenBuyer.world.
Variable stamp : nat -> Z * string.
Variable cfg : config.

(** The body of the loops of [autoBuyTokens] for one address. *)
Definition autoBuy (c : chain) (st : trading) (address : string) : trading :=
  let n := length (attempts st) in
  let buyResult :=
    match c with
    | Solana => (SolanaTokenBuyer.buyToken (solana n) address).1
    | BSC => (BSCTokenBuyer.buyToken (bsc n) address).1
    end in
  let tracker :=
    match buyResult with
    | Bought _ platform amount _ _ =>
        (Tracker.addPurchase (stamp n).1 (stamp n).2
           {| Tracker.info_chain := match c with Solana => "solana" | BSC => "bsc" end;
              Tracker.info_tokenAddress := address;
              Tracker.info_platform := platform;
              Tracker.info_amount := amount;
              Tracker.info_tokensReceived :=
                match c with
                | Solana => solanaTokensReceived buyResult
                | BSC => bscTokensReceived buyResult
                end |}
           (profitTracker st)).2
    | Failed _ => profitTracker st
    end in
  {| profitTracker := tracker; attempts := attempts st ++ [(c, address, buyResult)] |}.

(** [autoBuyTokens(result)] *)
Definition autoBuyTokens (st : trading) (a : alert) : trading :=
  let solanaAddresses := AddressDetector.solanaAddresses (alert_analysis a) in
  let bscAddresses := AddressDetector.bscAddresses (alert_analysis a) in
  let st :=
    if (0 <? length solanaAddresses)%nat && solanaBuyer cfg
    then foldl (autoBuy Solana) st solanaAddresses else st in
  if (0 <? length bscAddresses)%nat && bscBuyer cfg
  then foldl (autoBuy BSC) st bscAddresses else st.

(** [sellAllSolanaTokens()]: the tracker afterwards and what the sale did. *)
Definition sellAllSolanaTokens (parseFloat : string -> float) (w : SolanaSeller.world)
           (t : Tracker.tracker) : Tracker.tracker * list event :=
  match SolanaSeller.sellAllTokensToSOL parseFloat w with
  | (AllDone _ _, done) =>
      ({| Tracker.purchasedTokens :=
            filter (fun token => ProfitTracker.chain token <> "solana")
                   (Tracker.purchasedTokens t);
          Tracker.isTracking := Tracker.isTracking t;
          Tracker.trackingInterval := Tracker.trackingInterval t |}, done)
  | (AllFailed _, done) => (t, done)
  end.

(** [sellAllBSCTokens()] *)
Definition sellAllBSCTokens (w : BSCSeller.world) (t : Tracker.tracker)
  : Tracker.tracker * list event :=
  match BSCSeller.sellAllTokensToBNB w with
  | (AllDone _ _, done) =>
      ({| Tracker.purchasedTokens :=
            filter (fun token => ProfitTracker.chain token <> "bsc")
                   (Tracker.purchasedTokens t);
          Tracker.isTracking := Tracker.isTracking t;
          Tracker.trackingInterval := Tracker.trackingInterval t |}, done)
  | (AllFailed _, done) => (t, done)
  end.

End WithWorlds.

End TrackedMonitor.

(* ===================================================================== *)
(** ** Vocabulary of the statements *)
(* ===================================================================== *)

(** The character before the position reached after reading [l]. *)
Definition last_char (prev : option ascii) (l : list ascii) : option ascii :=
  match last l with
  | Some c => Some c
  | None => prev
  end.

(** The characters of a string. *)
Abbreviation chars := list_ascii_of_string.

(** A token of the chain-A shape: 32 to 44 characters of the base-58 class. *)
Definition pattern_shaped (a : string) : Prop :=
  32 <= length (chars a) <= 44 /\
  Forall (fun c => Regex.in_class AddressDetector.base58_class c = true) (chars a).

(** [a] occurs in [text] as a run of consecutive characters. *)
Definition substring_of (a text : string) : Prop :=
  exists pre post, chars text = pre ++ chars a ++ post.

(** The chain-B shape: [0x] followed by exactly 40 hexadecimal digits. *)
Definition is_0x_40_hex (a : string) : Prop :=
  exists h, chars a = "0"%char :: "x"%char :: h /\ length h = 40 /\
            Forall (fun c => Regex.in_class AddressDetector.hex_class c = true) h.

(** The detector with every [lastIndex] back at 0. *)
Definition rewound (d : DetectorObject.detector) : DetectorObject.detector :=
  {| DetectorObject.solanaRegexObj :=
       DetectorObject.set_lastIndex 0 (DetectorObject.solanaRegexObj d);
     DetectorObject.bscRegexObj :=
       DetectorObject.set_lastIndex 0 (DetectorObject.bscRegexObj d);
     DetectorObject.keywordPatternObjs :=
       DetectorObject.set_lastIndex 0 <$> DetectorObject.keywordPatternObjs d |}.

(** A detector at some point of its life: the patterns and flags are those
    the constructor set, whatever the values of [lastIndex]. *)
Definition built (d : DetectorObject.detector) : Prop :=
  rewound d = DetectorObject.constructor.

(** A detector whose patterns were left in the middle of a text. *)
Definition used_detector : DetectorObject.detector :=
  {| DetectorObject.solanaRegexObj :=
       DetectorObject.set_lastIndex 7
         (DetectorObject.solanaRegexObj DetectorObject.constructor);
     DetectorObject.bscRegexObj :=
       DetectorObject.set_lastIndex 99
         (DetectorObject.bscRegexObj DetectorObject.constructor);
     DetectorObject.keywordPatternObjs :=
       DetectorObject.set_lastIndex 3
         <$> DetectorObject.keywordPatternObjs DetectorObject.constructor |}.

(** Either router, with the answers of its chain. *)
Inductive router :=
| BscRouter (w : BSCTokenBuyer.world)
| SolanaRouter (w : SolanaTokenBuyer.world).

(** [buyToken] of the router's buyer. *)
Definition acquire (R : router) (a : string) : Venue.buyResult * list Venue.event :=
  match R with
  | BscRouter w => BSCTokenBuyer.buyToken w a
  | SolanaRouter w => SolanaTokenBuyer.buyToken w a
  end.



(** What the trade adapter of venue [v] answers when [buyToken] calls it
    ([None] for a venue the router does not trade on). *)
Definition attempt (R : router) (v : Venue.venue) (a : string) (amount : float)
  : option Venue.buyResult :=
  match R, v with
  | BscRouter w, Venue.FourMeme => Some (BSCTokenBuyer.buyOnFourMeme w a amount)
  | BscRouter w, Venue.PancakeSwap => Some (BSCTokenBuyer.buyOnPancakeSwap w a amount)
  | SolanaRouter w, Venue.PumpFun => Some (SolanaTokenBuyer.buyOnPumpFun w a amount)
  | SolanaRouter w, Venue.Meteora =>
      SolanaTokenBuyer.buyOnMeteora w a amount <$> SolanaTokenBuyer.checkMeteora w a
  | SolanaRouter w, Venue.Raydium => Some (SolanaTokenBuyer.buyOnRaydium w a amount)
  | _, _ => None
  end.



(** The chain-B call gets past the guards of [buyToken] that come before
    the venues: the address format, the whole-unit balance and the token
    contract lookup. *)
Definition reaches_routing (w : BSCTokenBuyer.world) (a : string) : bool :=
  BSCTokenBuyer.validFormat a
  && match BSCTokenBuyer.getBalance w with
     | Venue.Returns b => negb (PrimFloat.ltb (JS.Math_floor b) 1)
     | Venue.Throws _ => false
     end
  && BSCTokenBuyer.exists_ (BSCTokenBuyer.getTokenInfo w a).

(** The routing of a chain-B acquisition by venue priority: Four.meme is
    probed first and traded on when it reports the token available;
    otherwise PancakeSwap is probed and traded on when it reports liquidity;
    otherwise nothing is traded and the call fails as not available. *)
Definition routes_by_priority (w : BSCTokenBuyer.world) (a : string) : Prop :=
  let '(r, tr) := BSCTokenBuyer.buyToken w a in
  if BSCTokenBuyer.checkFourMeme w a then
    Venue.probed tr = [Venue.FourMeme] /\
    exists amount, Venue.traded tr = [(Venue.FourMeme, amount)] /\
                   r = BSCTokenBuyer.buyOnFourMeme w a amount
  else if BSCTokenBuyer.checkPancakeSwapLiquidity w a then
    Venue.probed tr = [Venue.FourMeme; Venue.PancakeSwap] /\
    exists amount, Venue.traded tr = [(Venue.PancakeSwap, amount)] /\
                   r = BSCTokenBuyer.buyOnPancakeSwap w a amount
  else
    Venue.probed tr = [Venue.FourMeme; Venue.PancakeSwap] /\
    Venue.traded tr = [] /\
    r = Venue.Failed "Token not available on supported platforms".

(** The whole number of wei in [balance] BNB. *)
Definition wei_of (balance : float) : Z :=
  match Prim2SF balance with
  | S754_finite false m e => Z.shiftl (Z.pos m * 10 ^ 18) e
  | _ => 0
  end.

(** A BSC node for the examples: the wallet holds [wei] wei, the token
    contract answers its three reads when [token] is set, Four.meme reports
    the token live when [live] is set, PancakeSwap quotes when [liquid] is
    set, and a buy transaction is mined with status [mined]. *)
Definition bsc_wallet (wei : Z) (token live liquid mined : bool)
  : BSCTokenBuyer.world :=
  {| BSCTokenBuyer.publicClient_getBalance := Venue.Returns wei;
     BSCTokenBuyer.readToken := fun _ =>
       if token then Venue.Returns ("Pepe", "PEPE", 18%Z)
       else Venue.Throws "execution reverted";
     BSCTokenBuyer.isTokenLive := fun _ => Venue.Returns live;
     BSCTokenBuyer.getTokenPrice := fun _ => Venue.Returns 1000%Z;
     BSCTokenBuyer.getBuyQuote := fun _ => Venue.Returns 5000%Z;
     BSCTokenBuyer.getAmountsIn := fun _ =>
       if liquid then Venue.Returns [100%Z; 200%Z]
       else Venue.Throws "INSUFFICIENT_LIQUIDITY";
     BSCTokenBuyer.parseEther := fun amount => Venue.Returns (wei_of amount);
     BSCTokenBuyer.encodingMessage := fun err =>
       match err with
       | Viem.AbiFunctionNotFound _ => "Function not found on ABI."
       | Viem.AbiEncodingLengthMismatch _ _ =>
           "ABI encoding params/values length mismatch."
       end;
     BSCTokenBuyer.sendFourMeme := fun _ _ => Venue.Returns ("0xabc", mined);
     BSCTokenBuyer.sendPancake := fun _ _ => Venue.Returns ("0xdef", mined);
     BSCTokenBuyer.balanceOf := fun _ => Venue.Returns 42%Z |}.

(** The same node with [balance] BNB in the wallet. *)
Definition bsc_node (balance : float) (token live liquid mined : bool)
  : BSCTokenBuyer.world :=
  bsc_wallet (wei_of balance) token live liquid mined.

(** A Solana node for the examples: the wallet holds [balance] SOL,
    Pump.fun knows the token when [pump] is set, the other venues do not,
    and sending a transaction fails. *)
Definition solana_node (balance : float) (pump : bool) : SolanaTokenBuyer.world :=
  {| SolanaTokenBuyer.getBalance := Venue.Returns balance;
     SolanaTokenBuyer.publicKey := fun _ => Venue.Returns ();
     SolanaTokenBuyer.fetchPumpFun := fun _ =>
       Venue.Returns (if pump then Some "Pepe" else None);
     SolanaTokenBuyer.getAllLbPairPositionsByUser := Venue.Returns ();
     SolanaTokenBuyer.findLbPair := fun _ => Venue.Returns None;
     SolanaTokenBuyer.dlmmCreate := fun _ => Venue.Returns ();
     SolanaTokenBuyer.ammTargetPool := fun _ => Venue.Returns None;
     SolanaTokenBuyer.fetchRaydiumPairs := Venue.Returns (Some []);
     SolanaTokenBuyer.sendPumpFun := fun _ _ => Venue.Throws "Transaction simulation failed";
     SolanaTokenBuyer.sendMeteora := fun _ _ _ => Venue.Throws "Transaction simulation failed";
     SolanaTokenBuyer.sendRaydium := fun _ _ => Venue.Throws "Transaction simulation failed" |}.

Definition token_0x : string := "0x742d35Cc6634C0532925a3b844Bc8e7E5313A7bE".

(** What the dedup ledger and the log say about the tweets seen so far:
    the processed identifiers, the identifiers classified and the
    identifiers alerted on, both in order. *)
Definition ledger_view (st : TwitterMonitor.state)
  : gset string * list string * list string :=
  (TwitterMonitor.processedTweets st,
   TwitterMonitor.analyzed (TwitterMonitor.log st),
   TwitterMonitor.alerted (TwitterMonitor.log st)).

(** Whether the classifier finds a signal in the tweet when it is called
    at the [n]-th reading of the clock. *)
Definition has_signal (clock : nat -> string) (n : nat) (tw : TwitterMonitor.tweet) : bool :=
  AddressDetector.hasCryptoContent
    (AddressDetector.analyzeTweet (clock n)
       (TwitterMonitor.or_else (TwitterMonitor.text tw) "")).

(** The ledger and the log agree: no identifier was classified or
    alerted on twice, the identifiers classified are those in the ledger,
    and what was alerted on had been classified. *)
Definition ledger_ok (st : TwitterMonitor.state) : Prop :=
  NoDup (TwitterMonitor.analyzed (TwitterMonitor.log st))
  /\ (forall i, i ∈ TwitterMonitor.analyzed (TwitterMonitor.log st) <->
                i ∈ TwitterMonitor.processedTweets st)
  /\ NoDup (TwitterMonitor.alerted (TwitterMonitor.log st))
  /\ (forall i, i ∈ TwitterMonitor.alerted (TwitterMonitor.log st) ->
                i ∈ TwitterMonitor.analyzed (TwitterMonitor.log st)).

(** Three tweets of the examples, [P1] the oldest, and a monitor set-up. *)
Definition P1 : TwitterMonitor.tweet :=
  {| TwitterMonitor.id := "1"; TwitterMonitor.username := Some "alice";
     TwitterMonitor.text := Some "new token soon"; TwitterMonitor.timeParsed := None |}.
Definition P2 : TwitterMonitor.tweet :=
  {| TwitterMonitor.id := "2"; TwitterMonitor.username := Some "alice";
     TwitterMonitor.text := Some "gm"; TwitterMonitor.timeParsed := None |}.
Definition P3 : TwitterMonitor.tweet :=
  {| TwitterMonitor.id := "3"; TwitterMonitor.username := Some "alice";
     TwitterMonitor.text := Some "CA: 0x742d35Cc6634C0532925a3b844Bc8e7E5313A7bE";
     TwitterMonitor.timeParsed := None |}.

Definition watch_only : TwitterMonitor.config :=
  {| TwitterMonitor.targetUsername := "alice"; TwitterMonitor.autoBuyEnabled := false;
     TwitterMonitor.webhookUrl := None; TwitterMonitor.solanaMnemonic := None;
     TwitterMonitor.bscMnemonic := None |}.

Definition wall_clock (n : nat) : string := "2024-01-01T00:00:0" +:+ pretty n.

(** Positions of the examples: [quantity] tokens bought for [cost] on
    Pump.fun, and the price sources answering them. *)
Definition position (address : string) (quantity cost : float) : ProfitTracker.purchase :=
  {| ProfitTracker.purchase_id := 1700000000000;
     ProfitTracker.chain := "solana";
     ProfitTracker.tokenAddress := address;
     ProfitTracker.platform := "Pump.fun";
     ProfitTracker.amount := cost;
     ProfitTracker.tokensReceived := ProfitTracker.JNum quantity;
     ProfitTracker.purchaseTime := "2024-01-01T00:00:00.000Z";
     ProfitTracker.currentValue := 0;
     ProfitTracker.profitLoss := 0;
     ProfitTracker.profitPercentage := 0 |}.

(** Jupiter fails for the token "down" and quotes 5e10 units out for
    0.1 SOL for any other token, that is a price of 0.002 SOL. *)
Definition jupiter : ProfitTracker.world :=
  {| ProfitTracker.jupiterQuote := fun _ token =>
       if bool_decide (token = "down") then Venue.Throws "fetch failed"
       else Venue.Returns (Some (ProfitTracker.JNum 50000000000)) |}.

(** *** Vocabulary of the further properties *)

(** A pattern made of literal characters, alternatives, bounded repetitions
    and zero-width assertions only. *)
Fixpoint wordy (r : Regex.regex) : bool :=
  match r with
  | Regex.Eps | Regex.Lit _ | Regex.WordB | Regex.Bol | Regex.Eol => true
  | Regex.Class _ => false
  | Regex.Seq r1 r2 | Regex.Alt r1 r2 => wordy r1 && wordy r2
  | Regex.Rep _ (Some _) r' => wordy r'
  | Regex.Rep _ None _ => false
  end.

(** Up to [n] words of [ws] in a row. *)
Fixpoint repeat_words (ws : list (list ascii)) (n : nat) : list (list ascii) :=
  match n with
  | O => [[]]
  | S n' => [] :: (w ← ws; (fun rest => w ++ rest) <$> repeat_words ws n')
  end.

(** The words such a pattern is written with. *)
Fixpoint words (r : Regex.regex) : list (list ascii) :=
  match r with
  | Regex.Eps | Regex.WordB | Regex.Bol | Regex.Eol => [[]]
  | Regex.Lit c => [[c]]
  | Regex.Class _ => []
  | Regex.Seq r1 r2 => w1 ← words r1; (fun w2 => w1 ++ w2) <$> words r2
  | Regex.Alt r1 r2 => words r1 ++ words r2
  | Regex.Rep _ (Some n) r' => repeat_words (words r') n
  | Regex.Rep _ None _ => []
  end.

(** The words of the keyword patterns of the detector, each with the [i]
    flag of its pattern. *)
Definition vocabulary : list (bool * string) :=
  [ (true, "pump"); (true, "launch"); (true, "token"); (true, "contract");
    (true, "mint"); (true, "minting"); (true, "minted");
    (true, "deploy"); (true, "deploying"); (true, "deployed");
    (true, "live"); (false, "CA"); (false, "SOL"); (false, "BSC");
    (true, "airdrop"); (true, "presale"); (true, "liquidity"); (false, "DEX") ].

(** [s.toLowerCase()] on ASCII text. *)
Definition lower (s : string) : string :=
  string_of_list_ascii (Regex.to_lower <$> chars s).

Definition all_ascii : list ascii := ascii_of_nat <$> seq 0 256.



(** What the monitor does about one tweet it had not seen: it classifies
    it and, when there is a signal, raises the alert, attempts the
    purchases and, inside the scheduler loop ([looped]), posts to the
    webhook when one is configured and pauses. *)
Definition episode (cfg : TwitterMonitor.config) (l : list TwitterMonitor.effect) : Prop :=
  (exists i, l = [TwitterMonitor.Analyze i])
  \/ (exists r (looped : bool),
        l = [TwitterMonitor.Analyze (TwitterMonitor.alert_id r); TwitterMonitor.Alert r]
            ++ (if TwitterMonitor.autoBuyEnabled cfg
                then TwitterMonitor.autoBuyTokens cfg r else [])
            ++ (if looped && TwitterMonitor.truthy_str (TwitterMonitor.webhookUrl cfg)
                then [TwitterMonitor.Webhook r] else [])
            ++ (if looped then [TwitterMonitor.Delay 1000] else [])
        /\ AddressDetector.hasCryptoContent (TwitterMonitor.alert_analysis r) = true).

(** A configuration with both wallets and a webhook. *)
Definition buy_all : TwitterMonitor.config :=
  {| TwitterMonitor.targetUsername := "alice"; TwitterMonitor.autoBuyEnabled := true;
     TwitterMonitor.webhookUrl := Some "https://hooks.example/x";
     TwitterMonitor.solanaMnemonic :=
       Some "test test test test test test test test test test test junk";
     TwitterMonitor.bscMnemonic :=
       Some "test test test test test test test test test test test junk" |}.


(** What a fetch makes of a feed under a limit: the first [limit] tweets
    when the feed gets that far, everything when it ends earlier, nothing
    when it breaks earlier. *)
Definition fetched (limit : nat) (f : TwitterFeed.feed) : list TwitterMonitor.tweet :=
  if (limit <=? length (TwitterFeed.yielded f))%nat
  then take limit (TwitterFeed.yielded f)
  else match TwitterFeed.failure f with
       | Some _ => []
       | None => TwitterFeed.yielded f
       end.

(** An environment of the examples: credentials and auto-buy switched on
    with the given phrase for both mnemonics. *)
Definition env_with (mnemonic : string) : Config.env := fun name =>
  if bool_decide (name = "TWITTER_USERNAME") then Some "burner"
  else if bool_decide (name = "TWITTER_PASSWORD") then Some "secret"
  else if bool_decide (name = "AUTO_BUY_ENABLED") then Some "true"
  else if bool_decide (name = "SOLANA_MNEMONIC") then Some mnemonic
  else if bool_decide (name = "BSC_MNEMONIC") then Some mnemonic
  else None.

(** With a phrase of twelve words, and with one of three. *)
Definition env_full : Config.env :=
  env_with "test test test test test test test test test test test junk".
Definition env_short : Config.env := env_with "abandon ability able".

(** Wallet libraries for the examples: the Solana buyer takes any phrase,
    the BSC buyer throws unless the phrase has twelve words. *)
Definition word_count (phrase : string) : nat :=
  S (length (filter (fun c => c = " "%char) (list_ascii_of_string phrase))).
Definition wallets_12 : Startup.wallets :=
  {| Startup.newSolanaTokenBuyer := fun _ _ _ => Venue.Returns ();
     Startup.newBSCTokenBuyer := fun mnemonic _ _ =>
       if (word_count mnemonic =? 12)%nat then Venue.Returns ()
       else Venue.Throws "Invalid mnemonic" |}.

(** The same with auto-buy spelled in capitals. *)
Definition env_TRUE : Config.env := fun name =>
  if bool_decide (name = "AUTO_BUY_ENABLED") then Some "TRUE" else env_full name.

(** The platform names a buy result may carry for a venue. *)
Definition venue_label (v : Venue.venue) (platform : string) : Prop :=
  match v with
  | Venue.FourMeme => platform = "Four.meme"
  | Venue.PancakeSwap => platform = "PancakeSwap"
  | Venue.PumpFun => platform = "Pump.fun"
  | Venue.Meteora => platform = "Meteora DLMM" \/ platform = "Meteora Dynamic AMM"
  | Venue.Raydium => platform = "Raydium"
  end.

(** The routing of a chain-A acquisition that got past the balance guard
    with [amount] to spend: Pump.fun, then Meteora, then Raydium. *)
Definition solana_routes_by_priority (w : SolanaTokenBuyer.world) (a : string)
           (amount : float) : Prop :=
  let '(r, tr) := SolanaTokenBuyer.buyToken w a in
  if SolanaTokenBuyer.checkPumpFun w a then
    Venue.probed tr = [Venue.PumpFun]
    /\ Venue.traded tr = [(Venue.PumpFun, amount)]
    /\ r = SolanaTokenBuyer.buyOnPumpFun w a amount
  else
    match SolanaTokenBuyer.checkMeteora w a with
    | Some info =>
        Venue.probed tr = [Venue.PumpFun; Venue.Meteora]
        /\ Venue.traded tr = [(Venue.Meteora, amount)]
        /\ r = SolanaTokenBuyer.buyOnMeteora w a amount info
    | None =>
        if SolanaTokenBuyer.checkRaydium w a then
          Venue.probed tr = [Venue.PumpFun; Venue.Meteora; Venue.Raydium]
          /\ Venue.traded tr = [(Venue.Raydium, amount)]
          /\ r = SolanaTokenBuyer.buyOnRaydium w a amount
        else
          Venue.probed tr = [Venue.PumpFun; Venue.Meteora; Venue.Raydium]
          /\ Venue.traded tr = []
          /\ r = Venue.Failed "Token not found on supported DEXs"
    end.

(** A Solana node on which every venue call and every transaction goes
    through: Pump.fun knows the token when [pump] is set, Meteora has a
    DLMM pool for it when [dlmm] is set, Raydium lists it when [ray] is. *)
Definition solana_market (balance : float) (pump dlmm ray : bool)
  : SolanaTokenBuyer.world :=
  {| SolanaTokenBuyer.getBalance := Venue.Returns balance;
     SolanaTokenBuyer.publicKey := fun _ => Venue.Returns ();
     SolanaTokenBuyer.fetchPumpFun := fun _ =>
       Venue.Returns (if pump then Some "Pepe" else None);
     SolanaTokenBuyer.getAllLbPairPositionsByUser := Venue.Returns ();
     SolanaTokenBuyer.findLbPair := fun _ =>
       Venue.Returns (if dlmm then Some "pool" else None);
     SolanaTokenBuyer.dlmmCreate := fun _ => Venue.Returns ();
     SolanaTokenBuyer.ammTargetPool := fun _ => Venue.Returns None;
     SolanaTokenBuyer.fetchRaydiumPairs := Venue.Returns
       (Some (if ray
              then [{| SolanaTokenBuyer.baseMint := "DezXAZ8z7PnrnRJjz3wXBoZgFJgjKyx6mjGgpHyQJCW2";
                       SolanaTokenBuyer.quoteMint := "So11111111111111111111111111111111111111112";
                       SolanaTokenBuyer.ammId := "amm" |}]
              else []));
     SolanaTokenBuyer.sendPumpFun := fun _ _ => Venue.Returns "sig-pump";
     SolanaTokenBuyer.sendMeteora := fun _ _ _ => Venue.Returns ("sig-meteora", "123000");
     SolanaTokenBuyer.sendRaydium := fun _ _ => Venue.Returns "sig-raydium" |}.

Definition token_sol : string := "DezXAZ8z7PnrnRJjz3wXBoZgFJgjKyx6mjGgpHyQJCW2".

(** The position the tracker keeps for the [n]-th purchase attempt, when
    it succeeded. *)
Definition recorded (stamp : nat -> Z * string) (n : nat)
           (attempt : TwitterMonitor.chain * string * Venue.buyResult)
  : option ProfitTracker.purchase :=
  match attempt with
  | (c, address, Venue.Bought _ platform amount tokenReceived quote) =>
      Some {| ProfitTracker.purchase_id := (stamp n).1;
              ProfitTracker.chain :=
                match c with
                | TwitterMonitor.Solana => "solana"
                | TwitterMonitor.BSC => "bsc"
                end;
              ProfitTracker.tokenAddress := address;
              ProfitTracker.platform := platform;
              ProfitTracker.amount := amount;
              ProfitTracker.tokensReceived :=
                match c, quote, tokenReceived with
                | TwitterMonitor.Solana, Some outAmount, _ => ProfitTracker.JStr outAmount
                | _, _, Some received => ProfitTracker.JStr received
                | _, _, None => ProfitTracker.JUndefined
                end;
              ProfitTracker.purchaseTime := (stamp n).2;
              ProfitTracker.currentValue := 0;
              ProfitTracker.profitLoss := 0;
              ProfitTracker.profitPercentage := 0 |}
  | (_, _, Venue.Failed _) => None
  end.

(** The positions of the successful attempts, in the order of the attempts. *)
Definition positions_of (stamp : nat -> Z * string)
           (attempts : list (TwitterMonitor.chain * string * Venue.buyResult))
  : list ProfitTracker.purchase :=
  omap (fun x => x) (imap (recorded stamp) attempts).

(** A number that is neither a zero, an infinity nor NaN. *)
Definition finite_nonzero (x : float) : Prop :=
  match Prim2SF x with
  | S754_finite _ _ _ => True
  | _ => False
  end.

(** A tweet of the examples that names a Solana token, and the alert
    raised for it. *)
Definition alert_sol : TwitterMonitor.alert :=
  {| TwitterMonitor.alert_id := "7";
     TwitterMonitor.alert_username := Some "alice";
     TwitterMonitor.alert_text := Some "CA: DezXAZ8z7PnrnRJjz3wXBoZgFJgjKyx6mjGgpHyQJCW2";
     TwitterMonitor.alert_url := "https://twitter.com/alice/status/7";
     TwitterMonitor.alert_timestamp := "2024-01-01T00:00:00.000Z";
     TwitterMonitor.alert_analysis :=
       AddressDetector.analyzeTweet "2024-01-01T00:00:00.000Z"
         "CA: DezXAZ8z7PnrnRJjz3wXBoZgFJgjKyx6mjGgpHyQJCW2" |}.

(** The position recorded for the purchase of that token on Pump.fun with
    3 SOL. *)
Definition position_pump : ProfitTracker.purchase :=
  {| ProfitTracker.purchase_id := 1700000000000;
     ProfitTracker.chain := "solana";
     ProfitTracker.tokenAddress := token_sol;
     ProfitTracker.platform := "Pump.fun";
     ProfitTracker.amount := 3;
     ProfitTracker.tokensReceived := ProfitTracker.JUndefined;
     ProfitTracker.purchaseTime := "2024-01-01T00:00:00.000Z";
     ProfitTracker.currentValue := 0;
     ProfitTracker.profitLoss := 0;
     ProfitTracker.profitPercentage := 0 |}.

Definition stamp_2024 (n : nat) : Z * string :=
  (1700000000000%Z, "2024-01-01T00:00:00.000Z").

(** The token accounts [sellAllTokensToSOL] tries to sell: not wrapped SOL,
    and an amount that does not parse to zero. *)
Definition sellable (parseFloat : string -> float) (acc : SolanaSeller.tokenAccount) : bool :=
  negb (bool_decide (SolanaSeller.mint acc = SolanaSeller.SOL_MINT))
  && negb (PrimFloat.eqb (parseFloat (SolanaSeller.amount acc)) 0).

(** The total reported for a list of sale results: the amounts received
    of the successful ones, added up from 0 in the order of the sales. *)
Definition total_received (results : list Selling.sellResult) : float :=
  foldl (fun total r => if Selling.sold r
                        then (total + Selling.received_or_0 r)%float else total)
        0%float results.

(** The wallet holds some of the token: its balance can be read and is
    not zero. *)
Definition holds (w : BSCSeller.world) (token : string) : bool :=
  match BSCSeller.balanceOf w token with
  | Venue.Returns balance => negb (balance =? 0)%Z
  | Venue.Throws _ => false
  end.

(** What a BSC sell method answers before it sends anything: the error of
    [BigInt(tokenAmount)], or else the error of encoding the approval. *)
Definition approval_error (w : BSCSeller.world) (tokenAmount : string) : string :=
  match BSCSeller.toBigInt w tokenAmount with
  | Venue.Throws message => message
  | Venue.Returns _ =>
      BSCSeller.encodingMessage w (Viem.AbiFunctionNotFound "approve")
  end.

(** The tracker holds the positions of the successful attempts and its
    timer runs once there is one. *)
Definition tracks (stamp : nat -> Z * string) (st : TrackedMonitor.trading) : Prop :=
  Tracker.purchasedTokens (TrackedMonitor.profitTracker st)
  = positions_of stamp (TrackedMonitor.attempts st)
  /\ Tracker.isTracking (TrackedMonitor.profitTracker st)
     = Tracker.trackingInterval (TrackedMonitor.profitTracker st)
  /\ (Tracker.isTracking (TrackedMonitor.profitTracker st) = true
      <-> Tracker.purchasedTokens (TrackedMonitor.profitTracker st) <> []).

(** The answers kept in [attempts] are those of the buyers. *)
Definition answered (solana : nat -> SolanaTokenBuyer.world)
           (bsc : nat -> BSCTokenBuyer.world) (st : TrackedMonitor.trading) : Prop :=
  forall n c address r,
    TrackedMonitor.attempts st !! n = Some (c, address, r) ->
    r = match c with
        | TwitterMonitor.Solana => (SolanaTokenBuyer.buyToken (solana n) address).1
        | TwitterMonitor.BSC => (BSCTokenBuyer.buyToken (bsc n) address).1
        end.

(** The alert the monitor raises for [P3] when it is the first tweet it
    sees. *)
Definition alert_P3 : TwitterMonitor.alert :=
  {| TwitterMonitor.alert_id := "3";
     TwitterMonitor.alert_username := Some "alice";
     TwitterMonitor.alert_text := Some "CA: 0x742d35Cc6634C0532925a3b844Bc8e7E5313A7bE";
     TwitterMonitor.alert_url := "https://twitter.com/alice/status/3";
     TwitterMonitor.alert_timestamp := wall_clock 1;
     TwitterMonitor.alert_analysis :=
       AddressDetector.analyzeTweet (wall_clock 0)
         "CA: 0x742d35Cc6634C0532925a3b844Bc8e7E5313A7bE" |}.

(** A feed that yields [P3] and then breaks. *)
Definition feed_cut : TwitterFeed.feed :=
  {| TwitterFeed.yielded := [P3]; TwitterFeed.failure := Some "socket hang up" |}.

(** A scraper that signs in and finds the profile. *)
Definition twitter_up : TwitterFeed.twitter :=
  {| TwitterFeed.login := Venue.Returns ();
     TwitterFeed.getProfile := Venue.Returns (Some "Alice") |}.

(** A position of the examples on BSC: 42 tokens bought for 3 BNB on
    PancakeSwap. *)
Definition position_bsc : ProfitTracker.purchase :=
  {| ProfitTracker.purchase_id := 1700000000000;
     ProfitTracker.chain := "bsc";
     ProfitTracker.tokenAddress := token_0x;
     ProfitTracker.platform := "PancakeSwap";
     ProfitTracker.amount := 3;
     ProfitTracker.tokensReceived := ProfitTracker.JStr "42";
     ProfitTracker.purchaseTime := "2024-01-01T00:00:00.000Z";
     ProfitTracker.currentValue := 0;
     ProfitTracker.profitLoss := 0;
     ProfitTracker.profitPercentage := 0 |}.

(* ===================================================================== *)
(** * Properties *)
(* ===================================================================== *)

(** ** JavaScript numbers: [Math.floor] on a few values *)

Example Math_floor_examples :
  JS.Math_floor 3.7 = 3%float /\ JS.Math_floor 0.9 = 0%float
  /\ JS.Math_floor 5 = 5%float /\ JS.Math_floor (-0.5) = (-1)%float
  /\ JS.Math_floor 1.9999999999999998 = 1%float
  /\ JS.Math_floor 9007199254740993 = 9007199254740992%float
  /\ JS.Math_floor infinity = infinity
  /\ PrimFloat.ltb (JS.Math_floor nan) 1 = false.
Proof. vm_compute. repeat split. Qed.

(** ** The regular-expression engine *)

(** Greedy matching with backtracking, word boundaries, the [i] flag and
    the left-to-right scan of a global match, on texts whose matches under
    JavaScript are known. *)
Example engine_examples :
  Regex.match_all true (Regex.Seqs [Regex.Str "launch"; Regex.WordB]) "Relaunch LAUNCHing launch."
    = ["launch"; "launch"]
  /\ Regex.match_all true
       (Regex.Seqs [Regex.WordB; Regex.Str "mint"; AddressDetector.ing_ed; Regex.WordB])
       "Minting minted mint minter"
     = ["Minting"; "minted"; "mint"]
  /\ Regex.match_all false (Regex.Seqs [Regex.WordB; Regex.Str "CA"; Regex.WordB])
       "CA ca CAT (CA)"
     = ["CA"; "CA"]
  /\ Regex.match_all false AddressDetector.urlRegex
       "see http://a.b.example.org/x?y=1 and https://www.pump.fun."
     = ["http://a.b.example.org/x?y=1"; "https://www.pump.fun."]
  /\ Regex.match_all false AddressDetector.bscRegex
       "0x742d35Cc6634C0532925a3b844Bc8e7E5313A7bE,x0x742d35Cc6634C0532925a3b844Bc8e7E5313A7bE 0x742d35Cc6634C0532925a3b844Bc8e7E5313A7bE0"
     = ["0x742d35Cc6634C0532925a3b844Bc8e7E5313A7bE"].
Proof. vm_compute. repeat split. Qed.


Section RegexFacts.
Import Regex.

Lemma last_char_cons prev x l : last_char prev (x :: l) = last_char (Some x) l.
Proof.
  unfold last_char. destruct l as [|y l]; [done|].
  change (last (x :: y :: l)) with (last (y :: l)).
  destruct (last (y :: l)) eqn:E; [done|].
  by apply last_None in E.
Qed.

Lemma class_match_cs cs x : class_match false cs x = in_class cs x.
Proof. unfold class_match. by rewrite orb_false_r. Qed.

Lemma m_Class_nil ci cs prev k : m ci (Class cs) prev [] k = None.
Proof. reflexivity. Qed.

Lemma m_Class_cons ci cs prev x s k :
  m ci (Class cs) prev (x :: s) k
  = if class_match ci cs x then k (Some x) s else None.
Proof. reflexivity. Qed.

(** Whatever a bounded repetition of a character class matches is a run
    of between [min] and [max] characters of the class, and the
    continuation succeeded right after it. *)
Lemma repeat_class_sound ci cs max :
  forall min prev s k rest,
    repeat_m (m ci (Class cs)) min max prev s k = Some rest ->
    exists n, min <= n <= max /\ n <= length s /\
              Forall (fun c => class_match ci cs c = true) (take n s) /\
              k (last_char prev (take n s)) (drop n s) = Some rest.
Proof.
  induction max as [|max IH]; intros min prev s k rest H; cbn [repeat_m] in H.
  - destruct (Nat.eqb_spec min 0) as [->|]; [|done].
    exists 0. rewrite take_0, drop_0. repeat split; try lia; [constructor | done].
  - assert (Hstop : (if (min =? 0)%nat then k prev s else None) = Some rest ->
                    exists n, min <= n <= S max /\ n <= length s /\
                      Forall (fun c => class_match ci cs c = true) (take n s) /\
                      k (last_char prev (take n s)) (drop n s) = Some rest).
    { intros H0. destruct (Nat.eqb_spec min 0) as [->|]; [|done].
      exists 0. rewrite take_0, drop_0. repeat split; try lia; [constructor | done]. }
    destruct s as [|x s']; [rewrite m_Class_nil in H; by apply Hstop|].
    rewrite m_Class_cons in H.
    destruct (class_match ci cs x) eqn:Hx; [|by apply Hstop].
    replace ((length s' <? length (x :: s'))%nat) with true in H
      by (symmetry; apply Nat.ltb_lt; simpl; lia).
    cbn [orb] in H.
    destruct (repeat_m (m ci (Class cs)) (pred min) max (Some x) s' k) as [r|] eqn:E.
    + injection H as ->.
      destruct (IH _ _ _ _ _ E) as (n & Hn & Hlen & Hall & Hk).
      exists (S n). cbn [take drop length]. rewrite last_char_cons.
      repeat split; try lia; [by constructor | done].
    + by apply Hstop.
Qed.

(** An exact repetition [{n,n}] of a class succeeds on [n] characters of
    the class and hands over to the continuation. *)
Lemma repeat_class_exact ci cs n :
  forall prev s k,
    n <= length s ->
    Forall (fun c => class_match ci cs c = true) (take n s) ->
    repeat_m (m ci (Class cs)) n n prev s k
    = k (last_char prev (take n s)) (drop n s).
Proof.
  induction n as [|n IH]; intros prev s k Hlen Hall; cbn [repeat_m].
  - by rewrite take_0, drop_0.
  - destruct s as [|x s']; [simpl in Hlen; lia|].
    cbn [take drop] in *. inversion Hall as [|? ? Hx Hall']; subst.
    rewrite m_Class_cons, Hx.
    replace ((length s' <? length (x :: s'))%nat) with true
      by (symmetry; apply Nat.ltb_lt; simpl; lia).
    cbn [orb pred]. rewrite IH by (simpl in Hlen; first [lia | done]).
    rewrite last_char_cons.
    by destruct (k (last_char (Some x) (take n s')) (drop n s')).
Qed.

(** Every match reported by a global search is what one attempt matched
    at some position of the text. *)
Lemma match_all_from_sound ci r a :
  forall s skip prev,
    a ∈ match_all_from ci r skip prev s ->
    exists pre p s' len,
      s = pre ++ s' /\ exec_at ci r p s' = Some len /\ a = take len s'.
Proof.
  induction s as [|c s IH]; intros skip prev H; cbn [match_all_from] in H.
  - destruct skip; [|by apply elem_of_nil in H].
    destruct (exec_at ci r prev []) as [len|] eqn:E; [|by apply elem_of_nil in H].
    apply list_elem_of_singleton in H as ->.
    exists [], prev, [], len. by rewrite take_nil.
  - destruct skip as [|n].
    + destruct (exec_at ci r prev (c :: s)) as [len|] eqn:E.
      * apply elem_of_cons in H as [->|H].
        { by exists [], prev, (c :: s), len. }
        destruct (IH _ _ H) as (pre & p & s' & l & -> & ? & ?).
        by exists (c :: pre), p, s', l.
      * destruct (IH _ _ H) as (pre & p & s' & l & -> & ? & ?).
        by exists (c :: pre), p, s', l.
    + destruct (IH _ _ H) as (pre & p & s' & l & -> & ? & ?).
      by exists (c :: pre), p, s', l.
Qed.

End RegexFacts.

(** ** The classifier *)

Section ClassifierFacts.
Import Regex AddressDetector.

Lemma m_Seq ci r1 r2 prev s k :
  m ci (Seq r1 r2) prev s k = m ci r1 prev s (fun p' s' => m ci r2 p' s' k).
Proof. reflexivity. Qed.

Lemma m_WordB ci prev s k :
  m ci WordB prev s k
  = if xorb (is_word_opt prev) (is_word_opt (head s)) then k prev s else None.
Proof. reflexivity. Qed.

Lemma m_Rep ci mn mx r prev s k :
  m ci (Rep mn (Some mx) r) prev s k = repeat_m (m ci r) mn mx prev s k.
Proof. reflexivity. Qed.

Lemma m_Eps ci prev s k : m ci Eps prev s k = k prev s.
Proof. reflexivity. Qed.

Lemma m_Lit_false c prev s k :
  m false (Lit c) prev s k
  = match s with
    | x :: s' => if Ascii.eqb c x then k (Some x) s' else None
    | [] => None
    end.
Proof. reflexivity. Qed.

Lemma m_Bol ci prev s k :
  m ci Bol prev s k = match prev with None => k prev s | Some _ => None end.
Proof. reflexivity. Qed.

Lemma m_Eol ci prev s k :
  m ci Eol prev s k = match s with [] => k prev s | _ :: _ => None end.
Proof. reflexivity. Qed.

(** One successful attempt of the chain-A pattern covers 32 to 44
    characters, all of the base-58 class. *)
Lemma solana_exec_shape prev s len :
  exec_at false solanaRegex prev s = Some len ->
  32 <= len <= 44 /\ len <= length s /\
  Forall (fun c => in_class base58_class c = true) (take len s).
Proof.
  unfold exec_at, solanaRegex. cbn [Seqs]. rewrite m_Seq, m_WordB.
  destruct (xorb _ _); [|done].
  rewrite m_Seq, m_Rep.
  destruct (repeat_m _ _ _ _ _ _) as [rest|] eqn:E; [|done].
  intros [= <-].
  apply repeat_class_sound in E as (n & Hn & Hlen & Hall & Hk).
  cbn beta in Hk. rewrite m_Seq, m_WordB in Hk.
  destruct (xorb _ _) in Hk; [|done].
  rewrite m_Eps in Hk. injection Hk as <-.
  rewrite length_drop. replace (length s - (length s - n)) with n by lia.
  repeat split; try lia.
  eapply Forall_impl; [exact Hall|]. intros c Hc. cbn beta in Hc.
  by rewrite class_match_cs in Hc.
Qed.

Lemma match_all_chars ci r text a :
  a ∈ match_all ci r text ->
  exists pre p s' len,
    chars text = pre ++ s' /\ exec_at ci r p s' = Some len /\ chars a = take len s'.
Proof.
  unfold match_all. intros (la & -> & Hla)%list_elem_of_fmap.
  apply match_all_from_sound in Hla as (pre & p & s' & len & ? & ? & ->).
  exists pre, p, s', len. by rewrite list_ascii_of_string_of_list_ascii.
Qed.

(** Every candidate of the chain-A pattern has the chain-A shape and
    occurs in the text. *)
Lemma solana_candidate_shape text a :
  a ∈ match_all false solanaRegex text -> pattern_shaped a /\ substring_of a text.
Proof.
  intros (pre & p & s' & len & Htext & Hexec & Ha)%match_all_chars.
  apply solana_exec_shape in Hexec as (Hlen & Hle & Hall).
  split.
  - unfold pattern_shaped. rewrite Ha, length_take. split; [lia | done].
  - exists pre, (drop len s'). by rewrite Ha, take_drop.
Qed.

Lemma isValidSolanaAddress_spec a :
  isValidSolanaAddress a = true <->
  exists bytes, Base58.decode a = Some bytes /\ length bytes = 32.
Proof.
  unfold isValidSolanaAddress. destruct (Base58.decode a) as [bytes|].
  - rewrite Nat.eqb_eq. split; [by exists bytes | by intros (? & [= <-] & ?)].
  - split; [done | by intros (? & ? & ?)].
Qed.

Lemma uniq_from_nil seen l : uniq_from seen l = [] -> forall x, x ∈ l -> x ∈ seen.
Proof.
  revert seen. induction l as [|y l IH]; intros seen H x Hx; [by apply elem_of_nil in Hx|].
  cbn [uniq_from] in H. case_bool_decide as Hy; [|done].
  apply elem_of_cons in Hx as [->|Hx]; [done | by apply IH].
Qed.

Lemma uniq_from_empty_iff l : uniq_from [] l = [] <-> l = [].
Proof.
  split; [|by intros ->].
  intros H. destruct l as [|x l]; [done|].
  assert (Hx : x ∈ ([] : list string)) by (apply (uniq_from_nil _ _ H x); left).
  by apply elem_of_nil in Hx.
Qed.

(** The characters of the pattern's class are the characters of the
    base-58 alphabet, so decoding a candidate never throws. *)
Lemma class_has_digit c :
  in_class base58_class c = true -> is_Some (Base58.digit c).
Proof.
  destruct c as [[|] [|] [|] [|] [|] [|] [|] [|]]; vm_compute;
    intros H; (discriminate H || by eexists).
Qed.

Lemma value_from_total s :
  Forall (fun c => in_class base58_class c = true) s ->
  forall acc, is_Some (Base58.value_from acc s).
Proof.
  induction 1 as [|c s Hc Hs IH]; intros acc; cbn [Base58.value_from]; [by eexists|].
  destruct (class_has_digit c Hc) as [d ->]. apply IH.
Qed.

Lemma leading_ones_suffix s :
  exists ones, s = ones ++ (Base58.leading_ones s).2.
Proof.
  induction s as [|c s [ones IH]]; cbn [Base58.leading_ones]; [by exists []|].
  destruct (Ascii.eqb c "1"); [|by exists []].
  destruct (Base58.leading_ones s) as [n r]. cbn [snd] in *.
  exists (c :: ones). by rewrite IH at 1.
Qed.

Lemma candidate_decodes a : pattern_shaped a -> is_Some (Base58.decode a).
Proof.
  intros [_ Hall]. unfold Base58.decode.
  destruct (leading_ones_suffix (chars a)) as [ones Hsplit].
  destruct (Base58.leading_ones (chars a)) as [zeroes body]. cbn [snd] in Hsplit.
  rewrite Hsplit in Hall. apply Forall_app in Hall as [_ Hbody].
  destruct (value_from_total body Hbody 0%Z) as [v ->]. by eexists.
Qed.

End ClassifierFacts.

Section FormatFacts.
Import Regex AddressDetector.

Lemma bsc_exact_only_at_start c s : exec_at false bscExactRegex (Some c) s = None.
Proof. unfold exec_at, bscExactRegex. cbn [Seqs]. by rewrite m_Seq, m_Bol. Qed.

Lemma bsc_exact_search_later s : forall c, search_from false bscExactRegex (Some c) s = false.
Proof.
  induction s as [|x s IH]; intros c; cbn [search_from];
    rewrite bsc_exact_only_at_start; [done | apply IH].
Qed.

Lemma bsc_exact_search s :
  search_from false bscExactRegex None s = true <->
  is_Some (exec_at false bscExactRegex None s).
Proof.
  destruct s as [|x s]; cbn [search_from];
    destruct (exec_at false bscExactRegex None _) as [len|]; try rewrite bsc_exact_search_later;
    split; (done || by intros [? ?] || by eexists).
Qed.

Ltac step_m := repeat (rewrite ?m_Seq, ?m_Bol, ?m_Lit_false, ?m_Eps, ?m_Rep; cbn beta).

Lemma bsc_exact_exec s :
  is_Some (exec_at false bscExactRegex None s) <->
  exists h, s = "0"%char :: "x"%char :: h /\ length h = 40 /\
            Forall (fun c => in_class hex_class c = true) h.
Proof.
  unfold exec_at, bscExactRegex. cbn [Seqs Str]. split.
  - step_m. destruct s as [|c0 s]; [by intros [? ?]|].
    destruct (Ascii.eqb_spec "0" c0) as [<-|]; [|by intros [? ?]].
    step_m. destruct s as [|c1 s]; [by intros [? ?]|].
    destruct (Ascii.eqb_spec "x" c1) as [<-|]; [|by intros [? ?]].
    step_m.
    destruct (repeat_m _ _ _ _ _ _) as [rest|] eqn:E; [|by intros [? ?]].
    intros _. apply repeat_class_sound in E as (n & Hn & Hlen & Hall & Hk).
    cbn beta in Hk. rewrite m_Seq, m_Eol in Hk.
    destruct (drop n s) eqn:D; [|done].
    apply drop_nil_inv in D.
    assert (n = 40) as -> by lia. rewrite take_ge in Hall by lia.
    exists s. repeat split; [lia|].
    eapply Forall_impl; [exact Hall|]. intros c Hc. cbn beta in Hc.
    by rewrite class_match_cs in Hc.
  - intros (h & -> & Hlen & Hall). step_m.
    rewrite repeat_class_exact.
    + rewrite m_Seq, m_Eol, drop_ge by lia. cbn beta. rewrite m_Eps. by eexists.
    + lia.
    + rewrite take_ge by lia. eapply Forall_impl; [exact Hall|].
      intros c Hc. cbn beta in Hc. by rewrite class_match_cs.
Qed.

(** The format check of the chain-B buyer accepts exactly [0x] followed by
    40 hexadecimal digits. *)
Lemma validFormat_spec a : BSCTokenBuyer.validFormat a = true <-> is_0x_40_hex a.
Proof.
  unfold BSCTokenBuyer.validFormat, matches, is_0x_40_hex.
  by rewrite bsc_exact_search, bsc_exact_exec.
Qed.

End FormatFacts.

(** ** The detector object: [lastIndex] does not leak between calls *)

Section DetectorObjectFacts.
Import Regex AddressDetector DetectorObject.

Lemma drop_lookup (s : list ascii) i c : s !! i = Some c -> drop i s = c :: drop (S i) s.
Proof. intros H. by rewrite (drop_S _ _ _ H). Qed.

Lemma lookup_below (s : list ascii) i : i < length s -> exists c, s !! i = Some c.
Proof. intros H. by apply lookup_lt_is_Some_2. Qed.

(** What [find_from] reports: the first position that matches, or that
    none does. *)
Lemma find_from_None ci r s more : forall i,
  find_from ci r s i more = None ->
  forall j, i <= j <= i + more -> exec_at ci r (char_before s j) (drop j s) = None.
Proof.
  induction more as [|more IH]; intros i H j Hj; cbn [find_from] in H;
    destruct (exec_at ci r (char_before s i) (drop i s)) as [len|] eqn:E; try done.
  - by replace j with i by lia.
  - destruct (decide (j = i)) as [->|Hne]; [done|].
    apply (IH (S i) H). lia.
Qed.

Lemma find_from_Some ci r s more : forall i j e,
  find_from ci r s i more = Some (j, e) ->
  i <= j <= i + more
  /\ (forall j', i <= j' < j -> exec_at ci r (char_before s j') (drop j' s) = None)
  /\ exists len, exec_at ci r (char_before s j) (drop j s) = Some len /\ e = j + len.
Proof.
  induction more as [|more IH]; intros i j e H; cbn [find_from] in H;
    destruct (exec_at ci r (char_before s i) (drop i s)) as [len|] eqn:E; try done.
  - injection H as <- <-. split; [lia|]. split; [intros; lia | by exists len].
  - injection H as <- <-. split; [lia|]. split; [intros; lia | by exists len].
  - destruct (IH _ _ _ H) as (Hj & Hbefore & Hat).
    split; [lia|]. split; [|done].
    intros j' Hj'. destruct (decide (j' = i)) as [->|Hne]; [done|].
    apply Hbefore. lia.
Qed.

(** The scan skips the characters covered by the previous match. *)
Lemma scan_skip ci r (s : list ascii) skip : forall i,
  i + skip <= length s ->
  match_all_from ci r skip (char_before s i) (drop i s)
  = match_all_from ci r 0 (char_before s (i + skip)) (drop (i + skip) s).
Proof.
  induction skip as [|skip IH]; intros i Hi; [by rewrite Nat.add_0_r|].
  destruct (lookup_below s i) as [c Hc]; [lia|].
  rewrite (drop_lookup _ _ _ Hc). cbn [match_all_from].
  replace (Some c) with (char_before s (S i)) by done.
  rewrite IH by lia. by replace (S i + skip) with (i + S skip) by lia.
Qed.

(** The scan moves on over the positions where nothing matches. *)
Lemma scan_miss ci r (s : list ascii) d : forall i,
  i + d <= length s ->
  (forall j, i <= j < i + d -> exec_at ci r (char_before s j) (drop j s) = None) ->
  match_all_from ci r 0 (char_before s i) (drop i s)
  = match_all_from ci r 0 (char_before s (i + d)) (drop (i + d) s).
Proof.
  induction d as [|d IH]; intros i Hi Hmiss; [by rewrite Nat.add_0_r|].
  destruct (lookup_below s i) as [c Hc]; [lia|].
  rewrite (drop_lookup _ _ _ Hc). cbn [match_all_from].
  rewrite <- (drop_lookup _ _ _ Hc), (Hmiss i) by lia.
  replace (Some c) with (char_before s (S i)) by done.
  rewrite IH; [by replace (S i + d) with (i + S d) by lia | lia |].
  intros j Hj. apply Hmiss. lia.
Qed.

Lemma exec_at_le ci r prev s len : exec_at ci r prev s = Some len -> len <= length s.
Proof.
  unfold exec_at. destruct (m ci r prev s _) as [rest|]; [|done].
  intros [= <-]. lia.
Qed.

(** The loop of [Symbol.match], started anywhere in the text with enough
    fuel, finds what the scan finds from there on and leaves the regex
    with [lastIndex = 0]. *)
Lemma match_loop_scan (s : list ascii) k : forall rx fuel,
  global rx = true ->
  lastIndex rx <= length s ->
  length s + 1 - lastIndex rx <= k ->
  k < fuel ->
  match_loop fuel rx s
  = (match_all_from (ignoreCase rx) (source rx) 0
       (char_before s (lastIndex rx)) (drop (lastIndex rx) s),
     set_lastIndex 0 rx).
Proof.
  induction k as [|k IH]; intros rx fuel Hg Hi Hk Hfuel; [lia|].
  destruct fuel as [|fuel]; [lia|].
  cbn [match_loop]. unfold exec. rewrite Hg.
  replace (length s <? lastIndex rx)%nat with false
    by (symmetry; apply Nat.ltb_ge; lia).
  destruct (find_from _ _ _ _ _) as [[j e]|] eqn:Hfind.
  - apply find_from_Some in Hfind as (Hj & Hbefore & len & Hat & ->).
    pose proof (exec_at_le _ _ _ _ _ Hat) as Hlen. rewrite length_drop in Hlen.
    rewrite (scan_miss _ _ s (j - lastIndex rx) (lastIndex rx)); [|lia|].
    2:{ intros j' Hj'. apply Hbefore. lia. }
    replace (lastIndex rx + (j - lastIndex rx)) with j by lia.
    unfold substring. replace (j + len - j) with len by lia.
    destruct (decide (j < length s)) as [Hin|Hend].
    + destruct (lookup_below s j Hin) as [c Hc].
      rewrite (drop_lookup _ _ _ Hc). cbn [match_all_from].
      rewrite <- (drop_lookup _ _ _ Hc), Hat.
      replace (Some c) with (char_before s (S j)) by done.
      rewrite (scan_skip _ _ s (len - 1) (S j)) by lia.
      destruct (Nat.eqb_spec (j + len) j) as [Hempty|Hfull].
      * assert (len = 0) as -> by lia.
        rewrite IH; cbn [set_lastIndex source ignoreCase global lastIndex];
          [|done|lia|lia|lia].
        by replace (S j + (0 - 1)) with (S (j + 0)) by lia.
      * rewrite IH; cbn [set_lastIndex source ignoreCase global lastIndex];
          [|done|lia|lia|lia].
        by replace (S j + (len - 1)) with (j + len) by lia.
    + assert (j = length s) as -> by lia. assert (len = 0) as -> by lia.
      rewrite drop_all in *. cbn [match_all_from]. rewrite Hat.
      rewrite Nat.add_0_r, Nat.eqb_refl.
      destruct fuel as [|fuel]; [lia|].
      cbn [match_loop]. unfold exec.
      cbn [set_lastIndex source ignoreCase global lastIndex]. rewrite Hg.
      replace (length s <? S (length s))%nat with true
        by (symmetry; apply Nat.ltb_lt; lia).
      by cbn.
  - pose proof (find_from_None _ _ _ _ _ Hfind) as Hnone.
    rewrite (scan_miss _ _ s (length s - lastIndex rx) (lastIndex rx)); [|lia|].
    2:{ intros j Hj. apply Hnone. lia. }
    replace (lastIndex rx + (length s - lastIndex rx)) with (length s) by lia.
    rewrite drop_all. cbn [match_all_from].
    rewrite <- (drop_all s), (Hnone (length s)) by lia. done.
Qed.

(** [text.match(rx) || []] on a global regex is the list of matches of the
    scan, whatever [lastIndex] was, and leaves [lastIndex] at 0. *)
Lemma match_or_empty_global rx text :
  global rx = true ->
  match_or_empty rx text
  = (match_all (ignoreCase rx) (source rx) text, set_lastIndex 0 rx).
Proof.
  intros Hg. unfold match_or_empty, match_all. rewrite Hg.
  rewrite (match_loop_scan _ (length (list_ascii_of_string text) + 1));
    cbn [set_lastIndex source ignoreCase global lastIndex]; try done; lia.
Qed.

Lemma matchPatterns_global text patterns :
  Forall (fun rx => global rx = true) patterns ->
  matchPatterns patterns text
  = (mjoin ((fun rx => match_all (ignoreCase rx) (source rx) text) <$> patterns),
     set_lastIndex 0 <$> patterns).
Proof.
  induction 1 as [|rx patterns Hg _ IH]; [done|].
  cbn [matchPatterns]. rewrite match_or_empty_global, IH by done. done.
Qed.

(** A call of [analyzeTweet] on a detector, whatever state its patterns
    were left in, returns the record computed from the text and the time,
    and leaves the detector as the constructor made it. *)
Lemma analyzeTweet_object d now text :
  built d ->
  DetectorObject.analyzeTweet d now text
  = (AddressDetector.analyzeTweet now text, DetectorObject.constructor).
Proof.
  destruct d as [sol bsc kws]. intros H.
  pose proof (f_equal solanaRegexObj H) as Hsol.
  pose proof (f_equal bscRegexObj H) as Hbsc.
  pose proof (f_equal keywordPatternObjs H) as Hkws.
  cbn [rewound constructor solanaRegexObj bscRegexObj keywordPatternObjs]
    in Hsol, Hbsc, Hkws.
  clear H.
  assert (Hg : forall rx rx', set_lastIndex 0 rx = rx' -> global rx = global rx'
                              /\ ignoreCase rx = ignoreCase rx' /\ source rx = source rx').
  { by intros rx rx' <-. }
  destruct (Hg _ _ Hsol) as (Hs1 & Hs2 & Hs3), (Hg _ _ Hbsc) as (Hb1 & Hb2 & Hb3).
  assert (Hkg : Forall (fun rx => global rx = true) kws).
  { apply Forall_forall. intros rx Hrx.
    assert (Hin : set_lastIndex 0 rx ∈ set_lastIndex 0 <$> kws)
      by (by apply list_elem_of_fmap_2).
    rewrite Hkws in Hin. apply list_elem_of_fmap in Hin as (p & Hp & _).
    by apply (f_equal global) in Hp. }
  assert (Hkm : (fun rx => match_all (ignoreCase rx) (source rx) text) <$> kws
                = (fun p : bool * regex => match_all p.1 p.2 text) <$> keywordPatterns).
  { transitivity ((fun rx => match_all (ignoreCase rx) (source rx) text)
                    <$> (set_lastIndex 0 <$> kws)).
    - rewrite <- list_fmap_compose. by apply list_fmap_ext.
    - rewrite Hkws, <- list_fmap_compose. by apply list_fmap_ext. }
  unfold DetectorObject.analyzeTweet, DetectorObject.extractSolanaAddresses,
    DetectorObject.extractBSCAddresses, DetectorObject.containsCryptoKeywords,
    DetectorObject.extractUrls.
  cbn [solanaRegexObj bscRegexObj keywordPatternObjs].
  rewrite !match_or_empty_global by done.
  cbn [solanaRegexObj bscRegexObj keywordPatternObjs].
  rewrite matchPatterns_global by done.
  rewrite Hkm, Hs2, Hs3, Hb2, Hb3, Hsol, Hbsc, Hkws. done.
Qed.

End DetectorObjectFacts.

(* ===================================================================== *)
(** ** Claims about the Content Classifier *)
(* ===================================================================== *)

Section ClassifierClaims.
Import Regex AddressDetector.

(** A candidate of the right shape whose decode is too short is dropped,
    one that decodes to 32 bytes is kept. *)
Example extractSolanaAddresses_filters :
  match_all false solanaRegex
    "22222222222222222222222222222222 11111111111111111111111111111111"
  = ["22222222222222222222222222222222"; "11111111111111111111111111111111"]
  /\ (length <$> Base58.decode "22222222222222222222222222222222") = Some 23
  /\ extractSolanaAddresses
       "22222222222222222222222222222222 11111111111111111111111111111111"
     = ["11111111111111111111111111111111"].
Proof. vm_compute. repeat split. Qed.

Example extractSolanaAddresses_readme :
  extractSolanaAddresses "CA: DezXAZ8z7PnrnRJjz3wXBoZgFJgjKyx6mjGgpHyQJCW2 !"
  = ["DezXAZ8z7PnrnRJjz3wXBoZgFJgjKyx6mjGgpHyQJCW2"].
Proof. by vm_compute. Qed.

(** C4. For every text, an address is returned by the chain-A extractor
    exactly when it is a candidate of the pattern and its base-58 decode has
    exactly 32 bytes.  Every candidate is a run of 32 to 44 base-58
    characters of the text and does decode; a candidate whose decode has
    another number of bytes than 32 is not returned. *)
Theorem C4_solana_extractor_filters (text a : string) :
  (a ∈ extractSolanaAddresses text <->
     a ∈ match_all false solanaRegex text /\
     exists bytes, Base58.decode a = Some bytes /\ length bytes = 32)
  /\ (a ∈ match_all false solanaRegex text ->
      pattern_shaped a /\ substring_of a text /\ is_Some (Base58.decode a))
  /\ (a ∈ match_all false solanaRegex text ->
      forall bytes, Base58.decode a = Some bytes -> length bytes <> 32 ->
                    a ∉ extractSolanaAddresses text).
Proof.
  assert (Hiff : a ∈ extractSolanaAddresses text <->
            a ∈ match_all false solanaRegex text /\
            exists bytes, Base58.decode a = Some bytes /\ length bytes = 32).
  { unfold extractSolanaAddresses.
    rewrite list_elem_of_filter, isValidSolanaAddress_spec. tauto. }
  split; [exact Hiff|]. split.
  - intros [Hshape Hsub]%solana_candidate_shape.
    split; [done|]. split; [done|]. by apply candidate_decodes.
  - intros _ bytes Hdec Hlen [_ (bytes' & Hdec' & Hlen')]%Hiff.
    congruence.
Qed.

(** C5. [hasCryptoContent] is true exactly when a chain-A address, a
    chain-B address or a keyword was found (a keyword is found when one of
    the keyword patterns matches somewhere); the links play no part: a text
    in which only a link is found has [hasCryptoContent = false]. *)
Theorem C5_hasSignal_iff_address_or_keyword (now text : string) :
  (hasCryptoContent (analyzeTweet now text) = true <->
     solanaAddresses (analyzeTweet now text) <> []
     \/ bscAddresses (analyzeTweet now text) <> []
     \/ keywords (analyzeTweet now text) <> [])
  /\ (keywords (analyzeTweet now text) <> [] <->
      exists p, p ∈ keywordPatterns /\ match_all p.1 p.2 text <> [])
  /\ (urls (analyzeTweet now "check https://example.com/page")
        = ["https://example.com/page"]
      /\ hasCryptoContent (analyzeTweet now "check https://example.com/page") = false).
Proof.
  split; [|split].
  - cbn [analyzeTweet hasCryptoContent solanaAddresses bscAddresses keywords].
    rewrite !orb_true_iff, !Nat.ltb_lt.
    assert (Hlen : forall l : list string, 0 < length l <-> l <> []).
    { intros [|x l]; simpl; split; (done || lia). }
    rewrite !Hlen. tauto.
  - cbn [analyzeTweet keywords]. unfold containsCryptoKeywords.
    rewrite uniq_from_empty_iff. split.
    + intros Hne.
      destruct (mjoin _) as [|k ks] eqn:E; [done|].
      assert (Hk : k ∈ mjoin ((fun p : bool * regex => match_all p.1 p.2 text)
                                 <$> keywordPatterns)) by (rewrite E; left).
      apply list_elem_of_join in Hk as (l & Hkl & Hl).
      apply list_elem_of_fmap in Hl as (p & -> & Hp).
      exists p. split; [done|]. intros Hnil. rewrite Hnil in Hkl.
      by apply elem_of_nil in Hkl.
    + intros (p & Hp & Hne) Hnil.
      destruct (match_all p.1 p.2 text) as [|k ks] eqn:E; [done|].
      assert (Hk : k ∈ mjoin ((fun p : bool * regex => match_all p.1 p.2 text)
                                 <$> keywordPatterns)).
      { apply list_elem_of_join. exists (k :: ks). split; [left|].
        apply list_elem_of_fmap. exists p. by rewrite E. }
      rewrite Hnil in Hk. by apply elem_of_nil in Hk.
  - by vm_compute.
Qed.

(** The record of a call on a detector left in the middle of another text
    is the record of a call on a new detector. *)
Example analyzeTweet_on_used_detector :
  (DetectorObject.analyzeTweet used_detector "t" "pump CA live").1
  = (DetectorObject.analyzeTweet DetectorObject.constructor "t" "pump CA live").1
  /\ keywords (DetectorObject.analyzeTweet used_detector "t" "pump CA live").1
     = ["pump"; "live"; "CA"].
Proof. by vm_compute. Qed.

(** C9, as the specification states it, does not hold: two calls of
    [analyzeTweet] on the same text and the same detector made at different
    times return different records, since the record carries the time of
    the call. *)
Lemma C9_analyzeTweet_reads_the_clock :
  ~ (forall (d : DetectorObject.detector) (now1 now2 text : string),
       built d ->
       (DetectorObject.analyzeTweet d now1 text).1
       = (DetectorObject.analyzeTweet d now2 text).1).
Proof.
  intros H.
  specialize (H DetectorObject.constructor
                "2024-01-01T00:00:00.000Z" "2024-01-01T00:00:01.000Z" "gm"
                eq_refl).
  apply (f_equal timestamp) in H. vm_compute in H. discriminate H.
Qed.

(** C9, amended. The findings proper (hasCryptoContent, the two address
    lists, the keywords and the links) depend on the text only: two calls on
    the same text agree on them whenever they are made and whatever state
    earlier calls left the detector's patterns in; each call leaves the
    detector as the constructor made it; the remaining field of the record,
    [timestamp], is the time of the call. *)
Theorem C9_findings_depend_on_text_only
    (d1 d2 : DetectorObject.detector) (now1 now2 text : string) :
  built d1 -> built d2 ->
  hasCryptoContent (DetectorObject.analyzeTweet d1 now1 text).1
    = hasCryptoContent (DetectorObject.analyzeTweet d2 now2 text).1
  /\ solanaAddresses (DetectorObject.analyzeTweet d1 now1 text).1
     = solanaAddresses (DetectorObject.analyzeTweet d2 now2 text).1
  /\ bscAddresses (DetectorObject.analyzeTweet d1 now1 text).1
     = bscAddresses (DetectorObject.analyzeTweet d2 now2 text).1
  /\ keywords (DetectorObject.analyzeTweet d1 now1 text).1
     = keywords (DetectorObject.analyzeTweet d2 now2 text).1
  /\ urls (DetectorObject.analyzeTweet d1 now1 text).1
     = urls (DetectorObject.analyzeTweet d2 now2 text).1
  /\ (DetectorObject.analyzeTweet d1 now1 text).2 = DetectorObject.constructor
  /\ timestamp (DetectorObject.analyzeTweet d1 now1 text).1 = now1
  /\ timestamp (DetectorObject.analyzeTweet d2 now2 text).1 = now2.
Proof.
  intros H1 H2. rewrite !analyzeTweet_object by done.
  by repeat split.
Qed.

Lemma C9_findings_depend_on_text_only_witness :
  built DetectorObject.constructor /\ built used_detector
  /\ keywords (DetectorObject.analyzeTweet DetectorObject.constructor
                 "2024-01-01T00:00:00.000Z" "pump CA live").1
     = keywords (DetectorObject.analyzeTweet used_detector
                   "2024-01-01T00:00:01.000Z" "pump CA live").1.
Proof.
  split; [reflexivity|]. split; [reflexivity|].
  apply (C9_findings_depend_on_text_only DetectorObject.constructor used_detector
           "2024-01-01T00:00:00.000Z" "2024-01-01T00:00:01.000Z" "pump CA live");
    reflexivity.
Defined.

End ClassifierClaims.

(* ===================================================================== *)
(** ** Claims about the Venue Router *)
(* ===================================================================== *)

Section RouterClaims.
Import Venue.

(** Membership in a trace written out: one case per event. *)
Ltac in_trace :=
  repeat match goal with
         | H : _ ∈ _ :: _ |- _ => apply elem_of_cons in H as [H|H]
         | H : _ ∈ [] |- _ => by apply elem_of_nil in H
         end;
  try discriminate; simplify_eq.

(** The branches of the chain-B [buyToken]. *)
Ltac bsc_cases w a :=
  unfold BSCTokenBuyer.buyToken;
  destruct (BSCTokenBuyer.validFormat a) eqn:Hfmt; cbn [negb];
  [ destruct (BSCTokenBuyer.getBalance w) as [bal|msg] eqn:Hbal;
    [ cbn zeta;
      destruct (PrimFloat.ltb (JS.Math_floor bal) 1) eqn:Hlow;
      [ | destruct (BSCTokenBuyer.exists_ (BSCTokenBuyer.getTokenInfo w a)) eqn:Htok;
          cbn [negb];
          [ destruct (BSCTokenBuyer.checkFourMeme w a) eqn:Hfm;
            [ | destruct (BSCTokenBuyer.checkPancakeSwapLiquidity w a) eqn:Hpc ]
          | ] ]
    | ]
  | ].

(** The branches of the chain-A [buyToken]. *)
Ltac solana_cases w a :=
  unfold SolanaTokenBuyer.buyToken;
  destruct (SolanaTokenBuyer.getBalance w) as [bal|msg] eqn:Hbal;
  [ cbn zeta;
    destruct (PrimFloat.ltb (JS.Math_floor bal) 1) eqn:Hlow;
    [ | destruct (SolanaTokenBuyer.checkPumpFun w a) eqn:Hpf;
        [ | destruct (SolanaTokenBuyer.checkMeteora w a) as [info|] eqn:Hmt;
            [ | destruct (SolanaTokenBuyer.checkRaydium w a) eqn:Hrd ] ] ]
  | ].

(** A chain-B call stopped by one of the guards contacts no venue. *)
Lemma guarded_call_probes_nothing w a :
  reaches_routing w a = false ->
  probed (BSCTokenBuyer.buyToken w a).2 = []
  /\ traded (BSCTokenBuyer.buyToken w a).2 = []
  /\ success (BSCTokenBuyer.buyToken w a).1 = false.
Proof.
  unfold reaches_routing. bsc_cases w a; cbn; try done.
  all: rewrite ?Hlow, ?Htok; by cbn.
Qed.

(** The three branches of the routing on the example node. *)
Example routes_to_FourMeme :
  BSCTokenBuyer.buyToken (bsc_node 3.7 true true true true) token_0x
  = (Bought "0xabc" "Four.meme" 3 (Some "42") None,
     [EvGetBalance; EvGetTokenInfo token_0x; EvProbe FourMeme token_0x;
      EvTrade FourMeme token_0x 3]).
Proof. by vm_compute. Qed.

Example routes_to_PancakeSwap :
  BSCTokenBuyer.buyToken (bsc_node 3.7 true false true true) token_0x
  = (Failed "ABI encoding params/values length mismatch.",
     [EvGetBalance; EvGetTokenInfo token_0x; EvProbe FourMeme token_0x;
      EvProbe PancakeSwap token_0x; EvTrade PancakeSwap token_0x 3]).
Proof. by vm_compute. Qed.

Example routes_nowhere :
  BSCTokenBuyer.buyToken (bsc_node 3.7 true false false true) token_0x
  = (Failed "Token not available on supported platforms",
     [EvGetBalance; EvGetTokenInfo token_0x; EvProbe FourMeme token_0x;
      EvProbe PancakeSwap token_0x]).
Proof. by vm_compute. Qed.

(** C1, as the specification states it, does not hold for every chain-B
    acquisition: when the token contract lookup fails (here with 5 BNB in
    the wallet and no venue knowing the token) the call returns
    'Invalid token contract' and no venue is probed at all. *)
Lemma C1_token_contract_guard :
  BSCTokenBuyer.buyToken (bsc_node 5 false false false true) token_0x
  = (Failed "Invalid token contract", [EvGetBalance; EvGetTokenInfo token_0x])
  /\ ~ routes_by_priority (bsc_node 5 false false false true) token_0x.
Proof.
  split; [by vm_compute|].
  intros H. vm_compute in H. destruct H as [H _]. discriminate H.
Qed.

(** C1, amended. A chain-B acquisition that gets past the guards of
    [buyToken] (well-formed address, a whole-unit balance of at least 1,
    token contract found) probes Four.meme first and trades there, without
    probing PancakeSwap, when Four.meme reports the token available;
    otherwise (Four.meme says no, or its probe errors) it probes PancakeSwap
    and trades there when liquidity is reported; when neither venue is
    available it trades nothing and fails with 'Token not available on
    supported platforms'.  An acquisition stopped by one of the guards
    fails without probing any venue and without trading. *)
Theorem C1_bsc_routes_by_priority (w : BSCTokenBuyer.world) (a : string) :
  (reaches_routing w a = true -> routes_by_priority w a)
  /\ (reaches_routing w a = false ->
      probed (BSCTokenBuyer.buyToken w a).2 = []
      /\ traded (BSCTokenBuyer.buyToken w a).2 = []
      /\ success (BSCTokenBuyer.buyToken w a).1 = false)
  /\ (forall message, BSCTokenBuyer.isTokenLive w a = Throws message ->
                      BSCTokenBuyer.checkFourMeme w a = false).
Proof.
  split; [|split; [apply guarded_call_probes_nothing|]].
  - unfold reaches_routing, routes_by_priority.
    bsc_cases w a; cbn; try done; rewrite ?Hlow, ?Htok; cbn; try done; intros _.
    + split; [done|]. by eexists.
    + split; [done|]. by eexists.
  - intros message H. unfold BSCTokenBuyer.checkFourMeme. by rewrite H.
Qed.

Lemma C1_bsc_routes_by_priority_witness :
  reaches_routing (bsc_node 3.7 true false true true) token_0x = true
  /\ routes_by_priority (bsc_node 3.7 true false true true) token_0x.
Proof.
  split; [vm_compute; reflexivity|].
  apply (proj1 (C1_bsc_routes_by_priority _ _)). vm_compute; reflexivity.
Defined.

(** A trade that fails on the first available venue ends the call. *)
Example failed_trade_is_final :
  SolanaTokenBuyer.buyToken (solana_node 2.5 true) "So11111111111111111111111111111111111111112"
  = (Failed "Transaction simulation failed",
     [EvGetBalance; EvProbe PumpFun "So11111111111111111111111111111111111111112";
      EvTrade PumpFun "So11111111111111111111111111111111111111112" 2]).
Proof. by vm_compute. Qed.

(** C2. On either chain, once [buyToken] has called the trade adapter of a
    venue, what the adapter answers is what [buyToken] returns (so a failed
    attempt is returned as that failure), the attempt is the last call of
    the run (no venue is probed or traded on after it), no trade was
    attempted before it, and the venue traded on is the last one probed. *)
Theorem C2_trade_attempt_is_final
        (R : router) (a : string) (v : venue) (a' : string) (amount : float) :
  EvTrade v a' amount ∈ (acquire R a).2 ->
  attempt R v a' amount = Some (acquire R a).1
  /\ (forall e, attempt R v a' amount = Some (Failed e) -> (acquire R a).1 = Failed e)
  /\ exists before,
      (acquire R a).2 = before ++ [EvTrade v a' amount]
      /\ traded before = []
      /\ last (probed before) = Some v.
Proof.
  assert (Hfail : forall r : buyResult,
             attempt R v a' amount = Some r ->
             forall e, attempt R v a' amount = Some (Failed e) -> r = Failed e)
    by (intros r -> e [= ->]; done).
  destruct R as [w|w]; cbn [acquire].
  - bsc_cases w a; cbn [fst snd]; intros H; in_trace.
    + split; [done|]. split; [by apply Hfail|].
      by exists [EvGetBalance; EvGetTokenInfo a; EvProbe FourMeme a].
    + split; [done|]. split; [by apply Hfail|].
      by exists [EvGetBalance; EvGetTokenInfo a; EvProbe FourMeme a;
                 EvProbe PancakeSwap a].
  - solana_cases w a; cbn [fst snd]; intros H; in_trace.
    + split; [done|]. split; [by apply Hfail|].
      by exists [EvGetBalance; EvProbe PumpFun a].
    + assert (Hatt : attempt (SolanaRouter w) Meteora a (JS.Math_floor bal)
                     = Some (SolanaTokenBuyer.buyOnMeteora w a (JS.Math_floor bal) info))
        by (cbn [attempt]; by rewrite Hmt).
      split; [done|]. split; [by apply Hfail|].
      by exists [EvGetBalance; EvProbe PumpFun a; EvProbe Meteora a].
    + split; [done|]. split; [by apply Hfail|].
      by exists [EvGetBalance; EvProbe PumpFun a; EvProbe Meteora a;
                 EvProbe Raydium a].
Qed.

Lemma C2_trade_attempt_is_final_witness :
  EvTrade PumpFun "So11111111111111111111111111111111111111112" 2
    ∈ (acquire (SolanaRouter (solana_node 2.5 true))
               "So11111111111111111111111111111111111111112").2
  /\ (acquire (SolanaRouter (solana_node 2.5 true))
              "So11111111111111111111111111111111111111112").1
     = Failed "Transaction simulation failed".
Proof.
  assert (H : EvTrade PumpFun "So11111111111111111111111111111111111111112" 2
                ∈ (acquire (SolanaRouter (solana_node 2.5 true))
                           "So11111111111111111111111111111111111111112").2).
  { vm_compute. do 2 right. left. }
  split; [exact H|].
  apply (C2_trade_attempt_is_final _ _ _ _ _ H). vm_compute. reflexivity.
Defined.



(** The balance the chain-B buyer floors is a number:
    [parseFloat(formatEther(wei))], the binary64 number nearest to the
    balance.  With 1999999999999999999 wei, one wei short of 2 BNB, the
    number read is 2 and the call trades 2 BNB. *)
Example balance_is_rounded_before_the_floor :
  BSCTokenBuyer.getBalance (bsc_wallet 1999999999999999999 true true true true)
  = Returns 2%float
  /\ traded (BSCTokenBuyer.buyToken (bsc_wallet 1999999999999999999 true true true true)
                                    token_0x).2
     = [(FourMeme, 2%float)]
  /\ (1999999999999999999 / 10 ^ 18 = 1)%Z
  /\ Viem.parseFloat_formatEther 3700000000000000000 = 3.7%float
  /\ Viem.parseFloat_formatEther 1 = 1e-18%float
  /\ Viem.parseFloat_formatEther 1999999999999999888 = 1.9999999999999998%float.
Proof. repeat split; by vm_compute. Qed.



(** C10. For an address that is not [0x] followed by exactly 40 hexadecimal
    digits, the chain-B [buyToken] (in both revisions of the buyer) returns
    'Invalid address format' without any call: neither the balance is read
    nor a venue contacted.  The chain-A [buyToken] has no such check: for
    the same address it starts by reading the balance and, the balance
    permitting, goes on to probe Pump.fun with it. *)
Theorem C10_format_check_only_on_chain_B (a : string) :
  ~ is_0x_40_hex a ->
  (forall w, BSCTokenBuyer.buyToken w a = (Failed "Invalid address format", []))
  /\ (forall w, BSCTokenBuyer.V1.buyToken w a = (Failed "Invalid address format", []))
  /\ (forall w, head (SolanaTokenBuyer.buyToken w a).2 = Some EvGetBalance)
  /\ (forall w balance,
        SolanaTokenBuyer.getBalance w = Returns balance ->
        PrimFloat.ltb (JS.Math_floor balance) 1 = false ->
        EvProbe PumpFun a ∈ (SolanaTokenBuyer.buyToken w a).2).
Proof.
  intros Hbad.
  assert (Hfmt : BSCTokenBuyer.validFormat a = false).
  { destruct (BSCTokenBuyer.validFormat a) eqn:E; [|done].
    by apply validFormat_spec in E. }
  repeat split.
  - intros w. unfold BSCTokenBuyer.buyToken. by rewrite Hfmt.
  - intros w. unfold BSCTokenBuyer.V1.buyToken. by rewrite Hfmt.
  - intros w. solana_cases w a; done.
  - intros w balance Hb Hlow. unfold SolanaTokenBuyer.buyToken.
    rewrite Hb. cbn zeta. rewrite Hlow.
    repeat case_match; cbn [snd]; right; left.
Qed.

Lemma not_an_address : ~ is_0x_40_hex "0x742d35Cc6634C0532925a3b844Bc8e7E5313A7b".
Proof. intros H%validFormat_spec. vm_compute in H. discriminate H. Defined.

Lemma C10_format_check_only_on_chain_B_witness :
  BSCTokenBuyer.buyToken (bsc_node 5 true true true true)
                         "0x742d35Cc6634C0532925a3b844Bc8e7E5313A7b"
  = (Failed "Invalid address format", [])
  /\ EvProbe PumpFun "0x742d35Cc6634C0532925a3b844Bc8e7E5313A7b"
       ∈ (SolanaTokenBuyer.buyToken (solana_node 5 false)
            "0x742d35Cc6634C0532925a3b844Bc8e7E5313A7b").2.
Proof.
  pose proof (C10_format_check_only_on_chain_B _ not_an_address) as (H1 & _ & _ & H4).
  split; [apply H1|]. apply (H4 _ 5%float); vm_compute; reflexivity.
Defined.

End RouterClaims.

(* ===================================================================== *)
(** ** Claims about the Dedup Ledger and the Monitor Scheduler *)
(* ===================================================================== *)

Section MonitorClaims.
Import TwitterMonitor.
Variable clock : nat -> string.
Variable cfg : config.

Lemma analyzed_app l1 l2 : analyzed (l1 ++ l2) = analyzed l1 ++ analyzed l2.
Proof. apply omap_app. Qed.

Lemma alerted_app l1 l2 : alerted (l1 ++ l2) = alerted l1 ++ alerted l2.
Proof. apply omap_app. Qed.

Lemma analyzed_one e :
  analyzed [e] = match e with Analyze i => [i] | _ => [] end.
Proof. by destruct e. Qed.

Lemma alerted_one e :
  alerted [e] = match e with Alert a => [alert_id a] | _ => [] end.
Proof. by destruct e. Qed.

(** Buying raises no alert and classifies nothing. *)
Lemma autoBuyTokens_quiet a :
  analyzed (autoBuyTokens cfg a) = [] /\ alerted (autoBuyTokens cfg a) = [].
Proof.
  assert (H : forall c (l : list string),
             analyzed (AutoBuy c <$> l) = [] /\ alerted (AutoBuy c <$> l) = []).
  { intros c l. induction l as [|x l [IH1 IH2]]; [done|]. by cbn. }
  unfold autoBuyTokens. rewrite analyzed_app, alerted_app.
  repeat case_match; rewrite ?(proj1 (H _ _)), ?(proj2 (H _ _)); done.
Qed.

(** Rewriting the classified and alerted identifiers of a log. *)
Ltac read_log :=
  rewrite ?analyzed_app, ?alerted_app, ?analyzed_one, ?alerted_one,
    ?(proj1 (autoBuyTokens_quiet _)), ?(proj2 (autoBuyTokens_quiet _)),
    ?app_nil_r.

(** Reading the fields of a rebuilt state. *)
Ltac fields :=
  cbn [now add_processed tick_clock emit set_running processedTweets log
       clockReads isRunning intervalId snd fst alert_id].

(** A tweet already in the ledger is skipped. *)
Lemma processTweet_seen st tw :
  id tw ∈ processedTweets st -> processTweet clock cfg st tw = (None, st).
Proof. intros H. unfold processTweet. by rewrite bool_decide_eq_true_2. Qed.

Lemma visit_seen st tw : id tw ∈ processedTweets st -> visit clock cfg st tw = st.
Proof. intros H. unfold visit. by rewrite bool_decide_eq_true_2. Qed.

(** A tweet not yet in the ledger is marked, classified once and, when
    it carries a signal, alerted on once. *)
Lemma processTweet_new st tw :
  id tw ∉ processedTweets st ->
  ledger_view (processTweet clock cfg st tw).2
  = ({[ id tw ]} ∪ processedTweets st,
     analyzed (log st) ++ [id tw],
     alerted (log st) ++ (if has_signal clock (clockReads st) tw then [id tw] else []))
  /\ isRunning (processTweet clock cfg st tw).2 = isRunning st
  /\ intervalId (processTweet clock cfg st tw).2 = intervalId st
  /\ ((processTweet clock cfg st tw).1 = None <->
      has_signal clock (clockReads st) tw = false).
Proof.
  intros H. unfold processTweet, has_signal, ledger_view.
  rewrite bool_decide_eq_false_2 by done. fields.
  destruct (AddressDetector.hasCryptoContent _) eqn:Hsig.
  - destruct (timeParsed tw) as [t'|], (autoBuyEnabled cfg);
      fields; read_log; fields; by repeat split.
  - fields. read_log. by repeat split.
Qed.

Lemma visit_new st tw :
  id tw ∉ processedTweets st ->
  ledger_view (visit clock cfg st tw)
  = ({[ id tw ]} ∪ processedTweets st,
     analyzed (log st) ++ [id tw],
     alerted (log st) ++ (if has_signal clock (clockReads st) tw then [id tw] else []))
  /\ isRunning (visit clock cfg st tw) = isRunning st
  /\ intervalId (visit clock cfg st tw) = intervalId st.
Proof.
  intros H. destruct (processTweet_new st tw H) as (Hv & Hr & Hi & _).
  unfold visit. rewrite bool_decide_eq_false_2 by done. cbn [negb].
  destruct (processTweet clock cfg st tw) as [[result|] st'] eqn:E; cbn [snd] in *;
    [|done].
  unfold ledger_view in *.
  destruct (truthy_str (webhookUrl cfg)); fields; read_log; done.
Qed.

Lemma checkForNewTweets_fold st tweets :
  checkForNewTweets clock cfg st tweets = foldl (visit clock cfg) st (reverse tweets).
Proof. unfold checkForNewTweets. by destruct tweets. Qed.

Lemma visit_grows st tw : processedTweets st ⊆ processedTweets (visit clock cfg st tw).
Proof.
  destruct (decide (id tw ∈ processedTweets st)) as [Hin|Hout].
  - by rewrite visit_seen.
  - destruct (visit_new st tw Hout) as ([= -> _ _] & _). set_solver.
Qed.

Lemma visit_ok st tw : ledger_ok st -> ledger_ok (visit clock cfg st tw).
Proof.
  intros (HA & HAP & HL & HLA).
  destruct (decide (id tw ∈ processedTweets st)) as [Hin|Hout].
  { by rewrite visit_seen. }
  destruct (visit_new st tw Hout) as (Hview & _).
  injection Hview as HP' HA' HL'.
  unfold ledger_ok. rewrite HP', HA', HL'. clear HP' HA' HL'.
  assert (HnA : id tw ∉ analyzed (log st)) by (intros ?; by apply Hout, HAP).
  assert (HnL : id tw ∉ alerted (log st)) by (intros ?; by apply HnA, HLA).
  repeat split.
  - apply NoDup_app. repeat split; [done| |apply NoDup_singleton].
    intros i Hi ->%list_elem_of_singleton. done.
  - intros [Hi| ->%list_elem_of_singleton]%elem_of_app.
    + apply elem_of_union. right. by apply HAP.
    + apply elem_of_union. left. by apply elem_of_singleton.
  - intros [->%elem_of_singleton|Hi]%elem_of_union; apply elem_of_app.
    + right. by apply list_elem_of_singleton.
    + left. by apply HAP.
  - destruct (has_signal _ _ _); [|by rewrite app_nil_r].
    apply NoDup_app. repeat split; [done| |apply NoDup_singleton].
    intros i Hi ->%list_elem_of_singleton. done.
  - intros i Hi. apply elem_of_app.
    destruct (has_signal _ _ _); [|rewrite app_nil_r in Hi; left; by apply HLA].
    apply elem_of_app in Hi as [Hi|Hi]; [left; by apply HLA | by right].
Qed.

Lemma foldl_visit_grows l : forall st,
  processedTweets st ⊆ processedTweets (foldl (visit clock cfg) st l).
Proof.
  induction l as [|tw l IH]; intros st; [done|]. cbn [foldl].
  etrans; [apply (visit_grows st tw) | apply IH].
Qed.

Lemma foldl_visit_ok l : forall st,
  ledger_ok st -> ledger_ok (foldl (visit clock cfg) st l).
Proof.
  induction l as [|tw l IH]; intros st Hst; [done|]. cbn [foldl].
  by apply IH, visit_ok.
Qed.

Lemma processTweet_grows st tw :
  processedTweets st ⊆ processedTweets (processTweet clock cfg st tw).2.
Proof.
  destruct (decide (id tw ∈ processedTweets st)) as [Hin|Hout].
  - by rewrite processTweet_seen.
  - destruct (processTweet_new st tw Hout) as ([= -> _ _] & _). set_solver.
Qed.

Lemma processTweet_ok st tw :
  ledger_ok st -> ledger_ok (processTweet clock cfg st tw).2.
Proof.
  intros Hst.
  destruct (decide (id tw ∈ processedTweets st)) as [Hin|Hout].
  { by rewrite processTweet_seen. }
  pose proof (visit_ok st tw Hst) as Hv.
  destruct (visit_new st tw Hout) as (Hview & _).
  injection Hview as HP HA HL.
  destruct (processTweet_new st tw Hout) as (Hview' & _).
  injection Hview' as HP' HA' HL'.
  unfold ledger_ok in *. by rewrite HP', HA', HL', <- HP, <- HA, <- HL.
Qed.

(** No operation of the monitor takes an identifier out of the ledger. *)
Lemma step_grows st o : processedTweets st ⊆ processedTweets (step clock cfg st o).
Proof.
  destruct o as [fetched|fetched|fetched|tw|]; cbn [step].
  - unfold startMonitoring. destruct (isRunning st); [done|]. fields.
    rewrite checkForNewTweets_fold.
    etrans; [|apply foldl_visit_grows]. done.
  - unfold onInterval. destruct (_ && _); [|done].
    rewrite checkForNewTweets_fold. apply foldl_visit_grows.
  - rewrite checkForNewTweets_fold. apply foldl_visit_grows.
  - apply processTweet_grows.
  - done.
Qed.

Lemma set_running_ok r t st : ledger_ok st -> ledger_ok (set_running r t st).
Proof. done. Qed.

Lemma step_ok st o : ledger_ok st -> ledger_ok (step clock cfg st o).
Proof.
  intros Hst. destruct o as [fetched|fetched|fetched|tw|]; cbn [step].
  - unfold startMonitoring. destruct (isRunning st); [done|].
    apply set_running_ok. rewrite checkForNewTweets_fold.
    by apply foldl_visit_ok, set_running_ok.
  - unfold onInterval. destruct (_ && _); [|done].
    rewrite checkForNewTweets_fold. by apply foldl_visit_ok.
  - rewrite checkForNewTweets_fold. by apply foldl_visit_ok.
  - by apply processTweet_ok.
  - by apply set_running_ok.
Qed.

Lemma run_ok ops : forall st, ledger_ok st -> ledger_ok (run clock cfg st ops).
Proof.
  induction ops as [|o ops IH]; intros st Hst; [done|].
  cbn [run foldl]. by apply IH, step_ok.
Qed.

Lemma initial_ok : ledger_ok initial.
Proof.
  unfold ledger_ok, initial. cbn.
  split; [apply NoDup_nil_2|]. split; [|split; [apply NoDup_nil_2|]].
  - intros i. split; intros Hi; [by apply elem_of_nil in Hi | by apply elem_of_empty in Hi].
  - intros i Hi. by apply elem_of_nil in Hi.
Qed.

(** Feeding again a tweet that is in the ledger changes nothing. *)
Lemma run_again st tw n :
  id tw ∈ processedTweets st ->
  run clock cfg st (replicate n (OpCheck [tw])) = st.
Proof.
  intros Hin. induction n as [|n IH]; [done|].
  cbn [replicate run foldl step]. rewrite checkForNewTweets_fold.
  cbn [reverse rev_append foldl]. rewrite visit_seen by done. exact IH.
Qed.

(** C6. The ledger only grows: no operation of the monitor (start, timer
    tick, check, processing of one tweet, stop) removes an identifier from
    [processedTweets], from whatever state.  A tweet whose identifier is in
    the ledger is skipped by [processTweet] and by the scheduler loop, which
    leave the monitor as it was.  Hence, over any sequence of operations
    from the start of the process, the identifiers in the ledger are those
    that were classified, none was classified twice, and none was alerted
    on twice or without having been classified; and feeding the same tweet
    through the scheduler any number of times (at least once) classifies it
    exactly once and alerts on it exactly once when it carries a signal
    (never otherwise). *)
Theorem C6_dedup_ledger_processes_once
        (st : state) (o : operation) (ops : list operation) (tw : tweet) (n : nat) :
  processedTweets st ⊆ processedTweets (step clock cfg st o)
  /\ (id tw ∈ processedTweets st ->
      processTweet clock cfg st tw = (None, st) /\ visit clock cfg st tw = st)
  /\ ledger_ok (run clock cfg initial ops)
  /\ ledger_view (run clock cfg initial (replicate (S n) (OpCheck [tw])))
     = ({[ id tw ]}, [id tw], if has_signal clock 0 tw then [id tw] else []).
Proof.
  split; [apply step_grows|].
  split; [intros Hin; split; [by apply processTweet_seen | by apply visit_seen]|].
  split; [apply run_ok, initial_ok|].
  assert (Hout : id tw ∉ processedTweets initial) by (cbn; set_solver).
  destruct (visit_new initial tw Hout) as (Hview & _).
  change (run clock cfg initial (replicate (S n) (OpCheck [tw])))
    with (run clock cfg (checkForNewTweets clock cfg initial [tw])
              (replicate n (OpCheck [tw]))).
  rewrite checkForNewTweets_fold.
  change (foldl (visit clock cfg) initial (reverse [tw]))
    with (visit clock cfg initial tw).
  rewrite (run_again (visit clock cfg initial tw) tw n).
  - rewrite Hview. cbn [initial processedTweets log clockReads analyzed alerted omap app].
    by rewrite (right_id_L ∅ (∪)).
  - injection Hview as -> _ _. set_solver.
Qed.

(** The scheduler of the current revision classifies fresh tweets in the
    reverse of the order in which the feed delivered them. *)
Lemma foldl_visit_order l : forall st,
  NoDup (id <$> l) ->
  (forall tw, tw ∈ l -> id tw ∉ processedTweets st) ->
  analyzed (log (foldl (visit clock cfg) st l)) = analyzed (log st) ++ (id <$> l).
Proof.
  induction l as [|x l IH]; intros st Hnd Hnew; [by rewrite app_nil_r|].
  cbn [foldl fmap list_fmap]. apply NoDup_cons in Hnd as [Hx Hnd].
  destruct (visit_new st x) as (Hview & _); [apply Hnew; left|].
  injection Hview as HP HA _.
  rewrite IH, HA, <- app_assoc; [done | done |].
  intros tw Htw. rewrite HP. intros [Heq%elem_of_singleton|Hin]%elem_of_union.
  - apply Hx. rewrite <- Heq. by apply list_elem_of_fmap_2.
  - by apply (Hnew tw); [right|].
Qed.

Lemma checkForNewTweets_oldest_first st tweets :
  NoDup (id <$> tweets) ->
  (forall tw, tw ∈ tweets -> id tw ∉ processedTweets st) ->
  analyzed (log (checkForNewTweets clock cfg st tweets))
  = analyzed (log st) ++ reverse (id <$> tweets).
Proof.
  intros Hnd Hnew. rewrite checkForNewTweets_fold, foldl_visit_order.
  - by rewrite fmap_reverse.
  - by rewrite fmap_reverse, reverse_Permutation.
  - intros tw Htw. apply Hnew. by apply elem_of_reverse.
Qed.

(** The earlier revision classifies them in the order of the feed. *)
Lemma visit_v1_new st tw :
  id tw ∉ processedTweets st ->
  processedTweets (visit_v1 clock cfg st tw) = {[ id tw ]} ∪ processedTweets st
  /\ analyzed (log (visit_v1 clock cfg st tw)) = analyzed (log st) ++ [id tw].
Proof.
  intros H. unfold visit_v1, processTweet_v1.
  rewrite !bool_decide_eq_false_2 by done. cbn [negb]. fields.
  destruct (AddressDetector.hasCryptoContent _);
    [destruct (timeParsed tw) as [t'|], (autoBuyEnabled cfg),
       (truthy_str (webhookUrl cfg))|];
    fields; read_log; fields; done.
Qed.

Lemma checkForNewTweets_v1_feed_order tweets : forall st,
  NoDup (id <$> tweets) ->
  (forall tw, tw ∈ tweets -> id tw ∉ processedTweets st) ->
  analyzed (log (checkForNewTweets_v1 clock cfg st tweets))
  = analyzed (log st) ++ (id <$> tweets).
Proof.
  intros st Hnd Hnew.
  assert (Hfold : checkForNewTweets_v1 clock cfg st tweets
                  = foldl (visit_v1 clock cfg) st tweets)
    by (unfold checkForNewTweets_v1; by destruct tweets).
  rewrite Hfold. clear Hfold. revert st Hnd Hnew.
  induction tweets as [|x l IH]; intros st Hnd Hnew; [by rewrite app_nil_r|].
  cbn [foldl fmap list_fmap]. apply NoDup_cons in Hnd as [Hx Hnd].
  destruct (visit_v1_new st x) as (HP & HA); [apply Hnew; left|].
  rewrite IH, HA, <- app_assoc; [done | done |].
  intros tw Htw. rewrite HP. intros [Heq%elem_of_singleton|Hin]%elem_of_union.
  - apply Hx. rewrite <- Heq. by apply list_elem_of_fmap_2.
  - by apply (Hnew tw); [right|].
Qed.

End MonitorClaims.

Lemma nodup_by_decide (l : list string) : bool_decide (NoDup l) = true -> NoDup l.
Proof. apply bool_decide_eq_true_1. Qed.

(** C7. The scheduler of the current revision, given the tweets
    [P3; P2; P1] as the feed delivers them (newest first), classifies them
    as P1, P2, P3.  The scheduler of the earlier revision, given the same
    list, classifies them as P3, P2, P1: it walks the list as fetched. *)
Theorem C7_earlier_scheduler_walks_feed_order :
  TwitterMonitor.analyzed
    (TwitterMonitor.log
       (TwitterMonitor.checkForNewTweets wall_clock watch_only
          TwitterMonitor.initial [P3; P2; P1]))
  = ["1"; "2"; "3"]
  /\ TwitterMonitor.analyzed
       (TwitterMonitor.log
          (TwitterMonitor.checkForNewTweets_v1 wall_clock watch_only
             TwitterMonitor.initial [P3; P2; P1]))
     = ["3"; "2"; "1"].
Proof.
  split.
  - rewrite checkForNewTweets_oldest_first; [done | | ].
    + apply nodup_by_decide. by vm_compute.
    + intros tw _. apply not_elem_of_empty.
  - rewrite checkForNewTweets_v1_feed_order; [done | | ].
    + apply nodup_by_decide. by vm_compute.
    + intros tw _. apply not_elem_of_empty.
Qed.

(* ===================================================================== *)
(** ** Claims about the Position Tracker *)
(* ===================================================================== *)

Section TrackerClaims.
Import ProfitTracker.
Variable parseFloat : string -> float.

(** Positions are revalued one by one, each from its own price. *)
Lemma updateProfitLoss_lookup w positions n :
  updateProfitLoss parseFloat w positions !! n
  = (fun p => revalue parseFloat (currentPrice parseFloat w n p) p) <$> positions !! n.
Proof. unfold updateProfitLoss. apply list_lookup_imap. Qed.

(** One revaluation tick on two positions, the first of which cannot be
    priced: the first keeps its values, the second is revalued. *)
Example tick_with_one_price_down :
  updateProfitLoss parseFloat jupiter [position "down" 500 3; position "up" 1000 1]
  = [position "down" 500 3;
     {| purchase_id := 1700000000000; chain := "solana"; tokenAddress := "up";
        platform := "Pump.fun"; amount := 1; tokensReceived := JNum 1000;
        purchaseTime := "2024-01-01T00:00:00.000Z";
        currentValue := 2; profitLoss := 1; profitPercentage := 100 |}].
Proof. by vm_compute. Qed.

(** C8. One revaluation tick treats every position on its own.  A position
    for which the price source answers a usable price (a number other than
    0 and NaN, which [if (currentPrice)] lets through) gets
    [currentValue = quantityReceived * currentPrice] and
    [profitLoss = currentValue - amount], in binary64 arithmetic, its other
    recorded fields unchanged; a position for which the price query fails
    (or answers no usable number) is left exactly as it was; neither case
    depends on what happens to the other positions.  With a quantity of
    1000, a price of 0.002 and a cost of 1.0 the value is 2.0 and the
    profit 1.0. *)
Theorem C8_revaluation_per_position
        (w : world) (positions : list purchase) (n : nat) (p : purchase) :
  positions !! n = Some p ->
  exists p',
    updateProfitLoss parseFloat w positions !! n = Some p'
    /\ (forall price,
           currentPrice parseFloat w n p = Some price -> JS.truthy price = true ->
           currentValue p' = (quantityReceived parseFloat p * price)%float
           /\ profitLoss p' = (currentValue p' - amount p)%float
           /\ amount p' = amount p
           /\ tokensReceived p' = tokensReceived p
           /\ tokenAddress p' = tokenAddress p
           /\ chain p' = chain p)
    /\ (JS.truthy_opt (currentPrice parseFloat w n p) = false -> p' = p)
    /\ length (updateProfitLoss parseFloat w positions) = length positions
    /\ currentValue (revalue parseFloat (Some 0.002%float) (position "up" 1000 1))
         = 2%float
    /\ profitLoss (revalue parseFloat (Some 0.002%float) (position "up" 1000 1))
         = 1%float.
Proof.
  intros Hp. exists (revalue parseFloat (currentPrice parseFloat w n p) p).
  split; [by rewrite updateProfitLoss_lookup, Hp|].
  split; [|split; [|split; [|split; by vm_compute]]].
  - intros price -> Hprice. unfold revalue. rewrite Hprice. by cbn.
  - unfold revalue, JS.truthy_opt.
    destruct (currentPrice parseFloat w n p) as [price|]; [|done].
    by intros ->.
  - unfold updateProfitLoss. apply length_imap.
Qed.

End TrackerClaims.

Lemma C8_revaluation_per_position_witness :
  exists p',
    ProfitTracker.updateProfitLoss (fun _ => nan) jupiter [position "down" 500 3; position "up" 1000 1]
      !! 1 = Some p'
    /\ ProfitTracker.currentValue p' = 2%float /\ ProfitTracker.profitLoss p' = 1%float.
Proof.
  destruct (C8_revaluation_per_position (fun _ => nan) jupiter
              [position "down" 500 3; position "up" 1000 1] 1 (position "up" 1000 1)
              eq_refl) as (p' & Hp' & Hok & _).
  exists p'. split; [exact Hp'|].
  destruct (Hok 0.002%float) as (Hv & Hl & _); [by vm_compute | by vm_compute |].
  rewrite Hl, Hv. split; by vm_compute.
Defined.

(* ===================================================================== *)
(** ** Further properties of the code *)
(* ===================================================================== *)

(** *** The classifier: what it reports *)

Section ClassifierExtras.
Import Regex AddressDetector.

Lemma bsc_exec_shape prev s len :
  exec_at false bscRegex prev s = Some len ->
  exists h, take len s = "0"%char :: "x"%char :: h /\ length h = 40 /\
            Forall (fun c => in_class hex_class c = true) h.
Proof.
  unfold exec_at, bscRegex. cbn [Seqs Str]. rewrite m_Seq, m_WordB.
  destruct (xorb _ _); [|done].
  repeat (rewrite ?m_Seq, ?m_Lit_false, ?m_Eps; cbn beta).
  destruct s as [|c0 s]; [done|].
  destruct (Ascii.eqb_spec "0" c0) as [<-|]; [|done].
  repeat (rewrite ?m_Seq, ?m_Lit_false, ?m_Eps; cbn beta).
  destruct s as [|c1 s]; [done|].
  destruct (Ascii.eqb_spec "x" c1) as [<-|]; [|done].
  repeat (rewrite ?m_Seq, ?m_Eps, ?m_Rep; cbn beta).
  destruct (repeat_m _ _ _ _ _ _) as [rest|] eqn:E; [|done].
  intros [= <-].
  apply repeat_class_sound in E as (n & Hn & Hlen & Hall & Hk).
  cbn beta in Hk. rewrite m_Seq, m_WordB in Hk.
  destruct (xorb _ _) in Hk; [|done].
  rewrite m_Eps in Hk. injection Hk as <-.
  assert (n = 40) as -> by lia.
  cbn [length]. rewrite length_drop.
  replace (S (S (length s)) - (length s - 40)) with 42 by lia.
  cbn [take]. exists (take 40 s). split; [done|]. split; [rewrite length_take; lia|].
  eapply Forall_impl; [exact Hall|]. intros c Hc. cbn beta in Hc.
  by rewrite class_match_cs in Hc.
Qed.

Lemma match_all_substring ci r text a :
  a ∈ match_all ci r text -> substring_of a text.
Proof.
  intros (pre & p & s' & len & Htext & _ & Ha)%match_all_chars.
  exists pre, (drop len s'). by rewrite Ha, take_drop.
Qed.

Lemma isValidBSCAddress_spec a : isValidBSCAddress a = true <-> is_0x_40_hex a.
Proof.
  rewrite <- validFormat_spec. unfold isValidBSCAddress, BSCTokenBuyer.validFormat.
  by destruct (matches false bscExactRegex a).
Qed.

Lemma bsc_candidate_shape text a :
  a ∈ match_all false bscRegex text -> is_0x_40_hex a.
Proof.
  intros (pre & p & s' & len & Htext & Hexec & Ha)%match_all_chars.
  apply bsc_exec_shape in Hexec as (h & Hh & ? & ?).
  exists h. by rewrite Ha.
Qed.

Lemma filter_all {A} (P : A -> Prop) `{!forall x, Decision (P x)} (l : list A) :
  Forall P l -> filter P l = l.
Proof.
  induction 1 as [|x l Hx _ IH]; [done|].
  by rewrite filter_cons_True, IH.
Qed.

(** X1. [extractBSCAddresses] returns every match of the BSC pattern: the
    validity filter [isValidBSCAddress] accepts exactly the strings made of
    [0x] and 40 hexadecimal digits, which every match is, so it removes
    nothing.  Each address returned has that shape and stands in the text. *)
Theorem extractBSCAddresses_accepts_every_candidate (text : string) :
  (forall a, isValidBSCAddress a = true <-> is_0x_40_hex a)
  /\ extractBSCAddresses text = match_all false bscRegex text
  /\ Forall (fun a => is_0x_40_hex a /\ substring_of a text) (extractBSCAddresses text).
Proof.
  split; [apply isValidBSCAddress_spec|].
  assert (Hsame : extractBSCAddresses text = match_all false bscRegex text).
  { unfold extractBSCAddresses. apply filter_all, Forall_forall.
    intros a Ha. by apply isValidBSCAddress_spec, (bsc_candidate_shape text). }
  split; [exact Hsame|].
  rewrite Hsame. apply Forall_forall. intros a Ha. split.
  - by apply (bsc_candidate_shape text).
  - by apply (match_all_substring false bscRegex).
Qed.

(** X2. No string is reported by [analyzeTweet] both as a Solana address
    and as a BSC address. *)
Theorem no_address_on_both_chains (now text : string) :
  Forall (fun a => a ∉ bscAddresses (analyzeTweet now text))
         (solanaAddresses (analyzeTweet now text)).
Proof.
  apply Forall_forall. intros a Hsol Hbsc.
  cbn [analyzeTweet solanaAddresses bscAddresses] in Hsol, Hbsc.
  unfold extractSolanaAddresses in Hsol. unfold extractBSCAddresses in Hbsc.
  apply list_elem_of_filter in Hsol as [_ Hsol], Hbsc as [Hbsc _].
  apply solana_candidate_shape in Hsol as [[_ Hall] _].
  apply isValidBSCAddress_spec in Hbsc as (h & Hh & _).
  rewrite Hh in Hall. by inversion Hall.
Qed.

Lemma elem_of_uniq_from x l : forall seen,
  x ∈ uniq_from seen l <-> x ∈ l /\ x ∉ seen.
Proof.
  induction l as [|y l IH]; intros seen; cbn [uniq_from].
  - rewrite !elem_of_nil. tauto.
  - case_bool_decide as Hy.
    + rewrite IH, elem_of_cons. split; [tauto|].
      intros [[->|Hx] Hn]; [done | tauto].
    + rewrite !elem_of_cons, IH, elem_of_cons. split.
      * intros [->|[Hx Hn]]; [tauto|]. split; [tauto|]. intros ?. apply Hn. tauto.
      * intros [[->|Hx] Hn]; [tauto|].
        destruct (decide (x = y)) as [->|Hne]; [tauto|].
        right. split; [done|]. intros [?|?]; [done|]. by apply Hn.
Qed.

Lemma NoDup_uniq_from l : forall seen, NoDup (uniq_from seen l).
Proof.
  induction l as [|y l IH]; intros seen; cbn [uniq_from]; [constructor|].
  case_bool_decide as Hy; [apply IH|].
  constructor; [|apply IH].
  rewrite elem_of_uniq_from, elem_of_cons. tauto.
Qed.

Lemma sublist_uniq_from l : forall seen, sublist (uniq_from seen l) l.
Proof.
  induction l as [|y l IH]; intros seen; cbn [uniq_from]; [constructor|].
  case_bool_decide; [apply sublist_cons, IH | apply sublist_skip, IH].
Qed.

Lemma elem_of_keywords now text k :
  k ∈ keywords (analyzeTweet now text) <->
  exists p, p ∈ keywordPatterns /\ k ∈ match_all p.1 p.2 text.
Proof.
  cbn [analyzeTweet keywords]. unfold containsCryptoKeywords.
  rewrite elem_of_uniq_from, list_elem_of_join. split.
  - intros [(l & Hk & (p & -> & Hp)%list_elem_of_fmap) _]. by exists p.
  - intros (p & Hp & Hk). split; [|apply not_elem_of_nil].
    exists (match_all p.1 p.2 text). split; [done|].
    apply list_elem_of_fmap. by exists p.
Qed.

(** X3. The keyword list of [analyzeTweet] has no duplicates, holds exactly
    the strings matched by one of the keyword patterns, and keeps them in
    the order of the patterns and, within a pattern, of the text. *)
Theorem keywords_listed_once (now text : string) :
  NoDup (keywords (analyzeTweet now text))
  /\ (forall k, k ∈ keywords (analyzeTweet now text) <->
                exists p, p ∈ keywordPatterns /\ k ∈ match_all p.1 p.2 text)
  /\ sublist (keywords (analyzeTweet now text))
             (mjoin ((fun p : bool * regex => match_all p.1 p.2 text) <$> keywordPatterns)).
Proof.
  split; [|split].
  - cbn [analyzeTweet keywords]. unfold containsCryptoKeywords. apply NoDup_uniq_from.
  - intros k. apply elem_of_keywords.
  - cbn [analyzeTweet keywords]. unfold containsCryptoKeywords. apply sublist_uniq_from.
Qed.

End ClassifierExtras.

(** *** The classifier: the words of the keyword patterns *)

Section VocabularyFacts.
Import Regex AddressDetector.

Lemma last_char_app prev x1 x2 :
  last_char prev (x1 ++ x2) = last_char (last_char prev x1) x2.
Proof.
  revert prev. induction x1 as [|c x1 IH]; intros prev; [done|].
  cbn [app]. by rewrite !last_char_cons, IH.
Qed.

Lemma repeat_words_sound ci (step : Matcher) ws mx :
  (forall prev s k rest, step prev s k = Some rest ->
     exists w x s', w ∈ ws /\ s = x ++ s' /\ Forall2 (fun c x => lit_match ci c x = true) w x
                    /\ k (last_char prev x) s' = Some rest) ->
  forall mn prev s k rest,
    repeat_m step mn mx prev s k = Some rest ->
    exists w x s', w ∈ repeat_words ws mx /\ s = x ++ s' /\ Forall2 (fun c x => lit_match ci c x = true) w x
                   /\ k (last_char prev x) s' = Some rest.
Proof.
  intros Hstep. induction mx as [|mx IH]; intros mn prev s k rest H; cbn [repeat_m] in H.
  - destruct (mn =? 0)%nat; [|done].
    exists [], [], s. repeat split; [left | constructor | done].
  - assert (Hstop : (if (mn =? 0)%nat then k prev s else None) = Some rest ->
              exists w x s', w ∈ repeat_words ws (S mx) /\ s = x ++ s'
                /\ Forall2 (fun c x => lit_match ci c x = true) w x /\ k (last_char prev x) s' = Some rest).
    { intros H0. destruct (mn =? 0)%nat; [|done].
      exists [], [], s. repeat split; [left | constructor | done]. }
    destruct (step prev s _) as [r|] eqn:E; [|by apply Hstop].
    injection H as ->.
    apply Hstep in E as (w1 & x1 & s1 & Hw1 & -> & Hx1 & Hk).
    destruct (_ || _) in Hk; [|done].
    apply IH in Hk as (w2 & x2 & s2 & Hw2 & -> & Hx2 & Hk).
    exists (w1 ++ w2), (x1 ++ x2), s2. split; [|split; [|split]].
    + cbn [repeat_words]. right. apply list_elem_of_bind. exists w1. split; [|done].
      apply list_elem_of_fmap. by exists w2.
    + by rewrite <- app_assoc.
    + by apply Forall2_app.
    + by rewrite last_char_app.
Qed.

(** Whatever such a pattern matches is one of its words, letter by letter
    (up to the case of the letters under the [i] flag). *)
Lemma m_words ci r :
  wordy r = true ->
  forall prev s k rest,
    m ci r prev s k = Some rest ->
    exists w x s', w ∈ words r /\ s = x ++ s' /\ Forall2 (fun c x => lit_match ci c x = true) w x
                   /\ k (last_char prev x) s' = Some rest.
Proof.
  induction r as [|c|cs|r1 IH1 r2 IH2|r1 IH1 r2 IH2|mn mx r IH| | |];
    intros Hw prev s k rest H; cbn [wordy] in Hw; cbn [words].
  - exists [], [], s. repeat split; [left | constructor | done].
  - cbn [m] in H. destruct s as [|x s]; [done|].
    destruct (lit_match ci c x) eqn:Hx; [|done].
    exists [c], [x], s. split; [left|]. split; [done|]. split; [|done].
    constructor; [done | constructor].
  - done.
  - apply andb_true_iff in Hw as [Hw1 Hw2]. rewrite m_Seq in H.
    apply (IH1 Hw1) in H as (w1 & x1 & s1 & Hin1 & -> & Hx1 & H).
    apply (IH2 Hw2) in H as (w2 & x2 & s2 & Hin2 & -> & Hx2 & H).
    exists (w1 ++ w2), (x1 ++ x2), s2. split; [|split; [|split]].
    + apply list_elem_of_bind. exists w1. split; [|done].
      apply list_elem_of_fmap. by exists w2.
    + by rewrite <- app_assoc.
    + by apply Forall2_app.
    + by rewrite last_char_app.
  - apply andb_true_iff in Hw as [Hw1 Hw2]. cbn [m] in H.
    destruct (m ci r1 prev s k) as [res|] eqn:E.
    + injection H as ->.
      apply (IH1 Hw1) in E as (w & x & s' & ? & ? & ? & ?).
      exists w, x, s'. rewrite elem_of_app. tauto.
    + apply (IH2 Hw2) in H as (w & x & s' & ? & ? & ? & ?).
      exists w, x, s'. rewrite elem_of_app. tauto.
  - destruct mx as [mx|]; [|done]. rewrite m_Rep in H.
    eapply repeat_words_sound in H; [exact H|]. by apply IH.
  - rewrite m_WordB in H. destruct (xorb _ _); [|done].
    exists [], [], s. repeat split; [left | constructor | done].
  - rewrite m_Bol in H. destruct prev; [done|].
    exists [], [], s. repeat split; [left | constructor | done].
  - rewrite m_Eol in H. destruct s; [|done].
    exists [], [], []. repeat split; [left | constructor | done].
Qed.

Lemma exec_at_words ci r prev s len :
  wordy r = true -> exec_at ci r prev s = Some len ->
  exists w, w ∈ words r /\ Forall2 (fun c x => lit_match ci c x = true) w (take len s).
Proof.
  intros Hw. unfold exec_at.
  destruct (m ci r prev s _) as [rest|] eqn:E; [|done]. intros [= <-].
  apply (m_words ci r Hw) in E as (w & x & s' & Hin & -> & Hx & [= <-]).
  exists w. split; [done|].
  rewrite length_app. replace (length x + length s' - length s') with (length x) by lia.
  by rewrite take_app_length.
Qed.

Lemma elem_of_all_ascii c : c ∈ all_ascii.
Proof.
  unfold all_ascii. apply list_elem_of_fmap. exists (nat_of_ascii c).
  split; [by rewrite ascii_nat_embedding|].
  apply elem_of_seq. pose proof (nat_ascii_bounded c). lia.
Qed.

(** A lower-case letter of a pattern matches, with or without the [i]
    flag, a character whose lower-case form is that letter... *)
Lemma lit_match_lower c x :
  is_lower c = true -> lit_match true c x = true -> to_lower x = c.
Proof.
  assert (Hall : forallb (fun c =>
             if is_lower c
             then forallb (fun x => if lit_match true c x then Ascii.eqb (to_lower x) c
                                    else true) all_ascii
             else true) all_ascii = true) by (by vm_compute).
  intros Hc Hx.
  rewrite forallb_forall in Hall.
  specialize (Hall c (proj1 (list_elem_of_In _ _) (elem_of_all_ascii c))).
  rewrite Hc, forallb_forall in Hall.
  specialize (Hall x (proj1 (list_elem_of_In _ _) (elem_of_all_ascii x))).
  rewrite Hx in Hall. by apply Ascii.eqb_eq in Hall.
Qed.

Lemma lit_match_exact c x : lit_match false c x = true -> x = c.
Proof. unfold lit_match. by intros ->%Ascii.eqb_eq. Qed.

Lemma spelled_lower w x :
  Forall (fun c => is_lower c = true) w -> Forall2 (fun c x => lit_match true c x = true) w x ->
  to_lower <$> x = w.
Proof.
  intros Hw H. induction H as [|c y w x Hc _ IH]; [done|].
  inversion Hw; subst. cbn [fmap list_fmap]. f_equal; [by apply lit_match_lower | by apply IH].
Qed.

Lemma spelled_exact w x : Forall2 (fun c x => lit_match false c x = true) w x -> x = w.
Proof.
  induction 1 as [|c y w x Hc _ IH]; [done|].
  f_equal; [by apply lit_match_exact | done].
Qed.

(** The patterns of the detector are written with the words of the
    vocabulary, those with the [i] flag in lower-case letters. *)
Lemma keywordPatterns_words :
  Forall (fun p : bool * regex =>
            wordy p.2 = true
            /\ Forall (fun w => (p.1, string_of_list_ascii w) ∈ vocabulary
                                /\ (p.1 = true -> Forall (fun c => is_lower c = true) w))
                      (words p.2))
         keywordPatterns.
Proof.
  apply Forall_forall. intros p Hp.
  assert (Hcheck : forallb (fun p : bool * regex =>
            wordy p.2
            && forallb (fun w =>
                  bool_decide ((p.1, string_of_list_ascii w) ∈ vocabulary)
                  && (negb p.1 || forallb is_lower w)) (words p.2))
            keywordPatterns = true) by (by vm_compute).
  rewrite forallb_forall in Hcheck.
  apply list_elem_of_In, Hcheck, andb_true_iff in Hp as [Hwordy Hwords].
  split; [done|]. apply Forall_forall. intros w Hw.
  rewrite forallb_forall in Hwords.
  apply list_elem_of_In, Hwords, andb_true_iff in Hw as [Hvoc Hlow].
  split; [by apply bool_decide_eq_true in Hvoc|].
  intros Hci. rewrite Hci in Hlow. cbn [negb orb] in Hlow.
  rewrite forallb_forall in Hlow. apply Forall_forall.
  intros c Hc. by apply Hlow, list_elem_of_In.
Qed.

(** X4. Every keyword reported by [analyzeTweet] is a word of the fixed
    vocabulary of the detector: spelled exactly for [CA], [SOL], [BSC] and
    [DEX], and up to the case of its letters for the others. *)
Theorem keywords_come_from_the_vocabulary (now text : string) :
  Forall (fun k => exists (ci : bool) (w : string), (ci, w) ∈ vocabulary
                                /\ (if ci then lower k else k) = w)
         (keywords (analyzeTweet now text)).
Proof.
  apply Forall_forall. intros k Hk.
  apply elem_of_keywords in Hk as (p & Hp & Hk).
  pose proof keywordPatterns_words as Hpat.
  rewrite Forall_forall in Hpat. destruct (Hpat p Hp) as [Hwordy Hwords].
  apply match_all_chars in Hk as (pre & prev & s' & len & _ & Hexec & Hchars).
  apply (exec_at_words _ _ _ _ _ Hwordy) in Hexec as (w & Hw & Hspell).
  rewrite Forall_forall in Hwords. destruct (Hwords w Hw) as [Hvoc Hlow].
  exists p.1, (string_of_list_ascii w). split; [done|].
  rewrite <- Hchars in Hspell.
  destruct p as [[|] r]; cbn [fst] in *.
  - unfold lower. f_equal. apply spelled_lower; [by apply Hlow | done].
  - apply spelled_exact in Hspell.
    by rewrite <- Hspell, string_of_list_ascii_of_string.
Qed.

End VocabularyFacts.

(** *** The classifier: matches are parts of the text *)

Section ScanFacts.
Import Regex AddressDetector.

Lemma chars_app (a b : string) : chars (a +:+ b) = chars a ++ chars b.
Proof.
  induction a as [|c a IH]; [done|].
  change (String c a +:+ b) with (String c (a +:+ b)).
  cbn [list_ascii_of_string app]. by rewrite IH.
Qed.

(** A global search that reports nothing found no match at any position. *)
Lemma match_all_from_none ci r s : forall prev,
  match_all_from ci r 0 prev s = [] ->
  forall pre post, s = pre ++ post -> exec_at ci r (last_char prev pre) post = None.
Proof.
  induction s as [|c s IH]; intros prev H pre post Hs; cbn [match_all_from] in H.
  - symmetry in Hs. apply app_eq_nil in Hs as [-> ->].
    change (last_char prev []) with prev.
    by destruct (exec_at ci r prev []).
  - destruct (exec_at ci r prev (c :: s)) as [len|] eqn:E; [done|].
    destruct pre as [|c' pre].
    + cbn [app] in Hs. subst post. exact E.
    + injection Hs as <- ->. rewrite last_char_cons. by apply IH.
Qed.

Lemma launch_exec prev post :
  is_word_opt (head post) = false ->
  exec_at true (Seqs [Str "launch"; WordB]) prev (chars "launch" ++ post) = Some 6.
Proof.
  intros Hpost. unfold exec_at. cbn [Seqs Str chars list_ascii_of_string app].
  repeat (rewrite m_Seq; cbn [m]; change (lit_match true ?c ?c) with true; cbn match).
  rewrite Hpost. cbn. f_equal. lia.
Qed.

(** X5. The pattern for [launch] has no word boundary in front: a text in
    which [launch] is followed by a non-word character or by the end of
    the text has a keyword and crypto content, whatever stands before
    [launch] (as in [relaunch]). *)
Theorem launch_is_found_inside_a_word (now pre post : string) :
  is_word_opt (head (chars post)) = false ->
  keywords (analyzeTweet now (pre +:+ "launch" +:+ post)) <> []
  /\ hasCryptoContent (analyzeTweet now (pre +:+ "launch" +:+ post)) = true.
Proof.
  intros Hpost.
  assert (Hk : keywords (analyzeTweet now (pre +:+ "launch" +:+ post)) <> []).
  { cbn [analyzeTweet keywords]. unfold containsCryptoKeywords.
    rewrite uniq_from_empty_iff. intros Hnil.
    assert (Hnone : match_all true (Seqs [Str "launch"; WordB])
                      (pre +:+ "launch" +:+ post) = []).
    { destruct (match_all true _ _) as [|k ks] eqn:E; [done|].
      assert (Hin : k ∈ mjoin ((fun p : bool * regex =>
                 match_all p.1 p.2 (pre +:+ "launch" +:+ post)) <$> keywordPatterns)).
      { apply list_elem_of_join. exists (k :: ks). split; [left|].
        apply list_elem_of_fmap. exists (true, Seqs [Str "launch"; WordB]).
        split; [symmetry; exact E|]. unfold keywordPatterns. set_solver. }
      rewrite Hnil in Hin. by apply elem_of_nil in Hin. }
    unfold match_all in Hnone. apply fmap_nil_inv in Hnone.
    pose proof (match_all_from_none _ _ _ _ Hnone (chars pre) (chars "launch" ++ chars post))
      as Hno.
    rewrite launch_exec in Hno by done.
    by specialize (Hno ltac:(by rewrite !chars_app)). }
  split; [exact Hk|].
  cbn [analyzeTweet hasCryptoContent keywords] in *.
  destruct (containsCryptoKeywords _) as [|k ks]; [done|].
  cbn [length]. by rewrite !orb_true_r.
Qed.

Lemma launch_is_found_inside_a_word_witness :
  hasCryptoContent (analyzeTweet "2024-01-01T00:00:00.000Z" "relaunch") = true.
Proof.
  apply (launch_is_found_inside_a_word "2024-01-01T00:00:00.000Z" "re" "").
  reflexivity.
Defined.

(** The continuation of a successful match ran on what was left of the
    input. *)
Lemma repeat_m_suffix (step : Matcher) mx :
  (forall prev s k rest, step prev s k = Some rest ->
     exists p' s', k p' s' = Some rest /\ length s' <= length s) ->
  forall mn prev s k rest,
    repeat_m step mn mx prev s k = Some rest ->
    exists p' s', k p' s' = Some rest /\ length s' <= length s.
Proof.
  intros Hstep. induction mx as [|mx IH]; intros mn prev s k rest H; cbn [repeat_m] in H.
  - destruct (mn =? 0)%nat; [by exists prev, s | done].
  - destruct (step prev s _) as [r|] eqn:E.
    + injection H as ->. apply Hstep in E as (p1 & s1 & Hk & Hle).
      destruct (_ || _) in Hk; [|done].
      apply IH in Hk as (p2 & s2 & Hk & Hle2). exists p2, s2. split; [done | lia].
    + destruct (mn =? 0)%nat; [by exists prev, s | done].
Qed.

Lemma m_suffix ci r :
  forall prev s k rest,
    m ci r prev s k = Some rest ->
    exists p' s', k p' s' = Some rest /\ length s' <= length s.
Proof.
  induction r as [|c|cs|r1 IH1 r2 IH2|r1 IH1 r2 IH2|mn mx r IH| | |];
    intros prev s k rest H; cbn [m] in H.
  - by exists prev, s.
  - destruct s as [|x s]; [done|]. destruct (lit_match ci c x); [|done].
    exists (Some x), s. split; [done | simpl; lia].
  - destruct s as [|x s]; [done|]. destruct (class_match ci cs x); [|done].
    exists (Some x), s. split; [done | simpl; lia].
  - apply IH1 in H as (p1 & s1 & H & Hle1). apply IH2 in H as (p2 & s2 & H & Hle2).
    exists p2, s2. split; [done | lia].
  - destruct (m ci r1 prev s k) as [res|] eqn:E.
    + injection H as ->. by apply IH1 in E.
    + by apply IH2 in H.
  - by apply (repeat_m_suffix _ _ IH) in H.
  - destruct (xorb _ _); [by exists prev, s | done].
  - destruct prev; [done | by exists None, s].
  - destruct s; [by exists prev, [] | done].
Qed.

Lemma m_Lit_inv c prev s k rest :
  m false (Lit c) prev s k = Some rest ->
  exists s', s = c :: s' /\ k (Some c) s' = Some rest.
Proof.
  rewrite m_Lit_false. destruct s as [|x s]; [done|].
  destruct (Ascii.eqb_spec c x) as [<-|]; [|done]. by exists s.
Qed.

Lemma exec_at_suffix ci r p s rest :
  m ci r p s (fun _ rest => Some rest) = Some rest -> length rest <= length s.
Proof. by intros (p' & s' & [= ->] & Hle)%m_suffix. Qed.

Ltac lit_step E :=
  rewrite ?m_Seq in E; apply m_Lit_inv in E as (? & -> & E); cbn beta in E.

Lemma http_prefix r prev s len :
  r = urlRegex \/ r = tcoRegex ->
  exec_at false r prev s = Some len ->
  exists rest, take len s = chars "http" ++ rest.
Proof.
  intros Hr. unfold exec_at.
  destruct (m false r prev s _) as [rest|] eqn:E; [|done]. intros [= <-].
  assert (exists s4, s = chars "http" ++ s4 /\ length rest <= length s4) as (s4 & -> & Hle).
  { destruct Hr as [-> | ->]; [unfold urlRegex in E | unfold tcoRegex in E];
      cbn [Seqs Str] in E; do 4 lit_step E; rewrite <- ?m_Seq in E;
      apply exec_at_suffix in E; by eexists. }
  cbn [chars list_ascii_of_string app length].
  replace (S (S (S (S (length s4)))) - length rest)
    with (S (S (S (S (length s4 - length rest))))) by lia.
  cbn [take]. by eexists.
Qed.

(** X6. Whatever [analyzeTweet] reports (addresses, keywords and links)
    stands in the text as it is reported, and every link begins with
    [http]. *)
Theorem findings_are_parts_of_the_text (now text : string) :
  Forall (fun x => substring_of x text)
         (solanaAddresses (analyzeTweet now text) ++ bscAddresses (analyzeTweet now text)
          ++ keywords (analyzeTweet now text) ++ urls (analyzeTweet now text))
  /\ Forall (fun u => exists rest, u = "http" +:+ rest) (urls (analyzeTweet now text)).
Proof.
  cbn [analyzeTweet solanaAddresses bscAddresses keywords urls]. split.
  - rewrite !Forall_app. repeat split; apply Forall_forall; intros x Hx.
    + apply list_elem_of_filter in Hx as [_ Hx]. by eapply match_all_substring.
    + apply list_elem_of_filter in Hx as [_ Hx]. by eapply match_all_substring.
    + apply (elem_of_keywords now text) in Hx as (p & _ & Hx).
      by eapply match_all_substring.
    + unfold extractUrls in Hx.
      apply elem_of_app in Hx as [Hx|Hx]; by eapply match_all_substring.
  - apply Forall_forall. intros u Hu. unfold extractUrls in Hu.
    assert (exists r, (r = urlRegex \/ r = tcoRegex) /\ u ∈ match_all false r text)
      as (r & Hr & Hin).
    { apply elem_of_app in Hu as [Hu|Hu]; eexists; (split; [|exact Hu]); tauto. }
    apply match_all_chars in Hin as (pre & p & s' & len & _ & Hexec & Hchars).
    apply (http_prefix r) in Hexec as (rest & Hrest); [|done].
    exists (string_of_list_ascii rest).
    rewrite <- (string_of_list_ascii_of_string u), Hchars, Hrest.
    cbn [chars list_ascii_of_string app string_of_list_ascii]. done.
Qed.

End ScanFacts.

(** *** The monitor: what it does about a tweet *)


Section MonitorFacts.
Import TwitterMonitor.
Variable clock : nat -> string.
Variable cfg : config.

Ltac fields :=
  cbn [now add_processed tick_clock emit set_running processedTweets log
       clockReads isRunning intervalId snd fst alert_id alert_analysis].

Lemma processTweet_episode st tw :
  id tw ∉ processedTweets st ->
  exists l, log (processTweet clock cfg st tw).2 = log st ++ l /\ episode cfg l
            /\ match (processTweet clock cfg st tw).1 with
               | Some r => l = [Analyze (alert_id r); Alert r]
                               ++ (if autoBuyEnabled cfg then autoBuyTokens cfg r else [])
                           /\ AddressDetector.hasCryptoContent (alert_analysis r) = true
               | None => True
               end.
Proof.
  intros H. unfold processTweet. rewrite bool_decide_eq_false_2 by done. fields.
  destruct (AddressDetector.hasCryptoContent _) eqn:Hsig.
  - destruct (timeParsed tw) as [t'|]; fields.
    all: match goal with
         | |- context [Alert ?r] =>
             exists ([Analyze (alert_id r); Alert r]
                     ++ (if autoBuyEnabled cfg then autoBuyTokens cfg r else []));
             split; [|split; [right; exists r, false|]]
         end.
    all: fields; cbn [andb]; rewrite ?app_nil_r; try done.
    all: destruct (autoBuyEnabled cfg); fields; by rewrite <- ?app_assoc, ?app_nil_r.
  - fields. eexists. split; [done|]. split; [left; by eexists | done].
Qed.

Lemma visit_episode st tw :
  id tw ∉ processedTweets st ->
  exists l, log (visit clock cfg st tw) = log st ++ l /\ episode cfg l.
Proof.
  intros H. destruct (processTweet_episode st tw H) as (l & Hl & Hep & Hres).
  unfold visit. rewrite bool_decide_eq_false_2 by done. cbn [negb].
  destruct (processTweet clock cfg st tw) as [[r|] st'] eqn:E; cbn [fst snd] in *.
  - destruct Hres as [-> Hsig].
    exists ([Analyze (alert_id r); Alert r]
            ++ (if autoBuyEnabled cfg then autoBuyTokens cfg r else [])
            ++ (if true && truthy_str (webhookUrl cfg) then [Webhook r] else [])
            ++ (if true then [Delay 1000] else [])).
    split; [|right; by exists r, true].
    cbn [andb]. destruct (truthy_str (webhookUrl cfg)); fields; rewrite Hl;
      by rewrite <- ?app_assoc.
  - by exists l.
Qed.

Lemma foldl_visit_episodes l : forall st,
  exists eps, log (foldl (visit clock cfg) st l) = log st ++ mjoin eps
              /\ Forall (episode cfg) eps.
Proof.
  induction l as [|tw l IH]; intros st; cbn [foldl].
  - exists []. by rewrite app_nil_r.
  - destruct (IH (visit clock cfg st tw)) as (eps & Heps & Hall).
    destruct (decide (id tw ∈ processedTweets st)) as [Hin|Hout].
    + rewrite (visit_seen clock cfg st tw Hin) in Heps |- *. by exists eps.
    + destruct (visit_episode st tw Hout) as (ep & Hep & Hok).
      exists (ep :: eps). split; [|by constructor].
      by rewrite Heps, Hep, <- app_assoc.
Qed.

Lemma step_episodes st o :
  exists eps, log (step clock cfg st o) = log st ++ mjoin eps /\ Forall (episode cfg) eps.
Proof.
  assert (Hnone : exists eps, log st = log st ++ mjoin eps /\ Forall (episode cfg) eps)
    by (exists []; by rewrite app_nil_r).
  destruct o as [fetched|fetched|fetched|tw|]; cbn [step].
  - unfold startMonitoring. destruct (isRunning st); [done|]. fields.
    rewrite checkForNewTweets_fold.
    apply (foldl_visit_episodes _ (set_running true (intervalId st) st)).
  - unfold onInterval. destruct (_ && _); [|done].
    rewrite checkForNewTweets_fold. apply foldl_visit_episodes.
  - rewrite checkForNewTweets_fold. apply foldl_visit_episodes.
  - destruct (decide (id tw ∈ processedTweets st)) as [Hin|Hout].
    + by rewrite processTweet_seen.
    + destruct (processTweet_episode st tw Hout) as (ep & Hep & Hok & _).
      exists [ep]. split; [|by constructor]. cbn. by rewrite app_nil_r.
  - done.
Qed.

(** Over any sequence of operations the log grows by whole episodes. *)
Lemma run_episodes ops : forall st,
  exists eps, log (run clock cfg st ops) = log st ++ mjoin eps /\ Forall (episode cfg) eps.
Proof.
  induction ops as [|o ops IH]; intros st; cbn [run foldl].
  - exists []. by rewrite app_nil_r.
  - destruct (step_episodes st o) as (eps1 & H1 & Hall1).
    destruct (IH (step clock cfg st o)) as (eps2 & H2 & Hall2).
    exists (eps1 ++ eps2). split; [|by apply Forall_app].
    unfold run in H2. by rewrite H2, H1, join_app, <- app_assoc.
Qed.

Lemma elem_of_join_split {A} (x : A) (ls : list (list A)) :
  x ∈ mjoin ls -> exists ls1 l ls2, ls = ls1 ++ l :: ls2 /\ x ∈ l.
Proof.
  intros (l & Hx & Hl)%list_elem_of_join.
  apply list_elem_of_split in Hl as (ls1 & ls2 & ->). by exists ls1, l, ls2.
Qed.


Lemma autoBuyTokens_only_buys a e :
  e ∈ autoBuyTokens cfg a -> exists c x, e = AutoBuy c x.
Proof.
  unfold autoBuyTokens. intros [H|H]%elem_of_app;
    repeat (case_match; [|by apply elem_of_nil in H]);
    apply list_elem_of_fmap in H as (y & -> & _); by eexists _, _.
Qed.


(** X8. A webhook notification is only posted when a webhook is
    configured, for an alert with crypto content, and it comes in the log
    after the alert and the purchase attempts for it and right before the
    pause of one second. *)
Theorem webhook_comes_after_the_purchases (ops : list operation) (r : alert) :
  Webhook r ∈ log (run clock cfg initial ops) ->
  truthy_str (webhookUrl cfg) = true
  /\ AddressDetector.hasCryptoContent (alert_analysis r) = true
  /\ exists before after,
       log (run clock cfg initial ops)
       = before ++ [Analyze (alert_id r); Alert r]
           ++ (if autoBuyEnabled cfg then autoBuyTokens cfg r else [])
           ++ [Webhook r; Delay 1000] ++ after.
Proof.
  intros Hin. destruct (run_episodes ops initial) as (eps & Hlog & Hall).
  cbn [initial log app] in Hlog. rewrite Hlog in Hin |- *.
  apply elem_of_join_split in Hin as (eps1 & ep & eps2 & -> & Hin).
  apply Forall_app in Hall as [_ Hall]. apply Forall_cons in Hall as [Hep _].
  destruct Hep as [[i ->] | (r' & looped & -> & Hsig)].
  { apply list_elem_of_singleton in Hin. done. }
  assert (Hw : looped = true /\ truthy_str (webhookUrl cfg) = true /\ r' = r).
  { rewrite !elem_of_app, !elem_of_cons in Hin.
    destruct Hin as [[?|[?|?%elem_of_nil]]|[Hin|[Hin|Hin]]]; try done.
    - destruct (autoBuyEnabled cfg); [|by apply elem_of_nil in Hin].
      by apply autoBuyTokens_only_buys in Hin as (? & ? & ?).
    - destruct looped, (truthy_str (webhookUrl cfg)); cbn [andb] in Hin;
        try (by apply elem_of_nil in Hin).
      apply list_elem_of_singleton in Hin. by injection Hin as ->.
    - destruct looped; [apply list_elem_of_singleton in Hin | apply elem_of_nil in Hin]; done. }
  destruct Hw as (-> & Hurl & ->).
  split; [done|]. split; [done|].
  exists (mjoin eps1), (mjoin eps2).
  rewrite join_app. cbn [mjoin list_join andb]. rewrite Hurl.
  by rewrite <- !app_assoc.
Qed.

(** A visited tweet is in the ledger. *)
Lemma visit_marks st tw : id tw ∈ processedTweets (visit clock cfg st tw).
Proof.
  destruct (decide (id tw ∈ processedTweets st)) as [Hin|Hout].
  - by rewrite visit_seen.
  - destruct (visit_new clock cfg st tw Hout) as ([= -> _ _] & _). set_solver.
Qed.

Lemma foldl_visit_marks l : forall st tw,
  tw ∈ l -> id tw ∈ processedTweets (foldl (visit clock cfg) st l).
Proof.
  induction l as [|x l IH]; intros st tw Htw; [by apply elem_of_nil in Htw|].
  cbn [foldl]. apply elem_of_cons in Htw as [->|Htw]; [|by apply IH].
  apply (foldl_visit_grows clock cfg l), visit_marks.
Qed.

Lemma foldl_visit_seen l : forall st,
  (forall tw, tw ∈ l -> id tw ∈ processedTweets st) ->
  foldl (visit clock cfg) st l = st.
Proof.
  induction l as [|x l IH]; intros st Hseen; [done|].
  cbn [foldl]. rewrite visit_seen by (apply Hseen; left).
  apply IH. intros tw Htw. apply Hseen. by right.
Qed.

(** X9. Polling again with tweets whose identifiers were all in the
    previous poll leaves the monitor as it was: nothing is classified,
    alerted on, bought or notified a second time. *)
Theorem polling_known_tweets_changes_nothing (st : state) (tweets again : list tweet) :
  id <$> again ⊆ id <$> tweets ->
  checkForNewTweets clock cfg (checkForNewTweets clock cfg st tweets) again
  = checkForNewTweets clock cfg st tweets.
Proof.
  intros Hsub. rewrite (checkForNewTweets_fold _ _ _ again).
  apply foldl_visit_seen. intros tw Htw. rewrite elem_of_reverse in Htw.
  assert (Hid : id tw ∈ id <$> tweets).
  { apply Hsub. by apply list_elem_of_fmap_2. }
  apply list_elem_of_fmap in Hid as (tw' & Heq & Htw').
  rewrite Heq, checkForNewTweets_fold.
  apply foldl_visit_marks. by apply elem_of_reverse.
Qed.

Lemma visit_keeps_timer st tw :
  isRunning (visit clock cfg st tw) = isRunning st
  /\ intervalId (visit clock cfg st tw) = intervalId st.
Proof.
  destruct (decide (id tw ∈ processedTweets st)) as [Hin|Hout].
  - by rewrite visit_seen.
  - by destruct (visit_new clock cfg st tw Hout) as (_ & ? & ?).
Qed.

Lemma checkForNewTweets_keeps_timer tweets : forall st,
  isRunning (checkForNewTweets clock cfg st tweets) = isRunning st
  /\ intervalId (checkForNewTweets clock cfg st tweets) = intervalId st.
Proof.
  intros st. rewrite checkForNewTweets_fold. generalize (reverse tweets). clear tweets.
  intros l. revert st. induction l as [|tw l IH]; intros st; [done|].
  cbn [foldl]. destruct (IH (visit clock cfg st tw)) as [-> ->].
  apply visit_keeps_timer.
Qed.

Lemma step_keeps_timer_in_step st o :
  isRunning st = intervalId st ->
  isRunning (step clock cfg st o) = intervalId (step clock cfg st o).
Proof.
  intros Hst. destruct o as [fetched|fetched|fetched|tw|]; cbn [step].
  - unfold startMonitoring. destruct (isRunning st) eqn:Hr; [by rewrite Hr|]. fields.
    by destruct (checkForNewTweets_keeps_timer fetched
                   (set_running true (intervalId st) st)) as [-> _].
  - unfold onInterval. destruct (_ && _); [|exact Hst].
    by destruct (checkForNewTweets_keeps_timer fetched st) as [-> ->].
  - by destruct (checkForNewTweets_keeps_timer fetched st) as [-> ->].
  - destruct (decide (id tw ∈ processedTweets st)) as [Hin|Hout].
    + by rewrite processTweet_seen.
    + by destruct (processTweet_new clock cfg st tw Hout) as (_ & -> & -> & _).
  - done.
Qed.

(** X10. After any sequence of operations the interval timer is set exactly
    when the monitor is running; starting a running monitor does nothing,
    and a firing of the timer after [stopMonitoring] does nothing. *)
Theorem timer_is_set_exactly_while_running (ops : list operation) (fetched : list tweet) :
  isRunning (run clock cfg initial ops) = intervalId (run clock cfg initial ops)
  /\ run clock cfg initial (ops ++ [OpStart fetched; OpStart fetched])
     = run clock cfg initial (ops ++ [OpStart fetched])
  /\ run clock cfg initial (ops ++ [OpStop; OpInterval fetched])
     = run clock cfg initial (ops ++ [OpStop]).
Proof.
  assert (Hinv : forall ops st, isRunning st = intervalId st ->
            isRunning (run clock cfg st ops) = intervalId (run clock cfg st ops)).
  { clear ops. intros ops. induction ops as [|o ops IH]; intros st Hst; [done|].
    cbn [run foldl]. by apply IH, step_keeps_timer_in_step. }
  split; [by apply Hinv|].
  unfold run. rewrite !foldl_app. cbn [foldl step]. split.
  - set (st := foldl _ initial ops).
    assert (Hrun : isRunning (startMonitoring clock cfg st fetched) = true).
    { unfold startMonitoring. destruct (isRunning st) eqn:Hr; [done|]. fields.
      by destruct (checkForNewTweets_keeps_timer fetched
                     (set_running true (intervalId st) st)) as [-> _]. }
    unfold startMonitoring at 1. by rewrite Hrun.
  - unfold onInterval, stopMonitoring. by fields.
Qed.

End MonitorFacts.


Lemma webhook_comes_after_the_purchases_witness :
  TwitterMonitor.truthy_str (TwitterMonitor.webhookUrl buy_all) = true
  /\ AddressDetector.hasCryptoContent (TwitterMonitor.alert_analysis alert_P3) = true.
Proof.
  destruct (webhook_comes_after_the_purchases wall_clock buy_all
              [TwitterMonitor.OpCheck [P3]] alert_P3) as (H1 & H2 & _).
  - apply list_elem_of_In. vm_compute. do 3 right. left. reflexivity.
  - by split.
Defined.

Lemma polling_known_tweets_changes_nothing_witness :
  TwitterMonitor.checkForNewTweets wall_clock buy_all
    (TwitterMonitor.checkForNewTweets wall_clock buy_all TwitterMonitor.initial [P3; P2; P1])
    [P3; P2]
  = TwitterMonitor.checkForNewTweets wall_clock buy_all TwitterMonitor.initial [P3; P2; P1].
Proof.
  apply polling_known_tweets_changes_nothing.
  intros i Hi. apply list_elem_of_In. apply list_elem_of_In in Hi.
  vm_compute in Hi |- *. tauto.
Defined.


(** *** The monitor: fetching the tweets *)

Section FeedFacts.
Import Venue TwitterMonitor TwitterFeed.

Lemma collect_spec limit failure : forall rest tweets,
  length tweets < limit ->
  collect limit tweets rest failure
  = if (limit <=? length tweets + length rest)%nat
    then Returns (tweets ++ take (limit - length tweets) rest)
    else match failure with
         | Some message => Throws message
         | None => Returns (tweets ++ rest)
         end.
Proof.
  induction rest as [|tw rest IH]; intros tweets Hlen; cbn [collect length].
  - replace (limit <=? length tweets + 0)%nat with false
      by (symmetry; apply Nat.leb_gt; lia).
    by rewrite app_nil_r.
  - rewrite length_app. cbn [length].
    destruct (Nat.leb_spec limit (length tweets + 1)) as [Hfull|Hmore].
    + replace (limit <=? length tweets + S (length rest))%nat with true
        by (symmetry; apply Nat.leb_le; lia).
      replace (limit - length tweets) with 1 by lia. done.
    + rewrite IH by (rewrite length_app; cbn [length]; lia).
      rewrite length_app. cbn [length].
      replace (length tweets + 1 + length rest) with (length tweets + S (length rest)) by lia.
      destruct (limit <=? _)%nat.
      * replace (limit - length tweets) with (S (limit - (length tweets + 1))) by lia.
        cbn [take]. by rewrite <- app_assoc.
      * destruct failure; [done|]. by rewrite <- app_assoc.
Qed.

Lemma fetch_spec limit t f :
  1 <= limit -> (fetch limit t f).1 = fetched limit f.
Proof.
  intros Hlimit. unfold fetch, fetched.
  rewrite collect_spec by (cbn; lia). cbn [length app]. rewrite Nat.add_0_l, Nat.sub_0_r.
  destruct (limit <=? _)%nat; [done|]. by destruct (failure f).
Qed.

(** X11. [fetchLatestTweets] returns the first 10 tweets of the feed (5 in
    the revision with the profit tracker) when the feed gets that far, all
    of them when the feed ends earlier, and none when it breaks earlier; a
    new sign-in is only attempted after a failure whose message includes
    [401] or [403]. *)
Theorem fetch_returns_the_newest_or_nothing (t : twitter) (f : feed) :
  (fetchLatestTweets t f).1 = fetched 10 f
  /\ (V3.fetchLatestTweets t f).1 = fetched 5 f
  /\ length (fetchLatestTweets t f).1 <= 10
  /\ (fetchLatestTweets t f).1 `prefix_of` yielded f
  /\ ((fetchLatestTweets t f).2 <> None ->
      (fetchLatestTweets t f).1 = []
      /\ exists message, failure f = Some message
           /\ (includes "401" message || includes "403" message = true)
           /\ (fetchLatestTweets t f).2 = Some (initialize t)).
Proof.
  unfold fetchLatestTweets, V3.fetchLatestTweets.
  rewrite !fetch_spec by lia.
  split; [done|]. split; [done|]. split; [|split].
  - unfold fetched.
    destruct (Nat.leb_spec 10 (length (yielded f))) as [|Hlt]; [rewrite length_take; lia|].
    destruct (failure f); cbn [length]; lia.
  - unfold fetched. destruct (10 <=? _)%nat; [apply prefix_take|].
    destruct (failure f); [apply prefix_nil | done].
  - unfold fetch, fetched. rewrite collect_spec by (cbn; lia).
    cbn [length app]. rewrite Nat.add_0_l.
    destruct (10 <=? _)%nat; [done|].
    destruct (failure f) as [message|]; [|done]. cbn [fst snd].
    destruct (_ || _) eqn:Hre; [|done].
    intros _. split; [done|]. by exists message.
Qed.

(** X12. When the feed breaks before its tenth tweet, the tweets it had
    yielded are dropped: the fetch returns no tweet and the poll leaves the
    monitor as it was. *)
Theorem failed_fetch_drops_the_tweets_it_got
        (clock : nat -> string) (cfg : config) (t : twitter) (st : state) (f : feed)
        (message : string) :
  failure f = Some message ->
  length (yielded f) < 10 ->
  (fetchLatestTweets t f).1 = []
  /\ poll clock cfg t st f = st.
Proof.
  intros Hf Hlen.
  assert (Hnone : (fetchLatestTweets t f).1 = []).
  { unfold fetchLatestTweets. rewrite fetch_spec by lia. unfold fetched. rewrite Hf.
    by replace (10 <=? length (yielded f))%nat with false
      by (symmetry; apply Nat.leb_gt; lia). }
  split; [exact Hnone|]. unfold poll. by rewrite Hnone.
Qed.

End FeedFacts.

Lemma failed_fetch_drops_the_tweets_it_got_witness :
  TwitterFeed.poll wall_clock buy_all twitter_up TwitterMonitor.initial feed_cut
  = TwitterMonitor.initial.
Proof.
  apply (failed_fetch_drops_the_tweets_it_got wall_clock buy_all twitter_up
           TwitterMonitor.initial feed_cut "socket hang up").
  - reflexivity.
  - vm_compute. lia.
Defined.

(** *** The configuration *)

Section ConfigFacts.
Import TwitterMonitor Config.
Variable parseInt : string -> float.
Variable parseFloat : string -> float.

Lemma or_else_truthy x d : d <> "" -> truthy_str (Some (or_else x d)) = true.
Proof.
  intros Hd. unfold or_else. destruct (truthy_str x) eqn:Hx.
  - destruct x as [s|]; [exact Hx | done].
  - cbn. by rewrite bool_decide_eq_false_2.
Qed.

Lemma validateConfig_no_errors c : validateConfig c = true <-> errors c = [].
Proof.
  unfold validateConfig. destruct (errors c) as [|e l]; cbn; split; done.
Qed.

Lemma errors_spec c :
  errors c =
    (if truthy_str (Config.twitterUsername c) then [] else ["TWITTER_USERNAME is required"])
    ++ (if truthy_str (Config.twitterPassword c) then [] else ["TWITTER_PASSWORD is required"])
    ++ (if truthy_str (Some (Config.targetUsername c)) then []
        else ["TARGET_USERNAME is required"])
    ++ (if Config.autoBuyEnabled c && negb (truthy_str (Config.solanaMnemonic c))
        then ["SOLANA_MNEMONIC is required when auto-buy is enabled"] else [])
    ++ (if Config.autoBuyEnabled c && negb (truthy_str (Config.bscMnemonic c))
        then ["BSC_MNEMONIC is required when auto-buy is enabled"] else []).
Proof.
  unfold errors.
  destruct (truthy_str (Config.twitterUsername c)), (truthy_str (Config.twitterPassword c)),
    (truthy_str (Some (Config.targetUsername c))), (Config.autoBuyEnabled c),
    (truthy_str (Config.solanaMnemonic c)), (truthy_str (Config.bscMnemonic c)); reflexivity.
Qed.

(** X13. [validateConfig] accepts exactly when the Twitter user name and
    password are set and, if [AUTO_BUY_ENABLED] is [true], both mnemonics
    are set.  The target user name defaults to a non-empty name, so the
    error about it is never reported, and the check interval is never 0 or
    NaN. *)
Theorem validateConfig_accepts (e : env) :
  (validateConfig (load parseInt parseFloat e) = true <->
     truthy_str (e "TWITTER_USERNAME") = true
     /\ truthy_str (e "TWITTER_PASSWORD") = true
     /\ (e "AUTO_BUY_ENABLED" = Some "true" ->
         truthy_str (e "SOLANA_MNEMONIC") = true /\ truthy_str (e "BSC_MNEMONIC") = true))
  /\ ("TARGET_USERNAME is required" ∉ errors (load parseInt parseFloat e))
  /\ Config.targetUsername (load parseInt parseFloat e) <> ""
  /\ JS.truthy (checkInterval (load parseInt parseFloat e)) = true.
Proof.
  assert (Htarget : truthy_str (Some (Config.targetUsername (load parseInt parseFloat e)))
                    = true) by (by apply or_else_truthy).
  split; [|split; [|split]].
  - rewrite validateConfig_no_errors, errors_spec, Htarget.
    cbn [load Config.twitterUsername Config.twitterPassword Config.autoBuyEnabled
         Config.solanaMnemonic Config.bscMnemonic].
    destruct (truthy_str (e "TWITTER_USERNAME")), (truthy_str (e "TWITTER_PASSWORD"));
      cbn [negb app]; try (split; [done | by intros (? & ? & ?)]).
    case_bool_decide as Hauto; cbn [andb].
    + destruct (truthy_str (e "SOLANA_MNEMONIC")), (truthy_str (e "BSC_MNEMONIC"));
        cbn [negb app]; split; try done;
        try (intros (_ & _ & H); by destruct (H Hauto)).
    + cbn [app]. split; [|done]. intros _. by repeat split.
  - rewrite errors_spec, Htarget.
    repeat case_match; cbn [app];
      rewrite ?elem_of_cons, ?elem_of_nil; intros Hin; decompose [or] Hin; done.
  - intros Hempty. by rewrite Hempty in Htarget.
  - cbn [load checkInterval]. unfold number_or.
    destruct (e "CHECK_INTERVAL") as [s|]; [|by vm_compute].
    destruct (JS.truthy (parseInt s)) eqn:Hs; [done | by vm_compute].
Qed.

Lemma no_switch_no_purchase (clock : nat -> string) (cfg : TwitterMonitor.config)
      (ops : list operation) (c : chain) (a : string) :
  TwitterMonitor.autoBuyEnabled cfg = false ->
  AutoBuy c a ∉ log (run clock cfg initial ops).
Proof.
  intros Hoff Hin. destruct (run_episodes clock cfg ops initial) as (eps & Hlog & Hall).
  cbn [initial log app] in Hlog. rewrite Hlog in Hin.
  apply elem_of_join_split in Hin as (eps1 & ep & eps2 & -> & Hin).
  apply Forall_app in Hall as [_ Hall]. apply Forall_cons in Hall as [Hep _].
  destruct Hep as [[i ->] | (r & looped & -> & Hsig)].
  { by apply list_elem_of_singleton in Hin. }
  rewrite Hoff in Hin. rewrite !elem_of_app, !elem_of_cons in Hin.
  destruct Hin as [[?|[?|?%elem_of_nil]]|[Hin|[Hin|Hin]]]; try done.
  - by apply elem_of_nil in Hin.
  - destruct (_ && _); [apply list_elem_of_singleton in Hin | apply elem_of_nil in Hin]; done.
  - destruct looped; [apply list_elem_of_singleton in Hin | apply elem_of_nil in Hin]; done.
Qed.

(** X14. Unless [AUTO_BUY_ENABLED] is exactly the string [true], the
    monitor built from the configuration never attempts a purchase,
    whatever it is fed. *)
Theorem auto_buy_needs_the_exact_switch
        (clock : nat -> string) (e : env) (ops : list operation) (c : chain) (a : string) :
  e "AUTO_BUY_ENABLED" <> Some "true" ->
  AutoBuy c a ∉ log (run clock (monitor_config (load parseInt parseFloat e)) initial ops).
Proof.
  intros Hoff. apply no_switch_no_purchase.
  cbn [monitor_config load Config.autoBuyEnabled TwitterMonitor.autoBuyEnabled].
  by apply bool_decide_eq_false_2.
Qed.

Lemma validated_mnemonics (e : env) :
  validateConfig (load parseInt parseFloat e) = true ->
  e "AUTO_BUY_ENABLED" = Some "true" ->
  truthy_str (e "SOLANA_MNEMONIC") = true /\ truthy_str (e "BSC_MNEMONIC") = true.
Proof.
  intros Hok Hauto. rewrite validateConfig_no_errors, errors_spec in Hok.
  cbn [load Config.twitterUsername Config.twitterPassword Config.autoBuyEnabled
       Config.solanaMnemonic Config.bscMnemonic] in Hok.
  rewrite (bool_decide_eq_true_2 _ Hauto) in Hok. cbn [andb] in Hok.
  apply app_eq_nil in Hok as [_ Hok]. apply app_eq_nil in Hok as [_ Hok].
  apply app_eq_nil in Hok as [_ Hok]. apply app_eq_nil in Hok as [Hs Hb].
  destruct (truthy_str (e "SOLANA_MNEMONIC")) eqn:Es; [|done].
  by destruct (truthy_str (e "BSC_MNEMONIC")) eqn:Eb.
Qed.

(** [validateConfig] does not look into the mnemonics: a configuration it
    accepts can still make the constructor of the monitor throw. *)
Example validated_config_can_fail_to_start :
  validateConfig (load parseInt parseFloat env_short) = true
  /\ Startup.newTwitterMonitor wallets_12 (load parseInt parseFloat env_short)
     = Venue.Throws "Invalid mnemonic".
Proof. split; by vm_compute. Qed.

(** X15. With a configuration that [validateConfig] accepts and auto-buy
    enabled, [new TwitterMonitor(config)] calls the constructor of the
    Solana buyer and then that of the BSC buyer, each with its mnemonic,
    path and URL, and throws what either of them throws: validation only
    checks that the mnemonics are set.  When the constructor returns, both
    buyers are there: [autoBuyTokens] attempts one purchase for every
    address of an alert, the Solana addresses first. *)
Theorem validated_config_builds_both_buyers_or_throws
        (W : Startup.wallets) (e : env) (r : alert) :
  validateConfig (load parseInt parseFloat e) = true ->
  e "AUTO_BUY_ENABLED" = Some "true" ->
  let c := load parseInt parseFloat e in
  exists solana bsc,
    e "SOLANA_MNEMONIC" = Some solana /\ e "BSC_MNEMONIC" = Some bsc
    /\ Startup.newTwitterMonitor W c
       = match Startup.newSolanaTokenBuyer W solana (Config.solanaDerivationPath c)
                (Config.solanaRpcUrl c) with
         | Venue.Throws message => Venue.Throws message
         | Venue.Returns _ =>
             match Startup.newBSCTokenBuyer W bsc (Config.bscDerivationPath c)
                     (Config.bscRpcUrl c) with
             | Venue.Throws message => Venue.Throws message
             | Venue.Returns _ => Venue.Returns (monitor_config c, initial)
             end
         end
    /\ (forall cfg st,
          Startup.newTwitterMonitor W c = Venue.Returns (cfg, st) ->
          st = initial
          /\ autoBuyTokens cfg r
             = (AutoBuy Solana <$> AddressDetector.solanaAddresses (alert_analysis r))
               ++ (AutoBuy BSC <$> AddressDetector.bscAddresses (alert_analysis r))).
Proof.
  intros Hok Hauto c.
  destruct (validated_mnemonics e Hok Hauto) as [Es Eb].
  destruct (e "SOLANA_MNEMONIC") as [solana|] eqn:Hs; [|done].
  destruct (e "BSC_MNEMONIC") as [bsc|] eqn:Hb; [|done].
  exists solana, bsc. split; [done|]. split; [done|].
  assert (Hnew : Startup.newTwitterMonitor W c
       = match Startup.newSolanaTokenBuyer W solana (Config.solanaDerivationPath c)
                (Config.solanaRpcUrl c) with
         | Venue.Throws message => Venue.Throws message
         | Venue.Returns _ =>
             match Startup.newBSCTokenBuyer W bsc (Config.bscDerivationPath c)
                     (Config.bscRpcUrl c) with
             | Venue.Throws message => Venue.Throws message
             | Venue.Returns _ => Venue.Returns (monitor_config c, initial)
             end
         end).
  { unfold Startup.newTwitterMonitor.
    replace (Config.autoBuyEnabled c) with true
      by (symmetry; by apply bool_decide_eq_true_2).
    replace (Config.solanaMnemonic c) with (Some solana) by (by rewrite <- Hs).
    replace (Config.bscMnemonic c) with (Some bsc) by (by rewrite <- Hb).
    by rewrite Es, Eb. }
  split; [exact Hnew|].
  intros cfg st Hbuilt. rewrite Hnew in Hbuilt.
  destruct (Startup.newSolanaTokenBuyer W solana _ _); [|done].
  destruct (Startup.newBSCTokenBuyer W bsc _ _); [|done].
  injection Hbuilt as <- <-. split; [done|].
  unfold autoBuyTokens, solanaBuyer, bscBuyer.
  cbn [monitor_config TwitterMonitor.autoBuyEnabled
       TwitterMonitor.solanaMnemonic TwitterMonitor.bscMnemonic].
  replace (Config.autoBuyEnabled c) with true
    by (symmetry; by apply bool_decide_eq_true_2).
  replace (Config.solanaMnemonic c) with (Some solana) by (by rewrite <- Hs).
  replace (Config.bscMnemonic c) with (Some bsc) by (by rewrite <- Hb).
  rewrite Es, Eb. cbn [andb].
  by destruct (AddressDetector.solanaAddresses (alert_analysis r)),
       (AddressDetector.bscAddresses (alert_analysis r)).
Qed.

End ConfigFacts.

Lemma auto_buy_needs_the_exact_switch_witness :
  TwitterMonitor.AutoBuy TwitterMonitor.BSC token_0x
  ∉ TwitterMonitor.log
      (TwitterMonitor.run wall_clock
         (Config.monitor_config (Config.load (fun _ => 0%float) (fun _ => 0%float) env_TRUE))
         TwitterMonitor.initial [TwitterMonitor.OpCheck [P3; P2; P1]]).
Proof.
  apply auto_buy_needs_the_exact_switch. by vm_compute.
Defined.

Lemma validated_config_builds_both_buyers_or_throws_witness :
  Startup.newTwitterMonitor wallets_12
    (Config.load (fun _ => 0%float) (fun _ => 0%float) env_full)
  = Venue.Returns
      (Config.monitor_config (Config.load (fun _ => 0%float) (fun _ => 0%float) env_full),
       TwitterMonitor.initial)
  /\ TwitterMonitor.autoBuyTokens
       (Config.monitor_config (Config.load (fun _ => 0%float) (fun _ => 0%float) env_full))
       alert_P3
     = [TwitterMonitor.AutoBuy TwitterMonitor.BSC token_0x].
Proof.
  destruct (validated_config_builds_both_buyers_or_throws
              (fun _ => 0%float) (fun _ => 0%float) wallets_12 env_full alert_P3)
    as (solana & bsc & _ & _ & Hnew & Hbuilt).
  - by vm_compute.
  - by vm_compute.
  - assert (Hrun : Startup.newTwitterMonitor wallets_12
                     (Config.load (fun _ => 0%float) (fun _ => 0%float) env_full)
                   = Venue.Returns
                       (Config.monitor_config
                          (Config.load (fun _ => 0%float) (fun _ => 0%float) env_full),
                        TwitterMonitor.initial)) by (by vm_compute).
    split; [exact Hrun|].
    destruct (Hbuilt _ _ Hrun) as [_ Hbuy]. rewrite Hbuy. by vm_compute.
Defined.


(** *** The buyers: routing on Solana and the results *)

Section RouterFacts.
Import Venue.

Ltac bsc_branches w a :=
  unfold BSCTokenBuyer.buyToken;
  destruct (BSCTokenBuyer.validFormat a) eqn:Hfmt; cbn [negb];
  [ destruct (BSCTokenBuyer.getBalance w) as [bal|msg] eqn:Hbal;
    [ cbn zeta;
      destruct (PrimFloat.ltb (JS.Math_floor bal) 1) eqn:Hlow;
      [ | destruct (BSCTokenBuyer.exists_ (BSCTokenBuyer.getTokenInfo w a)) eqn:Htok;
          cbn [negb];
          [ destruct (BSCTokenBuyer.checkFourMeme w a) eqn:Hfm;
            [ | destruct (BSCTokenBuyer.checkPancakeSwapLiquidity w a) eqn:Hpc ]
          | ] ]
    | ]
  | ].

Ltac solana_branches w a :=
  unfold SolanaTokenBuyer.buyToken;
  destruct (SolanaTokenBuyer.getBalance w) as [bal|msg] eqn:Hbal;
  [ cbn zeta;
    destruct (PrimFloat.ltb (JS.Math_floor bal) 1) eqn:Hlow;
    [ | destruct (SolanaTokenBuyer.checkPumpFun w a) eqn:Hpf;
        [ | destruct (SolanaTokenBuyer.checkMeteora w a) as [info|] eqn:Hmt;
            [ | destruct (SolanaTokenBuyer.checkRaydium w a) eqn:Hrd ] ] ]
  | ].

(** X16. A Solana purchase that gets past the balance guard probes Pump.fun,
    then Meteora, then Raydium, trades on the first venue that has the
    token with the floor of the balance, and fails without a trade when
    none has it.  When Meteora has no pool the earlier revision of the
    buyer returns the same result and makes the same trade. *)
Theorem solana_buyer_routes_by_priority
        (w : SolanaTokenBuyer.world) (a : string) (balance : float) :
  SolanaTokenBuyer.getBalance w = Returns balance ->
  PrimFloat.ltb (JS.Math_floor balance) 1 = false ->
  solana_routes_by_priority w a (JS.Math_floor balance)
  /\ (SolanaTokenBuyer.checkMeteora w a = None ->
      (SolanaTokenBuyerV1.buyToken w a).1 = (SolanaTokenBuyer.buyToken w a).1
      /\ traded (SolanaTokenBuyerV1.buyToken w a).2 = traded (SolanaTokenBuyer.buyToken w a).2).
Proof.
  intros Hb Hfloor. split.
  - unfold solana_routes_by_priority, SolanaTokenBuyer.buyToken.
    rewrite Hb. cbn zeta. rewrite Hfloor.
    destruct (SolanaTokenBuyer.checkPumpFun w a); [by cbn|].
    destruct (SolanaTokenBuyer.checkMeteora w a) as [info|]; [by cbn|].
    destruct (SolanaTokenBuyer.checkRaydium w a); by cbn.
  - intros Hno. unfold SolanaTokenBuyerV1.buyToken, SolanaTokenBuyer.buyToken.
    rewrite Hb. cbn zeta. rewrite Hfloor, Hno.
    destruct (SolanaTokenBuyer.checkPumpFun w a); [by cbn|].
    destruct (SolanaTokenBuyer.checkRaydium w a); by cbn.
Qed.

Lemma solana_buyer_routes_by_priority_witness :
  solana_routes_by_priority (solana_market 3.7 false true true) token_sol 3.
Proof.
  apply (solana_buyer_routes_by_priority (solana_market 3.7 false true true) token_sol 3.7);
    reflexivity.
Defined.

Lemma bsc_result_shape w a ref platform amount tok quote :
  (BSCTokenBuyer.buyToken w a).1 = Bought ref platform amount tok quote ->
  exists v, traded (BSCTokenBuyer.buyToken w a).2 = [(v, amount)]
            /\ last (probed (BSCTokenBuyer.buyToken w a).2) = Some v
            /\ (v = FourMeme \/ v = PancakeSwap)
            /\ venue_label v platform /\ tok <> None /\ quote = None.
Proof.
  bsc_branches w a; cbn [fst snd]; try done.
  - unfold BSCTokenBuyer.buyOnFourMeme, BSCTokenBuyer.buyOn. rewrite Htok. cbn [negb].
    intros H. repeat case_match; simplify_eq. exists FourMeme. by cbn; intuition.
  - unfold BSCTokenBuyer.buyOnPancakeSwap, BSCTokenBuyer.buyOn. rewrite Htok. cbn [negb].
    intros H. destruct (BSCTokenBuyer.parseEther w (JS.Math_floor bal)); by cbn in H.
Qed.

Lemma solana_result_shape w a ref platform amount tok quote :
  (SolanaTokenBuyer.buyToken w a).1 = Bought ref platform amount tok quote ->
  exists v, traded (SolanaTokenBuyer.buyToken w a).2 = [(v, amount)]
            /\ last (probed (SolanaTokenBuyer.buyToken w a).2) = Some v
            /\ (v = PumpFun \/ v = Meteora \/ v = Raydium)
            /\ venue_label v platform /\ tok = None
            /\ (quote <> None <-> v = Meteora).
Proof.
  solana_branches w a; cbn [fst snd]; try done.
  - unfold SolanaTokenBuyer.buyOnPumpFun.
    intros H. repeat case_match; simplify_eq. exists PumpFun. cbn. by intuition.
  - unfold SolanaTokenBuyer.buyOnMeteora.
    intros H. repeat case_match; simplify_eq; exists Meteora; cbn; by intuition.
  - unfold SolanaTokenBuyer.buyOnRaydium.
    intros H. repeat case_match; simplify_eq. exists Raydium. cbn. by intuition.
Qed.

(** X17. A successful purchase made exactly one trade, with the amount it
    reports, on the venue probed last, and its [platform] names that
    venue.  It carries [tokenReceived] exactly on the BSC venues and a
    quote exactly on Meteora. *)
Theorem successful_purchase_names_its_venue
        (R : router) (a ref platform : string) (amount : float) (tok quote : option string) :
  (acquire R a).1 = Bought ref platform amount tok quote ->
  exists v, traded (acquire R a).2 = [(v, amount)]
            /\ last (probed (acquire R a).2) = Some v
            /\ venue_label v platform
            /\ (tok <> None <-> v = FourMeme \/ v = PancakeSwap)
            /\ (quote <> None <-> v = Meteora).
Proof.
  destruct R as [w|w]; cbn [acquire]; intros H.
  - apply bsc_result_shape in H as (v & Ht & Hp & Hv & Hl & Htok & ->).
    exists v. repeat split; try done.
    + by destruct Hv as [-> | ->].
  - apply solana_result_shape in H as (v & Ht & Hp & Hv & Hl & -> & Hq).
    exists v. repeat split; try done; try apply Hq.
    + by destruct Hv as [-> | [-> | ->]]; intros [|].
Qed.

End RouterFacts.

Lemma successful_purchase_names_its_venue_witness :
  exists v, Venue.traded (acquire (SolanaRouter (solana_market 3.7 false true false))
                            token_sol).2 = [(v, 3%float)]
            /\ venue_label v "Meteora DLMM".
Proof.
  destruct (successful_purchase_names_its_venue
              (SolanaRouter (solana_market 3.7 false true false)) token_sol
              "sig-meteora" "Meteora DLMM" 3 None (Some "123000"))
    as (v & Ht & _ & Hl & _).
  - reflexivity.
  - exists v. by split.
Defined.

(** *** Buying on PancakeSwap *)

Section PancakeFacts.
Import Venue BSCTokenBuyer.

(** What [buyOnPancakeSwap] answers, written out: the swap is never sent. *)
Lemma buyOnPancakeSwap_answer w a amount :
  buyOnPancakeSwap w a amount
  = Failed (if negb (exists_ (getTokenInfo w a))
            then "Token contract not found or invalid"
            else match parseEther w amount with
                 | Throws message => message
                 | Returns _ =>
                     encodingMessage w (Viem.AbiEncodingLengthMismatch 5 4)
                 end).
Proof.
  unfold buyOnPancakeSwap, buyOn.
  destruct (negb (exists_ (getTokenInfo w a))); [done|].
  by destruct (parseEther w amount).
Qed.

(** X26. A purchase on PancakeSwap never succeeds, in either revision of
    the buyer: [buyOnPancakeSwap] encodes [swapExactETHForTokens] with
    four arguments where the ABI written in the source gives it five
    inputs, so the encoding throws before a transaction is sent.  The
    earlier revision of [buyToken], which knows PancakeSwap only, never
    buys; the current one only buys on Four.meme. *)
Theorem pancakeswap_purchase_never_succeeds
        (w : world) (a : string) (amount : float) :
  Viem.encodeFunctionData PANCAKE_ROUTER_ABI "swapExactETHForTokens" 4
  = Some (Viem.AbiEncodingLengthMismatch 5 4)
  /\ buyOnPancakeSwap w a amount
     = Failed (if negb (exists_ (getTokenInfo w a))
               then "Token contract not found or invalid"
               else match parseEther w amount with
                    | Throws message => message
                    | Returns _ =>
                        encodingMessage w (Viem.AbiEncodingLengthMismatch 5 4)
                    end)
  /\ success (V1.buyToken w a).1 = false
  /\ (forall ref platform spent tokens quote,
        (buyToken w a).1 = Bought ref platform spent tokens quote ->
        platform = "Four.meme" /\ traded (buyToken w a).2 = [(FourMeme, spent)]).
Proof.
  split; [done|]. split; [apply buyOnPancakeSwap_answer|]. split.
  - unfold V1.buyToken.
    destruct (validFormat a); cbn [negb]; [|done].
    destruct (getBalance w) as [bal|msg]; [|done]. cbn zeta.
    destruct (PrimFloat.ltb (JS.Math_floor bal) 1); [done|].
    destruct (exists_ (getTokenInfo w a)) eqn:Htok; cbn [negb]; [|done].
    destruct (checkPancakeSwapLiquidity w a); cbn [negb fst]; [|done].
    by rewrite buyOnPancakeSwap_answer.
  - intros ref platform spent tokens quote Hres.
    destruct (bsc_result_shape w a _ _ _ _ _ Hres) as (v & Ht & _ & Hv & Hl & _).
    destruct Hv as [-> | ->]; [by split|].
    exfalso. revert Hres Ht. unfold buyToken.
    destruct (validFormat a); cbn [negb]; [|done].
    destruct (getBalance w) as [bal|msg]; [|done]. cbn zeta.
    destruct (PrimFloat.ltb (JS.Math_floor bal) 1); [done|].
    destruct (exists_ (getTokenInfo w a)) eqn:Htok; cbn [negb]; [|done].
    destruct (checkFourMeme w a); [by cbn|].
    destruct (checkPancakeSwapLiquidity w a); cbn [fst snd]; [|done].
    by rewrite buyOnPancakeSwap_answer.
Qed.

End PancakeFacts.

(** *** The monitor with the profit tracker *)

Section TradingFacts.
Import Venue TwitterMonitor ProfitTracker Tracker TrackedMonitor.
Variable solana : nat -> SolanaTokenBuyer.world.
Variable bsc : nat -> BSCTokenBuyer.world.
Variable stamp : nat -> Z * string.
Variable cfg : config.

Lemma positions_of_snoc attempts x :
  positions_of stamp (attempts ++ [x])
  = positions_of stamp attempts
    ++ match recorded stamp (length attempts) x with Some p => [p] | None => [] end.
Proof.
  unfold positions_of. rewrite imap_app, omap_app. cbn [imap omap].
  rewrite Nat.add_0_r. by destruct (recorded stamp (length attempts) x).
Qed.

Lemma autoBuy_tracks c st address :
  tracks stamp st -> tracks stamp (autoBuy solana bsc stamp c st address).
Proof.
  intros (Hpos & Htimer & Hon). unfold tracks, autoBuy.
  cbn [profitTracker attempts]. rewrite positions_of_snoc.
  set (r := match c with
            | Solana => (SolanaTokenBuyer.buyToken (solana (length (attempts st))) address).1
            | BSC => (BSCTokenBuyer.buyToken (bsc (length (attempts st))) address).1
            end).
  destruct r as [ref platform amount tokenReceived quote|error] eqn:Hr; cbn [recorded].
  - unfold addPurchase. cbn [snd purchasedTokens isTracking trackingInterval].
    assert (Htok : match c with
                   | Solana => solanaTokensReceived (Bought ref platform amount tokenReceived quote)
                   | BSC => bscTokensReceived (Bought ref platform amount tokenReceived quote)
                   end
                   = match c, quote, tokenReceived with
                     | Solana, Some outAmount, _ => JStr outAmount
                     | _, _, Some received => JStr received
                     | _, _, None => JUndefined
                     end).
    { destruct c; cbn [solanaTokensReceived bscTokensReceived];
        by destruct quote, tokenReceived. }
    rewrite Htok.
    destruct (isTracking (profitTracker st)) eqn:E; unfold startTracking;
      cbn [negb purchasedTokens isTracking trackingInterval]; rewrite ?E;
      cbn [purchasedTokens isTracking trackingInterval]; rewrite Hpos.
    + split; [done|]. split; [done|].
      split; [intros _; by destruct (positions_of stamp (attempts st)) | done].
    + split; [done|]. split; [done|].
      split; [intros _; by destruct (positions_of stamp (attempts st)) | done].
  - by rewrite app_nil_r.
Qed.

Lemma foldl_autoBuy_tracks c l : forall st,
  tracks stamp st -> tracks stamp (foldl (autoBuy solana bsc stamp c) st l).
Proof.
  induction l as [|x l IH]; intros st Hst; [done|]. cbn [foldl].
  by apply IH, autoBuy_tracks.
Qed.

Lemma autoBuyTokens_tracks st a :
  tracks stamp st -> tracks stamp (autoBuyTokens solana bsc stamp cfg st a).
Proof.
  intros Hst. unfold autoBuyTokens.
  destruct (_ && solanaBuyer cfg), (_ && bscBuyer cfg);
    repeat apply foldl_autoBuy_tracks; done.
Qed.

Lemma opened_tracks : tracks stamp opened.
Proof. by repeat split. Qed.

(** X18. In the revision with the profit tracker, after auto-buying for any
    list of alerts the tracker holds one position per successful purchase
    attempt, in the order of the attempts, and its timer runs exactly when
    it holds a position. *)
Theorem tracker_records_the_successful_purchases (alerts : list alert) :
  let st := foldl (autoBuyTokens solana bsc stamp cfg) opened alerts in
  purchasedTokens (profitTracker st) = positions_of stamp (attempts st)
  /\ isTracking (profitTracker st) = trackingInterval (profitTracker st)
  /\ (isTracking (profitTracker st) = true <-> purchasedTokens (profitTracker st) <> []).
Proof.
  cbn zeta.
  assert (Hall : forall l st, tracks stamp st ->
            tracks stamp (foldl (autoBuyTokens solana bsc stamp cfg) st l)).
  { induction l as [|a l IH]; intros st Hst; [done|]. cbn [foldl].
    by apply IH, autoBuyTokens_tracks. }
  apply (Hall alerts opened opened_tracks).
Qed.

Lemma autoBuy_answered c st address :
  answered solana bsc st -> answered solana bsc (autoBuy solana bsc stamp c st address).
Proof.
  intros Hst n c' address' r. unfold autoBuy. cbn [attempts].
  intros [H|[Hn H]]%lookup_app_Some; [by apply Hst|].
  apply list_lookup_singleton_Some in H as [Hz [= <- <- <-]].
  by replace n with (length (attempts st)) by lia.
Qed.

Lemma autoBuyTokens_answered st a :
  answered solana bsc st -> answered solana bsc (autoBuyTokens solana bsc stamp cfg st a).
Proof.
  assert (Hfold : forall c l st, answered solana bsc st ->
            answered solana bsc (foldl (autoBuy solana bsc stamp c) st l)).
  { intros c l. induction l as [|x l IH]; intros st' Hst'; [done|]. cbn [foldl].
    by apply IH, autoBuy_answered. }
  intros Hst. unfold autoBuyTokens.
  destruct (_ && solanaBuyer cfg), (_ && bscBuyer cfg); repeat apply Hfold; done.
Qed.

Lemma elem_of_positions_of attempts0 p :
  p ∈ positions_of stamp attempts0 ->
  exists n x, attempts0 !! n = Some x /\ recorded stamp n x = Some p.
Proof.
  unfold positions_of. intros (o & Ho & Hp)%list_elem_of_omap.
  cbn beta in Hp. subst o.
  apply list_elem_of_lookup in Ho as (n & Hn).
  rewrite list_lookup_imap in Hn.
  destruct (attempts0 !! n) as [x|] eqn:E; [|done].
  exists n, x. split; [done|]. by injection Hn.
Qed.

End TradingFacts.

(** *** Arithmetic on zero *)

Section FloatFacts.

Lemma Prim2SF_zero : Prim2SF 0%float = S754_zero false.
Proof. by vm_compute. Qed.

Lemma SFcompare_refl_finite s m e :
  SFcompare (S754_finite s m e) (S754_finite s m e) = Some Eq.
Proof.
  cbn [SFcompare]. rewrite Z.compare_refl.
  assert (Hm : PosDef.Pos.compare_cont Eq m m = Eq) by (apply Pos.compare_cont_refl).
  rewrite Hm. by destruct s.
Qed.

(** A finite number other than zero passes [if (x)]. *)
Lemma truthy_finite_nonzero x : finite_nonzero x -> JS.truthy x = true.
Proof.
  unfold finite_nonzero, JS.truthy. rewrite !FloatAxioms.eqb_spec, Prim2SF_zero. unfold SFeqb.
  destruct (Prim2SF x) as [| | |s m e]; try done. intros _.
  rewrite SFcompare_refl_finite. cbn [SFcompare]. by destruct s.
Qed.

(** Zero times a finite number is a zero. *)
Lemma zero_times_finite x :
  finite_nonzero x -> exists s, Prim2SF (0 * x)%float = S754_zero s.
Proof.
  unfold finite_nonzero. intros Hx.
  destruct (Prim2SF x) as [| | |s m e] eqn:E; try done.
  exists (xorb false s). by rewrite FloatAxioms.mul_spec, Prim2SF_zero, E.
Qed.

(** A zero minus a finite number is that number with its sign changed. *)
Lemma zero_minus_finite z a s :
  Prim2SF z = S754_zero s -> finite_nonzero a -> (z - a)%float = (- a)%float.
Proof.
  unfold finite_nonzero. intros Hz Ha. apply Prim2SF_inj.
  rewrite FloatAxioms.sub_spec, FloatAxioms.opp_spec, Hz.
  by destruct (Prim2SF a) as [| | |sa m e].
Qed.

End FloatFacts.

Section ValuationFacts.
Import Venue TwitterMonitor ProfitTracker Tracker TrackedMonitor.
Variable parseFloat : string -> float.
Variable solana : nat -> SolanaTokenBuyer.world.
Variable bsc : nat -> BSCTokenBuyer.world.
Variable stamp : nat -> Z * string.
Variable cfg : config.

Lemma run_answered (alerts : list alert) :
  answered solana bsc (foldl (autoBuyTokens solana bsc stamp cfg) opened alerts).
Proof.
  assert (Hall : forall l st, answered solana bsc st ->
            answered solana bsc (foldl (autoBuyTokens solana bsc stamp cfg) st l)).
  { induction l as [|a l IH]; intros st Hst; [done|]. cbn [foldl].
    by apply IH, autoBuyTokens_answered. }
  apply Hall. intros n c address r H. cbn [opened attempts] in H.
  by rewrite lookup_nil in H.
Qed.

Lemma run_tracks (alerts : list alert) :
  tracks stamp (foldl (autoBuyTokens solana bsc stamp cfg) opened alerts).
Proof.
  assert (Hall : forall l st, tracks stamp st ->
            tracks stamp (foldl (autoBuyTokens solana bsc stamp cfg) st l)).
  { induction l as [|a l IH]; intros st Hst; [done|]. cbn [foldl].
    by apply IH, autoBuyTokens_tracks. }
  apply Hall, opened_tracks.
Qed.

(** X19. A position recorded for a purchase on Pump.fun or Raydium carries
    no [tokensReceived]: whatever finite non-zero price is found for it,
    its revaluation gives a current value of zero and a loss of the whole
    amount spent. *)
Theorem unquoted_purchases_are_valued_at_zero
        (alerts : list alert) (p : purchase) (price : float) :
  p ∈ purchasedTokens
        (profitTracker (foldl (autoBuyTokens solana bsc stamp cfg) opened alerts)) ->
  platform p = "Pump.fun" \/ platform p = "Raydium" ->
  finite_nonzero price ->
  finite_nonzero (amount p) ->
  tokensReceived p = JUndefined
  /\ JS.truthy price = true
  /\ PrimFloat.eqb (currentValue (revalue parseFloat (Some price) p)) 0 = true
  /\ profitLoss (revalue parseFloat (Some price) p) = (- amount p)%float.
Proof.
  intros Hin Hplatform Hprice Hamount.
  destruct (run_tracks alerts) as (Hpos & _).
  rewrite Hpos in Hin. apply elem_of_positions_of in Hin as (n & [[c address] r] & Hn & Hrec).
  apply (run_answered alerts) in Hn.
  assert (Htok : tokensReceived p = JUndefined).
  { destruct r as [ref pl amt tok quote|error]; [|done].
    injection Hrec as <-. cbn [platform tokensReceived] in *.
    destruct c.
    - symmetry in Hn. apply solana_result_shape in Hn as (v & _ & _ & Hv & Hl & -> & Hq).
      assert (quote = None) as ->.
      { destruct quote as [q|]; [|done].
        assert (v = Meteora) as -> by (by apply Hq).
        cbn [venue_label] in Hl. destruct Hplatform as [->| ->], Hl as [?|?]; done. }
      done.
    - symmetry in Hn. apply bsc_result_shape in Hn as (v & _ & _ & Hv & Hl & _ & _).
      destruct Hv as [-> | ->]; cbn [venue_label] in Hl;
        destruct Hplatform as [->| ->]; done. }
  pose proof (truthy_finite_nonzero price Hprice) as Htruthy.
  destruct (zero_times_finite price Hprice) as [s Hzero].
  split; [done|]. split; [done|].
  unfold revalue. rewrite Htruthy. cbn [currentValue profitLoss].
  unfold quantityReceived. rewrite Htok. cbn [truthy_val].
  split.
  - rewrite FloatAxioms.eqb_spec, Hzero, Prim2SF_zero. done.
  - by apply (zero_minus_finite _ _ s).
Qed.

End ValuationFacts.

Lemma unquoted_purchases_are_valued_at_zero_witness :
  PrimFloat.eqb
    (ProfitTracker.currentValue
       (ProfitTracker.revalue (fun _ => nan) (Some 0.002%float) position_pump)) 0 = true
  /\ ProfitTracker.profitLoss
       (ProfitTracker.revalue (fun _ => nan) (Some 0.002%float) position_pump) = (-3)%float.
Proof.
  destruct (unquoted_purchases_are_valued_at_zero (fun _ => nan)
              (fun _ => solana_market 3.7 true false false)
              (fun _ => bsc_node 5 true true true true)
              stamp_2024 buy_all [alert_sol] position_pump 0.002%float)
    as (_ & _ & Hv & Hl).
  - vm_compute. left.
  - by left.
  - by vm_compute.
  - by vm_compute.
  - split; [exact Hv | exact Hl].
Defined.


(** *** Selling on Solana *)

Section SellFacts.
Import Venue Selling.
Variable parseFloat : string -> float.

Lemma sellOnDynamicAmm_shape w mint amount done r ev :
  SolanaSeller.sellOnDynamicAmm parseFloat w mint amount done = (r, ev) ->
  (ev = done \/ ev = done ++ [Sent "Meteora Dynamic AMM" mint amount])
  /\ (sold r = true ->
      ev = done ++ [Sent "Meteora Dynamic AMM" mint amount]
      /\ exists ref x, r = Sold ref "Meteora Dynamic AMM" x).
Proof.
  unfold SolanaSeller.sellOnDynamicAmm. intros H.
  repeat case_match; simplify_eq; cbn [sold]; split; try tauto; try done.
  intros _. split; [done|]. by eexists _, _.
Qed.

Lemma sellOnMeteora_shape w mint amount r ev :
  SolanaSeller.sellOnMeteora parseFloat w mint amount = (r, ev) ->
  (ev = [] \/ ev = [Sent "Meteora DLMM" mint amount]
   \/ ev = [Sent "Meteora Dynamic AMM" mint amount]
   \/ ev = [Sent "Meteora DLMM" mint amount; Sent "Meteora Dynamic AMM" mint amount])
  /\ (sold r = true ->
      exists ref x, r = Sold ref "Meteora DLMM" x \/ r = Sold ref "Meteora Dynamic AMM" x).
Proof.
  unfold SolanaSeller.sellOnMeteora. intros H.
  repeat case_match; simplify_eq; cbn [sold];
    try (split; [tauto|]; first [done | intros _; eexists _, _; tauto]).
  all: match goal with
       | H : SolanaSeller.sellOnDynamicAmm _ _ _ _ _ = _ |- _ =>
           apply sellOnDynamicAmm_shape in H as ([-> | ->] & Hs)
       end; cbn [app]; split; try tauto.
  all: intros Hsold; destruct (Hs Hsold) as (_ & ref & x & ->); eexists _, _; tauto.
Qed.

(** X20. [sellSingleToken] on Solana can only succeed through Meteora: a
    successful result is that of [sellOnMeteora] on one of the two Meteora
    platforms, a failed one says that no compatible DEX was found (or
    carries the error of the address), and at most two swaps are sent. *)
Theorem solana_tokens_sell_through_Meteora_only
        (w : SolanaSeller.world) (mint amount : string) :
  let '(r, ev) := SolanaSeller.sellSingleToken parseFloat w mint amount in
  (sold r = true ->
   (r, ev) = SolanaSeller.sellOnMeteora parseFloat w mint amount
   /\ exists ref x, r = Sold ref "Meteora DLMM" x \/ r = Sold ref "Meteora Dynamic AMM" x)
  /\ (sold r = false ->
      exists error, r = NotSold error
        /\ (error = "No compatible DEX found for selling"
            \/ SolanaSeller.publicKey w mint = Throws error))
  /\ (ev = [] \/ ev = [Sent "Meteora DLMM" mint amount]
      \/ ev = [Sent "Meteora Dynamic AMM" mint amount]
      \/ ev = [Sent "Meteora DLMM" mint amount; Sent "Meteora Dynamic AMM" mint amount]).
Proof.
  unfold SolanaSeller.sellSingleToken.
  destruct (SolanaSeller.publicKey w mint) as [[]|message] eqn:Hkey.
  - destruct (SolanaSeller.sellOnMeteora parseFloat w mint amount) as [r ev] eqn:Hm.
    apply sellOnMeteora_shape in Hm as (Hev & Hsold).
    destruct (sold r) eqn:Hr; cbn [SolanaSeller.sellOnRaydium SolanaSeller.sellOnPumpFun sold].
    + split; [intros _; split; [done | by apply Hsold]|]. split; [by rewrite Hr | done].
    + split; [done|]. split; [|done]. intros _. eexists. split; [done | by left].
  - split; [done|]. split; [|by left]. intros _. exists message. tauto.
Qed.

(** X21. [sellOnMeteora] sends both a DLMM swap and a Dynamic AMM swap of
    the same amount exactly when the DLMM swap was sent, its confirmation
    threw, and the Dynamic AMM swap could be sent as well. *)
Theorem unconfirmed_DLMM_sale_is_followed_by_a_second_sale
        (w : SolanaSeller.world) (mint amount : string) :
  (SolanaSeller.sellOnMeteora parseFloat w mint amount).2
    = [Sent "Meteora DLMM" mint amount; Sent "Meteora Dynamic AMM" mint amount]
  <->
  (exists key pool out signature message pool' out' signature',
     SolanaSeller.publicKey w mint = Returns key
     /\ SolanaSeller.findLbPair w mint = Returns (Some pool)
     /\ SolanaSeller.dlmmSwap w pool mint amount = Returns out
     /\ SolanaSeller.sendTransaction w "Meteora DLMM" mint = Returns signature
     /\ SolanaSeller.confirmTransaction w signature = Throws message
     /\ SolanaSeller.ammTargetPool w mint = Returns (Some pool')
     /\ SolanaSeller.ammSwap w pool' mint amount = Returns out'
     /\ SolanaSeller.sendTransaction w "Meteora Dynamic AMM" mint = Returns signature').
Proof.
  unfold SolanaSeller.sellOnMeteora, SolanaSeller.sellOnDynamicAmm. split.
  - intros H. repeat case_match; simplify_eq/=; by eexists _, _, _, _, _, _, _, _.
  - intros (key & pool & out & sg & message & pool' & out' & sg' &
            -> & -> & -> & -> & -> & -> & -> & ->).
    by destruct (SolanaSeller.confirmTransaction w sg').
Qed.

Lemma foldl_sellAccount w accounts : forall results total done,
  foldl (SolanaSeller.sellAccount parseFloat w) (results, total, done) accounts
  = (results ++ ((fun acc => (SolanaSeller.sellSingleToken parseFloat w
                                (SolanaSeller.mint acc) (SolanaSeller.amount acc)).1)
                 <$> filter (fun acc => sellable parseFloat acc = true) accounts),
     foldl (fun total r => if sold r then (total + received_or_0 r)%float else total)
           total
           ((fun acc => (SolanaSeller.sellSingleToken parseFloat w
                           (SolanaSeller.mint acc) (SolanaSeller.amount acc)).1)
            <$> filter (fun acc => sellable parseFloat acc = true) accounts),
     done ++ mjoin ((fun acc => (SolanaSeller.sellSingleToken parseFloat w
                                   (SolanaSeller.mint acc) (SolanaSeller.amount acc)).2
                                ++ [Paused 2000])
                    <$> filter (fun acc => sellable parseFloat acc = true) accounts)).
Proof.
  induction accounts as [|acc accounts IH]; intros results total done; cbn [foldl].
  - by rewrite !app_nil_r.
  - unfold SolanaSeller.sellAccount at 2. unfold sellable at 1 2 3.
    case_bool_decide as Hmint.
    { rewrite !filter_cons_False by (unfold sellable; rewrite bool_decide_eq_true_2; done).
      apply IH. }
    destruct (PrimFloat.eqb (parseFloat (SolanaSeller.amount acc)) 0) eqn:Hzero.
    { rewrite !filter_cons_False
        by (unfold sellable; rewrite Hzero, andb_false_r; done).
      apply IH. }
    rewrite !filter_cons_True
      by (unfold sellable; rewrite Hzero, bool_decide_eq_false_2; done).
    destruct (SolanaSeller.sellSingleToken parseFloat w _ _) as [r sent] eqn:Hsell.
    rewrite IH. cbn [fmap list_fmap mjoin list_join foldl]. rewrite Hsell. cbn [fst snd].
    by rewrite <- !app_assoc.
Qed.

(** X22. [sellAllTokensToSOL] fails with the error of the account listing
    when that throws; otherwise it tries one sale for each token account
    that is not wrapped SOL and whose amount does not parse to 0, in the
    order of the listing with a pause of two seconds after each, and
    reports their results and the sum of what the successful ones
    received. *)
Theorem sellAllTokensToSOL_sells_every_other_token (w : SolanaSeller.world) :
  match SolanaSeller.getParsedTokenAccountsByOwner w with
  | Throws message =>
      SolanaSeller.sellAllTokensToSOL parseFloat w = (AllFailed message, [])
  | Returns accounts =>
      let sales :=
        (fun acc => SolanaSeller.sellSingleToken parseFloat w
                      (SolanaSeller.mint acc) (SolanaSeller.amount acc))
        <$> filter (fun acc => sellable parseFloat acc = true) accounts in
      SolanaSeller.sellAllTokensToSOL parseFloat w
      = (AllDone (total_received (fst <$> sales)) (fst <$> sales),
         mjoin ((fun sale => sale.2 ++ [Paused 2000]) <$> sales))
  end.
Proof.
  unfold SolanaSeller.sellAllTokensToSOL.
  destruct (SolanaSeller.getParsedTokenAccountsByOwner w) as [accounts|message]; [|done].
  rewrite foldl_sellAccount. cbn [app]. cbn zeta. unfold total_received.
  by rewrite <- !list_fmap_compose.
Qed.

End SellFacts.

(** *** Selling on BSC and clearing the tracker *)

Section BscSellFacts.
Import Venue Selling BSCSeller.

(** [ERC20_ABI] has no [approve]: the approval cannot be encoded, and a
    sell method answers with that error before it sends anything. *)
Lemma sellOn_never_sends w exchange platform abi functionName args token amount :
  sellOn w exchange platform abi functionName args token amount
  = (NotSold (approval_error w amount), []).
Proof.
  unfold sellOn, approval_error. by destruct (toBigInt w amount).
Qed.

Lemma sellSingleToken_never_sells w token amount :
  sellSingleToken w token amount = (NotSold "No compatible DEX found for selling", []).
Proof.
  unfold sellSingleToken, sellOnFourMeme, sellOnPancakeSwap.
  by rewrite !sellOn_never_sends.
Qed.

Lemma foldl_sellToken w tokens : forall results total done,
  foldl (sellToken w) (results, total, done) tokens
  = (results ++ ((fun _ => NotSold "No compatible DEX found for selling")
                 <$> filter (fun t => holds w t = true) tokens),
     total,
     done ++ mjoin ((fun _ => [Paused 2000]) <$> filter (fun t => holds w t = true) tokens)).
Proof.
  induction tokens as [|t tokens IH]; intros results total done; cbn [foldl].
  - by rewrite !app_nil_r.
  - unfold sellToken at 2.
    destruct (balanceOf w t) as [balance|message] eqn:Hbal.
    + destruct (balance =? 0)%Z eqn:Hzero.
      * rewrite !filter_cons_False by (unfold holds; rewrite Hbal, Hzero; done).
        apply IH.
      * rewrite !filter_cons_True by (unfold holds; rewrite Hbal, Hzero; done).
        rewrite sellSingleToken_never_sells. cbn [sold app].
        rewrite IH. cbn [fmap list_fmap mjoin list_join].
        by rewrite <- !app_assoc.
    + rewrite !filter_cons_False by (unfold holds; rewrite Hbal; done).
      apply IH.
Qed.

(** X23. A sale on BSC never gets as far as a transaction.  [ERC20_ABI]
    has no [approve], so encoding the approval throws in [sellOnFourMeme]
    and in [sellOnPancakeSwap] before anything is sent; [sellSingleToken]
    answers 'No compatible DEX found for selling' whatever the token, the
    amount and the node; and over any list of known tokens the loop of
    [sellAllTokensToBNB] reports one such failure for each token the wallet
    holds, pauses two seconds after each, and receives nothing. *)
Theorem bsc_tokens_are_never_sold
        (w : world) (token amount : string) (knownTokens : list string) :
  Viem.encodeFunctionData BSCTokenBuyer.ERC20_ABI "approve" 2
  = Some (Viem.AbiFunctionNotFound "approve")
  /\ sellOnFourMeme w token amount = (NotSold (approval_error w amount), [])
  /\ sellOnPancakeSwap w token amount = (NotSold (approval_error w amount), [])
  /\ sellSingleToken w token amount
     = (NotSold "No compatible DEX found for selling", [])
  /\ sellTokens w knownTokens
     = (AllDone 0 ((fun _ => NotSold "No compatible DEX found for selling")
                   <$> filter (fun t => holds w t = true) knownTokens),
        mjoin ((fun _ => [Paused 2000])
               <$> filter (fun t => holds w t = true) knownTokens)).
Proof.
  split; [done|].
  split; [apply sellOn_never_sends|].
  split; [apply sellOn_never_sends|].
  split; [apply sellSingleToken_never_sells|].
  unfold sellTokens. by rewrite foldl_sellToken.
Qed.

End BscSellFacts.

Section ClearingFacts.
Import Venue Selling ProfitTracker Tracker TrackedMonitor.
Variable parseFloat : string -> float.

(** X24. [sellAllTokensToBNB] has no token to sell and reports success
    with nothing sold, and [sellAllBSCTokens] then drops every BSC
    position from the tracker.  [sellAllSolanaTokens] drops every Solana
    position once the accounts could be listed, whether or not a sale
    succeeded, and leaves the tracker as it was when the listing
    throws. *)
Theorem selling_all_clears_the_tracker
        (sw : SolanaSeller.world) (bw : BSCSeller.world) (t : tracker) :
  BSCSeller.sellAllTokensToBNB bw = (AllDone 0 [], [])
  /\ sellAllBSCTokens bw t
     = ({| purchasedTokens := filter (fun p => chain p <> "bsc") (purchasedTokens t);
           isTracking := isTracking t; trackingInterval := trackingInterval t |}, [])
  /\ match SolanaSeller.getParsedTokenAccountsByOwner sw with
     | Returns _ =>
         purchasedTokens (sellAllSolanaTokens parseFloat sw t).1
         = filter (fun p => chain p <> "solana") (purchasedTokens t)
         /\ Forall (fun p => chain p <> "solana")
                   (purchasedTokens (sellAllSolanaTokens parseFloat sw t).1)
     | Throws _ => sellAllSolanaTokens parseFloat sw t = (t, [])
     end.
Proof.
  split; [done|]. split; [done|].
  unfold sellAllSolanaTokens, SolanaSeller.sellAllTokensToSOL.
  destruct (SolanaSeller.getParsedTokenAccountsByOwner sw) as [accounts|message]; [|done].
  rewrite foldl_sellAccount. cbn [fst purchasedTokens]. split; [done|].
  apply Forall_forall. by intros p [Hp _]%list_elem_of_filter.
Qed.

End ClearingFacts.

(** *** The mock price of the BSC positions *)

Section MockPriceFacts.
Import Venue ProfitTracker.
Variable parseFloat : string -> float.

Lemma revalue_bsc_fixed p :
  revalue parseFloat (Some 0.001%float) (revalue parseFloat (Some 0.001%float) p)
  = revalue parseFloat (Some 0.001%float) p
  /\ chain (revalue parseFloat (Some 0.001%float) p) = chain p
  /\ currentValue (revalue parseFloat (Some 0.001%float) p)
     = (quantityReceived parseFloat p * 0.001)%float
  /\ profitLoss (revalue parseFloat (Some 0.001%float) p)
     = (currentValue (revalue parseFloat (Some 0.001%float) p) - amount p)%float.
Proof.
  unfold revalue. change (JS.truthy 0.001%float) with true.
  by cbn.
Qed.

Lemma updateProfitLoss_bsc (v : world) (positions : list purchase) :
  Forall (fun p => chain p = "bsc") positions ->
  updateProfitLoss parseFloat v positions
  = revalue parseFloat (Some 0.001%float) <$> positions.
Proof.
  intros Hbsc. unfold updateProfitLoss. apply list_eq. intros n.
  rewrite list_lookup_imap, list_lookup_fmap.
  destruct (positions !! n) as [p|] eqn:E; [|done].
  cbn [fmap option_fmap option_map]. f_equal.
  assert (Hp : chain p = "bsc").
  { rewrite Forall_forall in Hbsc. by eapply Hbsc, list_elem_of_lookup_2. }
  unfold currentPrice. rewrite Hp.
  rewrite bool_decide_eq_false_2 by done. by rewrite bool_decide_eq_true_2.
Qed.

(** X25. A position on BSC is valued at the fixed price 0.001 BNB per
    token: revaluing positions that are all on BSC gives the same result
    whatever the price sources answer, with a current value of the
    quantity received times 0.001 and a profit of that value minus the
    amount spent, and revaluing again changes nothing. *)
Theorem bsc_positions_are_valued_at_a_fixed_price
        (w w' : world) (positions : list purchase) :
  Forall (fun p => chain p = "bsc") positions ->
  updateProfitLoss parseFloat w positions = updateProfitLoss parseFloat w' positions
  /\ updateProfitLoss parseFloat w (updateProfitLoss parseFloat w positions)
     = updateProfitLoss parseFloat w positions
  /\ Forall2 (fun p q => currentValue q = (quantityReceived parseFloat p * 0.001)%float
                         /\ profitLoss q = (currentValue q - amount p)%float)
             positions (updateProfitLoss parseFloat w positions).
Proof.
  intros Hbsc.
  assert (Hkept : Forall (fun p => chain p = "bsc")
                    (revalue parseFloat (Some 0.001%float) <$> positions)).
  { apply Forall_fmap. eapply Forall_impl; [exact Hbsc|]. intros p Hp. cbn beta.
    unfold compose. by destruct (revalue_bsc_fixed p) as (_ & -> & _). }
  rewrite !(updateProfitLoss_bsc _ positions Hbsc).
  split; [done|]. split.
  - rewrite (updateProfitLoss_bsc _ _ Hkept), <- list_fmap_compose.
    apply list_fmap_ext. intros n p _. exact (proj1 (revalue_bsc_fixed p)).
  - apply Forall2_fmap_r, Forall_Forall2_diag, Forall_forall.
    intros p _. cbn beta. by destruct (revalue_bsc_fixed p) as (_ & _ & Hv & Hl).
Qed.

End MockPriceFacts.

Lemma bsc_positions_are_valued_at_a_fixed_price_witness :
  ProfitTracker.updateProfitLoss (fun _ => 42%float) jupiter [position_bsc]
  = ProfitTracker.updateProfitLoss (fun _ => 42%float)
      {| ProfitTracker.jupiterQuote := fun _ _ => Venue.Throws "down" |} [position_bsc].
Proof.
  destruct (bsc_positions_are_valued_at_a_fixed_price (fun _ => 42%float) jupiter
              {| ProfitTracker.jupiterQuote := fun _ _ => Venue.Throws "down" |}
              [position_bsc]) as (H & _).
  - repeat constructor.
  - exact H.
Defined.
